(** * SN-chat-be: trade lifecycle, reviews, chat and presence

    A shallow embedding of the request handlers of
    [src/modules/tradeSkills/controller.js], [src/modules/chat/chat.controller.js]
    and of the socket handlers of [src/services/socket.service.js], and the
    properties of them that the specification states.

    Conventions of the embedding.
    - An ObjectId is its canonical hexadecimal string, in lower case, which
      is what [toString] gives. [createTradeRequest] compares the receiver
      id of the body with the caller's id as strings before Mongoose casts
      it, so there the cast is written out ([castObjectId] puts the hex
      letters in lower case); in the other handlers the ids of a request
      are taken in canonical form, on which the cast is the identity.
    - A value read from a request body or a socket payload is an
      [option string] ([None] is [undefined]); a rating is an [option Q].
      JavaScript numbers are taken as exact rationals.
    - The collections of MongoDB, the presence map [userSockets], the
      [userId] property of every socket and the ordered log of what the
      process wrote and emitted form one [State]; a handler is a function
      from states to an outcome and a state. *)

From Stdlib Require Import QArith Qround.
From stdpp Require Import gmap strings list sorting.

Local Open Scope string_scope.
Local Open Scope list_scope.

(** ** JavaScript strings *)

Abbreviation ObjectId := string.

(** The code units below 256 that [String.prototype.trim] strips. *)
Definition is_js_whitespace (c : Ascii.ascii) : bool :=
  match Ascii.nat_of_ascii c with
  | 9 | 10 | 11 | 12 | 13 | 32 | 160 => true
  | _ => false
  end.

Fixpoint trimStart (s : string) : string :=
  match s with
  | EmptyString => EmptyString
  | String c s' => if is_js_whitespace c then trimStart s' else s
  end.

Definition trimEnd (s : string) : string :=
  String.rev (trimStart (String.rev s)).

Definition trim (s : string) : string := trimEnd (trimStart s).

(** [truthy v] is [Some s] exactly when the JavaScript value [v] is a
    non-empty string, that is when [!v] is false. *)
Definition truthy (v : option string) : option string :=
  match v with
  | Some s => if decide (s = "") then None else Some s
  | None => None
  end.

(** ** Payloads, errors and responses *)

#[warnings="-register-all"]
Inductive json : Type :=
  | JNull
  | JBool (b : bool)
  | JNum (n : Q)
  | JStr (s : string)
  | JArr (items : list json)
  | JObj (fields : list (string * json)).

Definition JDate (t : nat) : json := JNum (inject_Z (Z.of_nat t)).

Definition JOpt (v : option string) : json :=
  match v with Some s => JStr s | None => JNull end.

(** What a handler can throw: an [ApiError] of the controllers, a
    [TypeError] of the runtime (a property read on [null]), or an error of
    the MongoDB driver or of Mongoose validation. *)
Inductive error : Type :=
  | ApiError (statusCode : nat) (message : string)
  | TypeError (message : string)
  | MongoError (message : string).

(** The class of an error as the caller sees it. *)
Definition statusCodeOf (e : error) : nat :=
  match e with
  | ApiError c _ => c
  | TypeError _ | MongoError _ => 500
  end.

Record ApiResponse (A : Type) : Type := mkApiResponse {
  statusCode : nat;
  data : A;
  responseMessage : string;
}.
Arguments mkApiResponse {A} _ _ _.
Arguments statusCode {A} _.
Arguments data {A} _.
Arguments responseMessage {A} _.

(** ** Documents *)

(** Modelled from the spec: the user and skill models are not among the
    sources; a user and a skill carry the fields that the handlers read
    from a populated reference. *)
Module User.
Record doc : Type := mk { name : string; profileImage : string }.
End User.

Module Skill.
Record doc : Type := mk { name : string }.
End Skill.

(** Modelled from the spec: [skillProfile.model.js] is not among the
    sources; the Review Engine writes the single numeric field [rating]. *)
Module SkillProfile.
Record doc : Type := mk { rating : Q }.
End SkillProfile.

(** Modelled from the spec: [tradeRequest.model.js] is not among the
    sources; the fields are those of section 3 of the specification, which
    are also the ones the controller reads and writes. The [_id] of a trade
    is its key in the collection. *)
Module TradeRequest.
Record doc : Type := mk {
  sender : ObjectId;
  receiver : ObjectId;
  senderOfferedSkill : ObjectId;
  receiverOfferedSkill : ObjectId;
  status : string;
  completedBy : list ObjectId;
  message : option string;
  createdAt : nat;
  updatedAt : nat;
}.

Definition with_status (s : string) (t : doc) : doc :=
  mk (sender t) (receiver t) (senderOfferedSkill t) (receiverOfferedSkill t)
     s (completedBy t) (message t) (createdAt t) (updatedAt t).

Definition with_completedBy (l : list ObjectId) (t : doc) : doc :=
  mk (sender t) (receiver t) (senderOfferedSkill t) (receiverOfferedSkill t)
     (status t) l (message t) (createdAt t) (updatedAt t).

Definition with_updatedAt (n : nat) (t : doc) : doc :=
  mk (sender t) (receiver t) (senderOfferedSkill t) (receiverOfferedSkill t)
     (status t) (completedBy t) (message t) (createdAt t) n.
End TradeRequest.

(** [review.model.js], with the two timestamps of [timestamps: true]. *)
Module Review.
Record doc : Type := mk {
  _id : ObjectId;
  tradeRequest : ObjectId;
  reviewer : ObjectId;
  reviewee : ObjectId;
  rating : Q;
  review : string;
  skillReviewed : ObjectId;
  createdAt : nat;
  updatedAt : nat;
}.
End Review.

(** The message schema, with the two timestamps of [timestamps: true]. *)
Module Message.
Record doc : Type := mk {
  _id : ObjectId;
  sender : ObjectId;
  receiver : ObjectId;
  tradeId : ObjectId;
  message : string;
  read : bool;
  createdAt : nat;
  updatedAt : nat;
}.

Definition with_read (b : bool) (n : nat) (m : doc) : doc :=
  mk (_id m) (sender m) (receiver m) (tradeId m) (message m) b
     (createdAt m) n.
End Message.

(** ** The state of the process *)

(** One entry of the ordered log: a document written to a collection, or an
    event emitted to a socket. *)
Inductive effect : Type :=
  | Saved (collection : string) (id : ObjectId)
  | Emitted (socketId : string) (event : string) (payload : json).

Record State : Type := mkState {
  tradeRequests : gmap string TradeRequest.doc;
  reviews : list Review.doc;
  messages : list Message.doc;
  users : gmap string User.doc;
  skills : gmap string Skill.doc;
  skillProfiles : gmap string SkillProfile.doc;
  (** [const userSockets = new Map()]: user id to socket id *)
  userSockets : gmap string string;
  (** the [userId] property of each socket, keyed by socket id *)
  socketUserId : gmap string string;
  (** whether [io] is set *)
  io : bool;
  log : list effect;
}.

Definition set_tradeRequests (f : gmap string TradeRequest.doc → gmap string TradeRequest.doc)
    (st : State) : State :=
  mkState (f (tradeRequests st)) (reviews st) (messages st) (users st) (skills st)
    (skillProfiles st) (userSockets st) (socketUserId st) (io st) (log st).

Definition set_reviews (f : list Review.doc → list Review.doc) (st : State) : State :=
  mkState (tradeRequests st) (f (reviews st)) (messages st) (users st) (skills st)
    (skillProfiles st) (userSockets st) (socketUserId st) (io st) (log st).

Definition set_messages (f : list Message.doc → list Message.doc) (st : State) : State :=
  mkState (tradeRequests st) (reviews st) (f (messages st)) (users st) (skills st)
    (skillProfiles st) (userSockets st) (socketUserId st) (io st) (log st).

Definition set_skillProfiles (f : gmap string SkillProfile.doc → gmap string SkillProfile.doc)
    (st : State) : State :=
  mkState (tradeRequests st) (reviews st) (messages st) (users st) (skills st)
    (f (skillProfiles st)) (userSockets st) (socketUserId st) (io st) (log st).

Definition set_userSockets (f : gmap string string → gmap string string)
    (st : State) : State :=
  mkState (tradeRequests st) (reviews st) (messages st) (users st) (skills st)
    (skillProfiles st) (f (userSockets st)) (socketUserId st) (io st) (log st).

Definition set_socketUserId (f : gmap string string → gmap string string)
    (st : State) : State :=
  mkState (tradeRequests st) (reviews st) (messages st) (users st) (skills st)
    (skillProfiles st) (userSockets st) (f (socketUserId st)) (io st) (log st).

Definition set_log (f : list effect → list effect) (st : State) : State :=
  mkState (tradeRequests st) (reviews st) (messages st) (users st) (skills st)
    (skillProfiles st) (userSockets st) (socketUserId st) (io st) (f (log st)).

(** ** Handlers as state transformers that may throw *)

Inductive outcome (A : Type) : Type :=
  | Return (a : A)
  | Throw (e : error).
Arguments Return {A} _.
Arguments Throw {A} _.

Definition M (A : Type) : Type := State → outcome A * State.

Definition ret {A} (a : A) : M A := λ st, (Return a, st).

Definition throw {A} (e : error) : M A := λ st, (Throw e, st).

Definition bind {A B} (m : M A) (k : A → M B) : M B :=
  λ st, match m st with
        | (Return a, st') => k a st'
        | (Throw e, st') => (Throw e, st')
        end.

Definition gets {A} (f : State → A) : M A := λ st, (Return (f st), st).

Definition modify (f : State → State) : M unit := λ st, (Return tt, f st).

(** [try { m } catch (error) { h error }] *)
Definition try_catch {A} (m : M A) (h : error → M A) : M A :=
  λ st, match m st with
        | (Return a, st') => (Return a, st')
        | (Throw e, st') => h e st'
        end.

Notation "'let*' x ':=' m 'in' k" := (bind m (λ x, k))
  (at level 10, x name, m at level 100, k at level 200, only parsing).

Definition record (e : effect) : M unit := modify (set_log (λ l, l ++ [e])).

(** [doc.field.prop] on a populated reference: a [TypeError] when the
    referenced document does not exist and populate left [null]. *)
Definition deref {A} (coll : State → gmap string A) (id : ObjectId) (what : string) : M A :=
  let* found := gets (λ st, coll st !! id) in
  match found with
  | Some d => ret d
  | None => throw (TypeError what)
  end.

(** ** [socket.service.js]: the presence map and the dispatcher *)

Module NOTIFICATION_EVENTS.
Definition TRADE_REQUEST_RECEIVED := "notification:trade_request_received".
Definition TRADE_REQUEST_ACCEPTED := "notification:trade_request_accepted".
Definition TRADE_REQUEST_REJECTED := "notification:trade_request_rejected".
Definition TRADE_REQUEST_COMPLETED := "notification:trade_request_completed".
Definition TRADE_MARKED_COMPLETE := "notification:trade_marked_complete".
Definition REVIEW_RECEIVED := "notification:review_received".
End NOTIFICATION_EVENTS.

(** [userSockets.get(userId.toString())] *)
Definition getUserSocketId (userId : string) : M (option string) :=
  gets (λ st, userSockets st !! userId).

(** [sendNotificationToUser]: [delivered = !!(socketId && io)]; the call of
    [logNotification] writes to the console only. *)
Definition sendNotificationToUser (userId : string) (event : string) (payload : json) : M bool :=
  let* socketId := getUserSocketId userId in
  let* io := gets io in
  match truthy socketId with
  | Some socketId =>
      if io then
        let* _ := record (Emitted socketId event payload) in
        ret true
      else ret false
  | None => ret false
  end.

(** ** The trade collection *)

Definition TradeRequestModel_findById (id : string) : M (option TradeRequest.doc) :=
  gets (λ st, tradeRequests st !! id).

Definition TradeRequestModel_findOne (filter : TradeRequest.doc → bool)
    : M (option (ObjectId * TradeRequest.doc)) :=
  gets (λ st, List.find (λ kv, filter kv.2) (map_to_list (tradeRequests st))).

(** Modelled from the spec: [tradeRequest.model.js] is not among the
    sources; a created trade has status [pending], an empty [completedBy]
    and its two timestamps. The driver refuses an [_id] already in use. *)
Definition TradeRequestModel_create (newId : ObjectId) (now : nat)
    (sender receiver senderOfferedSkill receiverOfferedSkill : ObjectId)
    (message : option string) : M TradeRequest.doc :=
  let* clash := TradeRequestModel_findById newId in
  match clash with
  | Some _ => throw (MongoError "E11000 duplicate key error")
  | None =>
      let trade :=
        TradeRequest.mk sender receiver senderOfferedSkill receiverOfferedSkill
          "pending" [] message now now in
      let* _ := modify (set_tradeRequests (insert newId trade)) in
      let* _ := record (Saved "traderequests" newId) in
      ret trade
  end.

(** [trade.save()] *)
Definition TradeRequest_save (id : ObjectId) (now : nat) (trade : TradeRequest.doc)
    : M TradeRequest.doc :=
  let saved := TradeRequest.with_updatedAt now trade in
  let* _ := modify (set_tradeRequests (insert id saved)) in
  let* _ := record (Saved "traderequests" id) in
  ret saved.

Definition userSummary (u : User.doc) : json :=
  JObj [("name", JStr (User.name u)); ("profileImage", JStr (User.profileImage u))].

(** The payload shared by the notifications of [updateTradeStatus]; [who]
    is [acceptedBy], [rejectedBy], [partner] or [markedBy]. *)
Definition tradePayload (tradeId : ObjectId) (who : string) (u : User.doc)
    (senderOfferedSkill receiverOfferedSkill : Skill.doc) : json :=
  JObj [("tradeId", JStr tradeId); (who, userSummary u);
        ("senderOfferedSkill", JStr (Skill.name senderOfferedSkill));
        ("receiverOfferedSkill", JStr (Skill.name receiverOfferedSkill))].

(** ** Casting to an ObjectId *)

(** Mongoose casts the ids of a filter and of a new document to the type
    of the schema path. A string of 24 hex digits is read without regard to
    case and an ObjectId prints in lower case, so the cast of a string that
    is an id is that string with the letters [A] to [F] in lower case. A
    string that is not an id makes the cast throw before anything is
    written; the embedding follows the requests whose ids are ids. *)
Definition lowerHex (c : Ascii.ascii) : Ascii.ascii :=
  let n := Ascii.nat_of_ascii c in
  if (65 <=? n)%nat && (n <=? 70)%nat then Ascii.ascii_of_nat (n + 32) else c.

Fixpoint castObjectId (s : string) : ObjectId :=
  match s with
  | EmptyString => EmptyString
  | String c s => String (lowerHex c) (castObjectId s)
  end.

(** ** [controller.js]: [createTradeRequest] *)

(** The filter of the duplicate check: same sender, receiver and skill
    pairing, and status [pending]. *)
Definition pendingDuplicate (senderId receiverId senderOfferedSkillId receiverOfferedSkillId : ObjectId)
    (t : TradeRequest.doc) : bool :=
  bool_decide (TradeRequest.sender t = senderId)
  && bool_decide (TradeRequest.receiver t = receiverId)
  && bool_decide (TradeRequest.senderOfferedSkill t = senderOfferedSkillId)
  && bool_decide (TradeRequest.receiverOfferedSkill t = receiverOfferedSkillId)
  && bool_decide (TradeRequest.status t = "pending").

Definition createTradeRequest (senderId : ObjectId)
    (receiverId senderOfferedSkillId receiverOfferedSkillId message : option string)
    (newId : ObjectId) (now : nat)
    : M (ApiResponse (ObjectId * TradeRequest.doc)) :=
  match truthy receiverId, truthy senderOfferedSkillId, truthy receiverOfferedSkillId with
  | Some receiverId, Some senderOfferedSkillId, Some receiverOfferedSkillId =>
      (* receiverId.toString() === senderId.toString(): the string of the
         body against the lower-case string of the caller's ObjectId *)
      if decide (receiverId = senderId) then
        throw (ApiError 400 "You cannot trade with yourself")
      else
        (* findOne and create cast the three ids of the body *)
        let receiver := castObjectId receiverId in
        let senderOfferedSkill := castObjectId senderOfferedSkillId in
        let receiverOfferedSkill := castObjectId receiverOfferedSkillId in
        let* existing :=
          TradeRequestModel_findOne
            (pendingDuplicate senderId receiver senderOfferedSkill receiverOfferedSkill) in
        match existing with
        | Some _ => throw (ApiError 400 "A pending trade already exists")
        | None =>
            let* trade :=
              TradeRequestModel_create newId now senderId receiver
                senderOfferedSkill receiverOfferedSkill message in
            (* populatedTrade.sender.name, .senderOfferedSkill.name, ... *)
            let* sender := deref users senderId "populatedTrade.sender" in
            let* senderOfferedSkill :=
              deref skills senderOfferedSkill "populatedTrade.senderOfferedSkill" in
            let* receiverOfferedSkill :=
              deref skills receiverOfferedSkill "populatedTrade.receiverOfferedSkill" in
            (* the dispatcher is handed the receiverId of the body *)
            let* _ :=
              sendNotificationToUser receiverId NOTIFICATION_EVENTS.TRADE_REQUEST_RECEIVED
                (JObj [("tradeId", JStr newId); ("sender", userSummary sender);
                       ("senderOfferedSkill", JStr (Skill.name senderOfferedSkill));
                       ("receiverOfferedSkill", JStr (Skill.name receiverOfferedSkill));
                       ("message", JOpt (TradeRequest.message trade));
                       ("createdAt", JDate (TradeRequest.createdAt trade))]) in
            ret (mkApiResponse 201 (newId, trade) "Trade request created successfully")
        end
  | _, _, _ => throw (ApiError 400 "Missing required fields")
  end.

(** ** [controller.js]: [updateTradeStatus] *)

Definition updateTradeStatus (userId : ObjectId) (id : string) (status : option string)
    (now : nat) : M (ApiResponse (ObjectId * TradeRequest.doc)) :=
  let* found := TradeRequestModel_findById id in
  match found with
  | None => throw (ApiError 404 "Trade not found")
  | Some trade =>
      (* trade.sender._id and trade.receiver._id of the populated trade *)
      let* sender := deref users (TradeRequest.sender trade) "trade.sender" in
      let* receiver := deref users (TradeRequest.receiver trade) "trade.receiver" in
      let senderId := TradeRequest.sender trade in
      let receiverId := TradeRequest.receiver trade in
      if negb (bool_decide (userId ∈ [senderId; receiverId])) then
        throw (ApiError 403 "Not authorized")
      else if negb (bool_decide (status ∈ [Some "accepted"; Some "rejected"; Some "completed"])) then
        throw (ApiError 400 "Invalid status")
      else
        let notifyUserId := if decide (userId = senderId) then receiverId else senderId in
        let currentUser := if decide (userId = senderId) then sender else receiver in
        (* every branch below reads both skill names for its payload *)
        let skillNames :=
          let* s := deref skills (TradeRequest.senderOfferedSkill trade) "trade.senderOfferedSkill" in
          let* r := deref skills (TradeRequest.receiverOfferedSkill trade) "trade.receiverOfferedSkill" in
          ret (s, r) in
        let* trade :=
          if decide (status = Some "accepted") then
            let* sk := skillNames in
            let* _ :=
              sendNotificationToUser senderId NOTIFICATION_EVENTS.TRADE_REQUEST_ACCEPTED
                (tradePayload id "acceptedBy" receiver sk.1 sk.2) in
            ret (TradeRequest.with_status "accepted" trade)
          else ret trade in
        let* trade :=
          if decide (status = Some "rejected") then
            let* sk := skillNames in
            let* _ :=
              sendNotificationToUser senderId NOTIFICATION_EVENTS.TRADE_REQUEST_REJECTED
                (tradePayload id "rejectedBy" receiver sk.1 sk.2) in
            ret (TradeRequest.with_status "rejected" trade)
          else ret trade in
        let* trade :=
          if decide (status = Some "completed") then
            (* includes on a Mongoose array compares ObjectIds by value *)
            let completedBy :=
              if bool_decide (userId ∈ TradeRequest.completedBy trade)
              then TradeRequest.completedBy trade
              else TradeRequest.completedBy trade ++ [userId] in
            let trade := TradeRequest.with_completedBy completedBy trade in
            let* sk := skillNames in
            if bool_decide (length completedBy = 2)
               && existsb (λ i, bool_decide (i = senderId)) completedBy
               && existsb (λ i, bool_decide (i = receiverId)) completedBy
            then
              let* _ :=
                sendNotificationToUser senderId NOTIFICATION_EVENTS.TRADE_REQUEST_COMPLETED
                  (tradePayload id "partner" receiver sk.1 sk.2) in
              let* _ :=
                sendNotificationToUser receiverId NOTIFICATION_EVENTS.TRADE_REQUEST_COMPLETED
                  (tradePayload id "partner" sender sk.1 sk.2) in
              ret (TradeRequest.with_status "completed" trade)
            else
              let* _ :=
                sendNotificationToUser notifyUserId NOTIFICATION_EVENTS.TRADE_MARKED_COMPLETE
                  (tradePayload id "markedBy" currentUser sk.1 sk.2) in
              ret trade
          else ret trade in
        let* saved := TradeRequest_save id now trade in
        ret (mkApiResponse 200 (id, saved) "Trade updated successfully")
  end.

(** ** The review collection *)

(** A value handed to an aggregation pipeline. Mongoose casts the filter of
    [find], [findOne], [countDocuments], [updateMany] and
    [findOneAndUpdate] to the schema, but it does not cast the stages of
    [aggregate]: there a string is never equal to a stored ObjectId, which
    is why the [user:join] handler of [socket.service.js] wraps the user id
    in [new mongoose.Types.ObjectId] before its [$match]. *)
Inductive bson : Type :=
  | BString (s : string)
  | BObjectId (hex : string).

Definition bson_toString (v : bson) : string :=
  match v with BString s => s | BObjectId h => h end.

(** [$match: { field: v }] against a field that stores an ObjectId. *)
Definition matchesObjectId (v : bson) (stored : ObjectId) : bool :=
  match v with
  | BObjectId h => bool_decide (h = stored)
  | BString _ => false
  end.

Definition Qlt_bool (x y : Q) : bool := negb (Qle_bool y x).

(** [!rating] is false exactly for a number other than zero. *)
Definition truthyNumber (v : option Q) : option Q :=
  match v with
  | Some q => if Qeq_bool q 0 then None else Some q
  | None => None
  end.

Definition sameTriple (tradeRequest reviewer reviewee : ObjectId) (r : Review.doc) : bool :=
  bool_decide (Review.tradeRequest r = tradeRequest)
  && bool_decide (Review.reviewer r = reviewer)
  && bool_decide (Review.reviewee r = reviewee).

Definition ReviewModel_findOne (tradeRequest reviewer reviewee : ObjectId)
    : M (option Review.doc) :=
  gets (λ st, List.find (sameTriple tradeRequest reviewer reviewee) (reviews st)).

(** [ReviewModel.create] under [review.model.js]: the setter [trim], the
    validators [required], [min: 1], [max: 5] and [maxlength: 500], and the
    unique index on (tradeRequest, reviewer, reviewee). *)
Definition ReviewModel_create (newId : ObjectId) (now : nat)
    (tradeRequest reviewer reviewee : ObjectId) (rating : Q) (review : string)
    (skillReviewed : ObjectId) : M Review.doc :=
  let review := trim review in
  if Qlt_bool rating 1 || Qlt_bool 5 rating
     || bool_decide (review = "") || (500 <? String.length review)%nat
  then throw (MongoError "ValidationError")
  else
    let* existing := gets reviews in
    if existsb (λ r, bool_decide (Review._id r = newId)
                     || sameTriple tradeRequest reviewer reviewee r) existing
    then throw (MongoError "E11000 duplicate key error")
    else
      let doc := Review.mk newId tradeRequest reviewer reviewee rating review
                   skillReviewed now now in
      let* _ := modify (set_reviews (λ l, l ++ [doc])) in
      let* _ := record (Saved "reviews" newId) in
      ret doc.

Definition Qsum (l : list Q) : Q := foldr Qplus 0%Q l.

(** The pipeline [{ $match: { reviewee: userId } }, { $group: { _id: null,
    averageRating: { $avg: "$rating" }, totalReviews: { $sum: 1 } } }]:
    one group when a review matches, none otherwise. *)
Definition ReviewModel_aggregate_ratingStats (userId : bson) : M (list (Q * nat)) :=
  let* all := gets reviews in
  let matched := List.filter (λ r, matchesObjectId userId (Review.reviewee r)) all in
  match matched with
  | [] => ret []
  | _ :: _ =>
      let ratings := map Review.rating matched in
      ret [((Qsum ratings / inject_Z (Z.of_nat (length ratings)))%Q, length ratings)]
  end.

(** [Math.round]: the nearest integer, a tie going up. *)
Definition Math_round (x : Q) : Z := Qfloor (x + (1 # 2))%Q.

(** [Math.round(x * 10) / 10] *)
Definition roundToTenth (x : Q) : Q := (inject_Z (Math_round (x * 10)) / 10)%Q.

(** Modelled from the spec: [skillProfile.model.js] is not among the
    sources; the profile of a user is keyed by the user id and carries a
    numeric [rating]. With [upsert: false] a missing profile is not
    created. *)
Definition SkillProfileModel_findOneAndUpdate (userId : ObjectId) (rating : Q) : M unit :=
  let* found := gets (λ st, skillProfiles st !! userId) in
  match found with
  | Some _ =>
      let* _ := modify (set_skillProfiles (insert userId (SkillProfile.mk rating))) in
      record (Saved "skillprofiles" userId)
  | None => ret tt
  end.

Section ReviewEngine.

(** The write into the profile collection, which may fail. *)
Variable findOneAndUpdate : ObjectId → Q → M unit.

(** [updateUserRating]: the whole body is inside [try], and [catch] only
    writes to the console. *)
Definition updateUserRating_using (userId : bson) : M unit :=
  try_catch
    (let* ratingStats := ReviewModel_aggregate_ratingStats userId in
     let averageRating :=
       match ratingStats with
       | stats :: _ => if Qeq_bool stats.1 0 then 0%Q else stats.1
       | [] => 0%Q
       end in
     findOneAndUpdate (bson_toString userId) (roundToTenth averageRating))
    (λ _, ret tt).

(** Lines 223 to 234 of [submitReview]: the checks on the request body. *)
Definition submitReview_validate (rating : option Q) (review revieweeId : option string)
    : M (Q * string * string) :=
  match truthyNumber rating, truthy review, truthy revieweeId with
  | Some rating, Some review, Some revieweeId =>
      if Qlt_bool rating 1 || Qlt_bool 5 rating then
        throw (ApiError 400 "Rating must be between 1 and 5")
      else if (String.length (trim review) =? 0)%nat || (500 <? String.length review)%nat then
        throw (ApiError 400 "Review must be between 1 and 500 characters")
      else ret (rating, review, revieweeId)
  | _, _, _ => throw (ApiError 400 "Rating, review text, and reviewee ID are required")
  end.

Definition submitReview_using (reviewerId : ObjectId) (tradeId : string)
    (rating : option Q) (review revieweeId : option string)
    (newId : ObjectId) (now : nat) : M (ApiResponse Review.doc) :=
  let* input := submitReview_validate rating review revieweeId in
  let '(rating, review, revieweeId) := input in
  let* found := TradeRequestModel_findById tradeId in
  match found with
  | None => throw (ApiError 404 "Trade request not found")
  | Some trade =>
      if negb (bool_decide (TradeRequest.status trade = "completed")) then
        throw (ApiError 400 "You can only review completed trades")
      else
        let isSender := bool_decide (TradeRequest.sender trade = reviewerId) in
        let isReceiver := bool_decide (TradeRequest.receiver trade = reviewerId) in
        if negb isSender && negb isReceiver then
          throw (ApiError 403 "You are not authorized to review this trade")
        else
          let isRevieweeValid :=
            (isSender && bool_decide (TradeRequest.receiver trade = revieweeId))
            || (isReceiver && bool_decide (TradeRequest.sender trade = revieweeId)) in
          if negb isRevieweeValid then
            throw (ApiError 400 "You can only review the other party in this trade")
          else
            let skillReviewed :=
              if isSender then TradeRequest.receiverOfferedSkill trade
              else TradeRequest.senderOfferedSkill trade in
            let* existingReview := ReviewModel_findOne tradeId reviewerId revieweeId in
            match existingReview with
            | Some _ => throw (ApiError 400 "You have already reviewed this trade")
            | None =>
                let* newReview :=
                  ReviewModel_create newId now tradeId reviewerId revieweeId rating
                    (trim review) skillReviewed in
                (* revieweeId is the string of the request body *)
                let* _ := updateUserRating_using (BString revieweeId) in
                (* populatedReview.reviewer.name *)
                let* reviewer := deref users reviewerId "populatedReview.reviewer" in
                let* _ :=
                  sendNotificationToUser revieweeId NOTIFICATION_EVENTS.REVIEW_RECEIVED
                    (JObj [("reviewId", JStr newId); ("reviewer", userSummary reviewer);
                           ("rating", JNum rating); ("tradeId", JStr tradeId)]) in
                ret (mkApiResponse 201 newReview "Review submitted successfully")
            end
  end.

End ReviewEngine.

Definition updateUserRating : bson → M unit :=
  updateUserRating_using SkillProfileModel_findOneAndUpdate.

Definition submitReview :=
  submitReview_using SkillProfileModel_findOneAndUpdate.

(** ** The message collection *)

(** [MessageModel.create] under the message schema: the setter [trim] and
    the validator [required] on [message]; [read] defaults to [false]. *)
Definition MessageModel_create (newId : ObjectId) (now : nat)
    (sender receiver tradeId : ObjectId) (message : string) : M Message.doc :=
  let message := trim message in
  if bool_decide (message = "") then throw (MongoError "ValidationError")
  else
    let* existing := gets messages in
    if existsb (λ m, bool_decide (Message._id m = newId)) existing
    then throw (MongoError "E11000 duplicate key error")
    else
      let doc := Message.mk newId sender receiver tradeId message false now now in
      let* _ := modify (set_messages (λ l, l ++ [doc])) in
      let* _ := record (Saved "messages" newId) in
      ret doc.

(** Not newer than: the order of [sort({ createdAt: 1 })]. *)
Definition olderOrEqual (m1 m2 : Message.doc) : Prop :=
  (Message.createdAt m1 ≤ Message.createdAt m2)%nat.

Global Instance olderOrEqual_dec : RelDecision olderOrEqual.
Proof. intros m1 m2. unfold olderOrEqual. apply _. Defined.

(** [MessageModel.find({ tradeId }).sort({ createdAt: 1 })] *)
Definition MessageModel_find_sorted (tradeId : ObjectId) : M (list Message.doc) :=
  let* all := gets messages in
  ret (merge_sort olderOrEqual
         (List.filter (λ m, bool_decide (Message.tradeId m = tradeId)) all)).

(** The filter [{ tradeId, receiver: userId, read: false }]. *)
Definition unreadInTrade (tradeId userId : ObjectId) (m : Message.doc) : bool :=
  bool_decide (Message.tradeId m = tradeId)
  && bool_decide (Message.receiver m = userId)
  && negb (Message.read m).

(** [MessageModel.updateMany(filter, { read: true })]; Mongoose also sets
    [updatedAt] on the documents it updates. *)
Definition MessageModel_updateMany_read (tradeId userId : ObjectId) (now : nat) : M unit :=
  let* all := gets messages in
  let* _ :=
    modify (set_messages
              (map (λ m, if unreadInTrade tradeId userId m
                         then Message.with_read true now m else m))) in
  modify (set_log (λ l, l ++ map (λ m, Saved "messages" (Message._id m))
                                 (List.filter (unreadInTrade tradeId userId) all))).

(** The filter [{ receiver: userId, read: false }]. *)
Definition unreadFor (userId : ObjectId) (m : Message.doc) : bool :=
  bool_decide (Message.receiver m = userId) && negb (Message.read m).

Definition MessageModel_countDocuments_unread (userId : ObjectId) : M nat :=
  let* all := gets messages in
  ret (length (List.filter (unreadFor userId) all)).

(** ** [chat.controller.js] *)

(** [getChatHistory]: the messages are read before they are marked; the two
    [populate] calls only decorate the answer. *)
Definition getChatHistory (userId : ObjectId) (tradeId : string) (now : nat)
    : M (ApiResponse (list Message.doc)) :=
  let* messages := MessageModel_find_sorted tradeId in
  let* _ := MessageModel_updateMany_read tradeId userId now in
  ret (mkApiResponse 200 messages "Chat history retrieved").

Definition getUnreadCount (userId : ObjectId) : M (ApiResponse nat) :=
  let* count := MessageModel_countDocuments_unread userId in
  ret (mkApiResponse 200 count "Unread count retrieved").

(** ** [socket.service.js]: the handlers of one socket *)

(** [socket.emit(event, payload)] and [io.to(socketId).emit(event, payload)] *)
Definition emit (socketId event : string) (payload : json) : M unit :=
  record (Emitted socketId event payload).

(** The pipeline of the [user:join] handler: unread messages of the user,
    grouped by sender in order of first appearance, joined with [users];
    [$unwind] drops a group whose sender has no user document. *)
Definition MessageModel_aggregate_unread (userId : bson) : M (list json) :=
  let* all := gets messages in
  let* users := gets users in
  let unread :=
    List.filter (λ m, matchesObjectId userId (Message.receiver m) && negb (Message.read m)) all in
  ret (omap (λ senderId,
         let group := List.filter (λ m, bool_decide (Message.sender m = senderId)) unread in
         match users !! senderId, last group with
         | Some senderInfo, Some lastOne =>
             Some (JObj [("senderId", JStr senderId);
                         ("senderName", JStr (User.name senderInfo));
                         ("count", JNum (inject_Z (Z.of_nat (length group))));
                         ("lastMessage", JStr (Message.message lastOne));
                         ("tradeId", JStr (Message.tradeId lastOne))])
         | _, _ => None
         end)
       (remove_dups (map Message.sender unread))).

Definition on_user_join (socketId : string) (userId : option string) : M unit :=
  match truthy userId with
  | Some userIdStr =>
      let* _ := modify (set_userSockets (insert userIdStr socketId)) in
      let* _ := modify (set_socketUserId (insert socketId userIdStr)) in
      try_catch
        (let* unreadCount := MessageModel_countDocuments_unread userIdStr in
         if (0 <? unreadCount)%nat then
           let* unreadMessages := MessageModel_aggregate_unread (BObjectId userIdStr) in
           emit socketId "unread:messages"
             (JObj [("totalCount", JNum (inject_Z (Z.of_nat unreadCount)));
                    ("conversations", JArr unreadMessages)])
         else ret tt)
        (λ _, ret tt)
  | None => ret tt
  end.

Definition on_chat_send (socketId : string) (receiverId message tradeId : option string)
    (newId : ObjectId) (now : nat) : M unit :=
  let* senderId := gets (λ st, socketUserId st !! socketId) in
  match truthy senderId, truthy receiverId, truthy message, truthy tradeId with
  | Some senderId, Some receiverId, Some message, Some tradeId =>
      try_catch
        (let* savedMessage :=
           MessageModel_create newId now senderId receiverId tradeId (trim message) in
         let messageData :=
           JObj [("_id", JStr (Message._id savedMessage)); ("senderId", JStr senderId);
                 ("receiverId", JStr receiverId); ("tradeId", JStr tradeId);
                 ("message", JStr (Message.message savedMessage));
                 ("createdAt", JDate (Message.createdAt savedMessage))] in
         let* receiverSocketId := getUserSocketId receiverId in
         let* receiverSocketId :=
           match truthy receiverSocketId with
           | Some _ => ret receiverSocketId
           | None => getUserSocketId receiverId
           end in
         let* _ :=
           match truthy receiverSocketId with
           | Some receiverSocketId => emit receiverSocketId "chat:receive" messageData
           | None => ret tt
           end in
         emit socketId "chat:sent" messageData)
        (λ _, emit socketId "chat:error" (JObj [("message", JStr "Failed to send message")]))
  | _, _, _, _ =>
      emit socketId "chat:error" (JObj [("message", JStr "Missing required fields")])
  end.

Definition on_disconnect (socketId : string) : M unit :=
  let* userId := gets (λ st, socketUserId st !! socketId) in
  match truthy userId with
  | Some userId => modify (set_userSockets (delete userId))
  | None => ret tt
  end.

(** ** Requests and reachable states *)

Inductive request : Type :=
  | CreateTradeRequest (user : ObjectId)
      (receiverId senderOfferedSkillId receiverOfferedSkillId message : option string)
      (newId : ObjectId) (now : nat)
  | UpdateTradeStatus (user : ObjectId) (id : string) (status : option string) (now : nat)
  | SubmitReview (user : ObjectId) (tradeId : string) (rating : option Q)
      (review revieweeId : option string) (newId : ObjectId) (now : nat)
  | GetChatHistory (user : ObjectId) (tradeId : string) (now : nat)
  | UserJoin (socketId : string) (userId : option string)
  | ChatSend (socketId : string) (receiverId message tradeId : option string)
      (newId : ObjectId) (now : nat)
  | Disconnect (socketId : string).

(** The state after a request, whatever it answered. *)
Definition handle (rq : request) (st : State) : State :=
  match rq with
  | CreateTradeRequest u r a b m i n => (createTradeRequest u r a b m i n st).2
  | UpdateTradeStatus u i s n => (updateTradeStatus u i s n st).2
  | SubmitReview u t r x e i n => (submitReview u t r x e i n st).2
  | GetChatHistory u t n => (getChatHistory u t n st).2
  | UserJoin s u => (on_user_join s u st).2
  | ChatSend s r m t i n => (on_chat_send s r m t i n st).2
  | Disconnect s => (on_disconnect s st).2
  end.

Definition run (rqs : list request) (st : State) : State :=
  foldl (λ st rq, handle rq st) st rqs.

(** The process after [initializeSocket], with empty trade, review and
    message collections and nobody connected. *)
Definition initial (users : gmap string User.doc) (skills : gmap string Skill.doc)
    (skillProfiles : gmap string SkillProfile.doc) : State :=
  mkState ∅ [] [] users skills skillProfiles ∅ ∅ true [].

Inductive reachable : State → Prop :=
  | reachable_initial users skills skillProfiles :
      reachable (initial users skills skillProfiles)
  | reachable_handle st rq : reachable st → reachable (handle rq st).

(** ** Notions used in the statements *)

(** What [status === "completed"] does to the document. *)
Definition markComplete (userId : ObjectId) (t : TradeRequest.doc) : TradeRequest.doc :=
  let completedBy :=
    if bool_decide (userId ∈ TradeRequest.completedBy t)
    then TradeRequest.completedBy t else TradeRequest.completedBy t ++ [userId] in
  let t' := TradeRequest.with_completedBy completedBy t in
  if bool_decide (length completedBy = 2)
     && existsb (λ i, bool_decide (i = TradeRequest.sender t)) completedBy
     && existsb (λ i, bool_decide (i = TradeRequest.receiver t)) completedBy
  then TradeRequest.with_status "completed" t' else t'.

(** The document that a successful [updateTradeStatus] saves. *)
Definition nextTrade (userId : ObjectId) (status : option string) (now : nat)
    (t : TradeRequest.doc) : TradeRequest.doc :=
  TradeRequest.with_updatedAt now
    (if decide (status = Some "accepted") then TradeRequest.with_status "accepted" t
     else if decide (status = Some "rejected") then TradeRequest.with_status "rejected" t
     else markComplete userId t).

(** The references of a trade that [populate] resolves. *)
Definition resolves (st : State) (t : TradeRequest.doc) : Prop :=
  is_Some (users st !! TradeRequest.sender t)
  ∧ is_Some (users st !! TradeRequest.receiver t)
  ∧ is_Some (skills st !! TradeRequest.senderOfferedSkill t)
  ∧ is_Some (skills st !! TradeRequest.receiverOfferedSkill t).

Definition validStatus (s : option string) : Prop :=
  s ∈ [Some "accepted"; Some "rejected"; Some "completed"].

(** The document that [TradeRequestModel.create] stores. *)
Definition freshTrade (senderId receiverId senderOfferedSkillId receiverOfferedSkillId : ObjectId)
    (message : option string) (now : nat) : TradeRequest.doc :=
  TradeRequest.mk senderId receiverId senderOfferedSkillId receiverOfferedSkillId
    "pending" [] message now now.

(** No stored trade passes the duplicate filter. *)
Definition noPendingDuplicate (st : State) (s r a b : ObjectId) : Prop :=
  ∀ id t, tradeRequests st !! id = Some t → pendingDuplicate s r a b t = false.

(** The document that [ReviewModel.create] stores. *)
Definition freshReview (newId : ObjectId) (now : nat) (tradeRequest reviewer reviewee : ObjectId)
    (rating : Q) (review : string) (skillReviewed : ObjectId) : Review.doc :=
  Review.mk newId tradeRequest reviewer reviewee rating (trim review) skillReviewed now now.

(** What [updateUserRating] writes when it is handed a string: the
    [$match] selects no review, the average defaults to 0, and the profile
    of the user, when there is one, gets the rating [roundToTenth 0]. *)
Definition zeroRating (userId : ObjectId) (profiles : gmap string SkillProfile.doc)
    : gmap string SkillProfile.doc :=
  match profiles !! userId with
  | Some _ => <[userId := SkillProfile.mk (roundToTenth 0)]> profiles
  | None => profiles
  end.

(** The reviewer and the reviewee of a review are the two participants of
    the trade. *)
Definition paired (t : TradeRequest.doc) (reviewer reviewee : ObjectId) : Prop :=
  (reviewer = TradeRequest.sender t ∧ reviewee = TradeRequest.receiver t)
  ∨ (reviewer = TradeRequest.receiver t ∧ reviewee = TradeRequest.sender t).

(** The skill that [submitReview] records. *)
Definition skillReviewedBy (t : TradeRequest.doc) (reviewer : ObjectId) : ObjectId :=
  if bool_decide (TradeRequest.sender t = reviewer)
  then TradeRequest.receiverOfferedSkill t
  else TradeRequest.senderOfferedSkill t.

(** [submitReview] stored the review [doc] of [u] on trade [tid]. *)
Definition reviewStored (u tid : ObjectId) (rating : option Q) (review revieweeId : option string)
    (i : ObjectId) (n : nat) (st st' : State) (doc : Review.doc) : Prop :=
  ∃ t q txt rid l,
    truthyNumber rating = Some q ∧ truthy review = Some txt ∧ truthy revieweeId = Some rid
    ∧ tradeRequests st !! tid = Some t
    ∧ TradeRequest.status t = "completed"
    ∧ paired t u rid
    ∧ List.find (sameTriple tid u rid) (reviews st) = None
    ∧ doc = freshReview i n tid u rid q (trim txt) (skillReviewedBy t u)
    ∧ st' = set_log (λ l0, l0 ++ l)
              (set_skillProfiles (zeroRating rid) (set_reviews (λ l0, l0 ++ [doc]) st)).

(** The parts of the state that only the trade and review handlers write. *)
Definition sameTradesAndReviews (st st' : State) : Prop :=
  tradeRequests st' = tradeRequests st
  ∧ reviews st' = reviews st
  ∧ users st' = users st
  ∧ skills st' = skills st
  ∧ skillProfiles st' = skillProfiles st.

Inductive requestEffect (st st' : State) : Prop :=
  | effect_none :
      tradeRequests st' = tradeRequests st →
      reviews st' = reviews st →
      requestEffect st st'
  | effect_created i s r a b m n :
      tradeRequests st !! i = None →
      tradeRequests st' = <[i := freshTrade s r a b m n]> (tradeRequests st) →
      reviews st' = reviews st →
      requestEffect st st'
  | effect_updated id t u s n :
      tradeRequests st !! id = Some t →
      u ∈ [TradeRequest.sender t; TradeRequest.receiver t] →
      validStatus s →
      tradeRequests st' = <[id := nextTrade u s n t]> (tradeRequests st) →
      reviews st' = reviews st →
      requestEffect st st'
  | effect_reviewed doc t :
      tradeRequests st' = tradeRequests st →
      reviews st' = reviews st ++ [doc] →
      tradeRequests st !! Review.tradeRequest doc = Some t →
      TradeRequest.status t = "completed" →
      paired t (Review.reviewer doc) (Review.reviewee doc) →
      List.find (sameTriple (Review.tradeRequest doc) (Review.reviewer doc)
                   (Review.reviewee doc)) (reviews st) = None →
      requestEffect st st'.

(** How a stored trade can differ from an earlier version of itself. *)
Definition tradeStep (t t' : TradeRequest.doc) : Prop :=
  TradeRequest.sender t' = TradeRequest.sender t
  ∧ TradeRequest.receiver t' = TradeRequest.receiver t
  ∧ TradeRequest.senderOfferedSkill t' = TradeRequest.senderOfferedSkill t
  ∧ TradeRequest.receiverOfferedSkill t' = TradeRequest.receiverOfferedSkill t
  ∧ TradeRequest.completedBy t `prefix_of` TradeRequest.completedBy t'
  ∧ (TradeRequest.status t' = TradeRequest.status t
     ∨ TradeRequest.status t' = "accepted"
     ∨ TradeRequest.status t' = "rejected"
     ∨ (TradeRequest.status t' = "completed"
        ∧ TradeRequest.sender t ∈ TradeRequest.completedBy t'
        ∧ TradeRequest.receiver t ∈ TradeRequest.completedBy t')).

Definition tripleOf (r : Review.doc) : ObjectId * ObjectId * ObjectId :=
  (Review.tradeRequest r, Review.reviewer r, Review.reviewee r).

Definition tradeInvariant (t : TradeRequest.doc) : Prop :=
  TradeRequest.status t = "completed" →
  TradeRequest.sender t ∈ TradeRequest.completedBy t
  ∧ TradeRequest.receiver t ∈ TradeRequest.completedBy t.

Definition wellFormed (st : State) : Prop :=
  (∀ id t, tradeRequests st !! id = Some t → tradeInvariant t)
  ∧ (∀ r, r ∈ reviews st →
       ∃ t, tradeRequests st !! Review.tradeRequest r = Some t
            ∧ paired t (Review.reviewer r) (Review.reviewee r))
  ∧ NoDup (tripleOf <$> reviews st).

(** An example process: two users, two skills, a profile for each user. *)
Definition demoUsers : gmap string User.doc :=
  <["u1" := User.mk "Ann" "ann.png"]> (<["u2" := User.mk "Bob" "bob.png"]> ∅).

Definition demoSkills : gmap string Skill.doc :=
  <["s1" := Skill.mk "Piano"]> (<["s2" := Skill.mk "Rust"]> (<["s3" := Skill.mk "Chess"]> ∅)).

Definition demoProfiles : gmap string SkillProfile.doc :=
  <["u1" := SkillProfile.mk 0]> (<["u2" := SkillProfile.mk 0]> ∅).

Definition demoInitial : State := initial demoUsers demoSkills demoProfiles.

(** Ann proposes piano for rust to Bob. *)
Definition demoProposed : State :=
  run [CreateTradeRequest "u1" (Some "u2") (Some "s1") (Some "s2") None "t1" 1] demoInitial.

(** Both mark the trade complete. *)
Definition demoCompleted : State :=
  run [UpdateTradeStatus "u1" "t1" (Some "completed") 2;
       UpdateTradeStatus "u2" "t1" (Some "completed") 3] demoProposed.

Definition demoTrade : TradeRequest.doc := freshTrade "u1" "u2" "s1" "s2" None 1.

(** The participant of a trade that is not [u]. *)
Definition otherParty (t : TradeRequest.doc) (u : ObjectId) : ObjectId :=
  if decide (u = TradeRequest.sender t) then TradeRequest.receiver t
  else TradeRequest.sender t.

(** Ann and Bob trade three times and Ann rates Bob 5, 4 and 3. *)
Definition demoThreeReviews : State :=
  run [SubmitReview "u1" "t1" (Some 5%Q) (Some "great") (Some "u2") "r1" 4;
       CreateTradeRequest "u1" (Some "u2") (Some "s1") (Some "s2") None "t2" 5;
       UpdateTradeStatus "u1" "t2" (Some "completed") 6;
       UpdateTradeStatus "u2" "t2" (Some "completed") 7;
       SubmitReview "u1" "t2" (Some 4%Q) (Some "good") (Some "u2") "r2" 8;
       CreateTradeRequest "u1" (Some "u2") (Some "s1") (Some "s2") None "t3" 9;
       UpdateTradeStatus "u2" "t3" (Some "completed") 10;
       UpdateTradeStatus "u1" "t3" (Some "completed") 11;
       SubmitReview "u1" "t3" (Some 3%Q) (Some "fine") (Some "u2") "r3" 12]
      demoCompleted.

(** A write into the profile collection that always fails. *)
Definition failingWrite (userId : ObjectId) (rating : Q) : M unit :=
  throw (MongoError "connection lost").

(** A string of [n] copies of one character. *)
Fixpoint replicateChar (n : nat) (c : Ascii.ascii) : string :=
  match n with
  | O => EmptyString
  | S n' => String c (replicateChar n' c)
  end.

(** A space followed by 500 letters. *)
Definition longReview : string :=
  String (Ascii.ascii_of_nat 32) (replicateChar 500 (Ascii.ascii_of_nat 97)).

(** What [getChatHistory] does to one stored message. *)
Definition markRead (tradeId userId : ObjectId) (now : nat) (m : Message.doc) : Message.doc :=
  if unreadInTrade tradeId userId m then Message.with_read true now m else m.

(** Empty, or starting with a character that [trim] keeps. *)
Definition noLeadingSpace (s : string) : Prop :=
  match s with
  | EmptyString => True
  | String c _ => is_js_whitespace c = false
  end.

(** The payload of [chat:receive] and [chat:sent]. *)
Definition messageData (m : Message.doc) : json :=
  JObj [("_id", JStr (Message._id m)); ("senderId", JStr (Message.sender m));
        ("receiverId", JStr (Message.receiver m)); ("tradeId", JStr (Message.tradeId m));
        ("message", JStr (Message.message m));
        ("createdAt", JDate (Message.createdAt m))].

(** Ann has reviewed Bob on the first trade. *)
Definition demoReviewed : State :=
  run [SubmitReview "u1" "t1" (Some 5%Q) (Some "great") (Some "u2") "r1" 4] demoCompleted.

Definition demoReview : Review.doc :=
  Review.mk "r1" "t1" "u1" "u2" 5%Q "great" "s2" 4 4.

(** Ann has joined on socket [c1]; Bob is not connected. *)
Definition demoJoined : State :=
  run [UserJoin "c1" (Some "u1")] demoCompleted.

(** * More of the code *)

(** ** [controller.js]: the lists of trades and of reviews *)

(** Not older than: the order of [sort({ createdAt: -1 })]. *)
Definition newerFirst (a b : ObjectId * TradeRequest.doc) : Prop :=
  (TradeRequest.createdAt b.2 ≤ TradeRequest.createdAt a.2)%nat.

Global Instance newerFirst_dec : RelDecision newerFirst.
Proof. intros a b. unfold newerFirst. apply _. Defined.

(** [TradeRequestModel.find(filter).sort({ createdAt: -1 })]; the
    [populate] calls of the two handlers only decorate the answer. *)
Definition TradeRequestModel_find_sorted (filter : TradeRequest.doc → bool)
    : M (list (ObjectId * TradeRequest.doc)) :=
  let* all := gets (λ st, map_to_list (tradeRequests st)) in
  ret (merge_sort newerFirst (List.filter (λ kv, filter kv.2) all)).

Definition getSentTradeRequests (userId : ObjectId)
    : M (ApiResponse (list (ObjectId * TradeRequest.doc))) :=
  let* trades :=
    TradeRequestModel_find_sorted (λ t, bool_decide (TradeRequest.sender t = userId)) in
  ret (mkApiResponse 200 trades "Sent trades retrieved").

Definition getReceivedTradeRequests (userId : ObjectId)
    : M (ApiResponse (list (ObjectId * TradeRequest.doc))) :=
  let* trades :=
    TradeRequestModel_find_sorted (λ t, bool_decide (TradeRequest.receiver t = userId)) in
  ret (mkApiResponse 200 trades "Received trades retrieved").

(** [ReviewModel.find(filter)], in the order of insertion. *)
Definition ReviewModel_find (filter : Review.doc → bool) : M (list Review.doc) :=
  gets (λ st, List.filter filter (reviews st)).

(** [getTradeReviews]; the [populate] calls only decorate the answer. *)
Definition getTradeReviews (userId : ObjectId) (tradeId : string)
    : M (ApiResponse (list Review.doc)) :=
  let* found := TradeRequestModel_findById tradeId in
  match found with
  | None => throw (ApiError 404 "Trade request not found")
  | Some trade =>
      let isParticipant :=
        bool_decide (TradeRequest.sender trade = userId)
        || bool_decide (TradeRequest.receiver trade = userId) in
      if negb isParticipant then
        throw (ApiError 403 "You are not authorized to view reviews for this trade")
      else
        let* reviews :=
          ReviewModel_find (λ r, bool_decide (Review.tradeRequest r = tradeId)) in
        ret (mkApiResponse 200 reviews "Trade reviews retrieved successfully")
  end.

(** The order of [sort({ createdAt: -1 })] on reviews. *)
Definition newerReviewFirst (a b : Review.doc) : Prop :=
  (Review.createdAt b ≤ Review.createdAt a)%nat.

Global Instance newerReviewFirst_dec : RelDecision newerReviewFirst.
Proof. intros a b. unfold newerReviewFirst. apply _. Defined.

(** The group of the pipeline of [getUserReviews]. *)
Module RatingStats.
Record doc : Type := mk {
  averageRating : Q;
  totalReviews : nat;
  ratingDistribution : list Q;
}.
End RatingStats.

(** The pipeline [{ $match: { reviewee: userId } }, { $group: { _id: null,
    averageRating: { $avg: "$rating" }, totalReviews: { $sum: 1 },
    ratingDistribution: { $push: "$rating" } } }]; like every pipeline its
    [$match] is not cast. *)
Definition ReviewModel_aggregate_ratingStats_pushed (userId : bson) : M (list RatingStats.doc) :=
  let* all := gets reviews in
  let matched := List.filter (λ r, matchesObjectId userId (Review.reviewee r)) all in
  match matched with
  | [] => ret []
  | _ :: _ =>
      let ratings := map Review.rating matched in
      ret [RatingStats.mk (Qsum ratings / inject_Z (Z.of_nat (length ratings)))%Q
             (length ratings) ratings]
  end.

(** [[1, 2, 3, 4, 5].map(rating => ({ rating, count:
    ratings.filter(r => r === rating).length }))] *)
Definition distributionOf (ratings : list Q) : list (Q * nat) :=
  map (λ rating, (rating, length (List.filter (λ r, Qeq_bool r rating) ratings)))
    [1%Q; 2%Q; 3%Q; 4%Q; 5%Q].

Record Pagination : Type := mkPagination {
  pg_page : positive;
  pg_limit : positive;
  pg_totalPages : Z;
  pg_totalReviews : nat;
}.

Record UserReviews : Type := mkUserReviews {
  ur_reviews : list Review.doc;
  ur_averageRating : Q;
  ur_totalReviews : nat;
  ur_ratingDistribution : list (Q * nat);
  ur_pagination : Pagination;
}.

(** [getUserReviews]. [userId] is the string of the route; [page] and
    [limit] are what [parseInt] reads from the query, taken to be positive
    whole numbers, and default to 1 and 10 when absent. *)
Definition getUserReviews (userId : string) (page limit : option positive)
    : M (ApiResponse UserReviews) :=
  let page := default 1%positive page in
  let limit := default 10%positive limit in
  let* all := gets reviews in
  let ofUser := List.filter (λ r, bool_decide (Review.reviewee r = userId)) all in
  let reviews :=
    take (Pos.to_nat limit)
      (drop ((Pos.to_nat page - 1) * Pos.to_nat limit)
         (merge_sort newerReviewFirst ofUser)) in
  let totalReviews := length ofUser in
  let* ratingStats := ReviewModel_aggregate_ratingStats_pushed (BString userId) in
  let stats :=
    match ratingStats with
    | stats :: _ => stats
    | [] => RatingStats.mk 0 0 []
    end in
  let distribution := distributionOf (RatingStats.ratingDistribution stats) in
  ret (mkApiResponse 200
         (mkUserReviews reviews (roundToTenth (RatingStats.averageRating stats))
            (RatingStats.totalReviews stats) distribution
            (mkPagination page limit
               (Qceiling (inject_Z (Z.of_nat totalReviews) / inject_Z (Z.pos limit)))
               totalReviews))
         "User reviews retrieved successfully").

(** ** [socket.service.js]: the typing indicators *)

(** [getUserSocketId(receiverId)] reads [receiverId.toString()], a
    [TypeError] when the payload has no [receiverId]. *)
Definition on_chat_typing (socketId : string) (receiverId tradeId : option string) : M unit :=
  match receiverId with
  | None => throw (TypeError "userId.toString")
  | Some receiverId =>
      let* receiverSocketId := getUserSocketId receiverId in
      match truthy receiverSocketId with
      | Some receiverSocketId =>
          let* senderId := gets (λ st, socketUserId st !! socketId) in
          emit receiverSocketId "chat:typing"
            (JObj [("senderId", JOpt senderId); ("tradeId", JOpt tradeId)])
      | None => ret tt
      end
  end.

Definition on_chat_stop_typing (socketId : string) (receiverId tradeId : option string)
    : M unit :=
  match receiverId with
  | None => throw (TypeError "userId.toString")
  | Some receiverId =>
      let* receiverSocketId := getUserSocketId receiverId in
      match truthy receiverSocketId with
      | Some receiverSocketId =>
          let* senderId := gets (λ st, socketUserId st !! socketId) in
          emit receiverSocketId "chat:stop-typing"
            (JObj [("senderId", JOpt senderId); ("tradeId", JOpt tradeId)])
      | None => ret tt
      end
  end.

(** ** Further notions used in the statements *)

(** What [sendNotificationToUser] adds to the log. *)
Definition dispatched (st : State) (userId event : string) (payload : json) : list effect :=
  match truthy (userSockets st !! userId) with
  | Some socketId => if io st then [Emitted socketId event payload] else []
  | None => []
  end.

(** What [sendNotificationToUser] answers. *)
Definition delivered (st : State) (userId : string) : bool :=
  match truthy (userSockets st !! userId) with
  | Some _ => io st
  | None => false
  end.

(** ** Further notions used in the statements, continued *)

(** The shape of [completedBy] and of the status. *)
Definition completionInvariant (t : TradeRequest.doc) : Prop :=
  NoDup (TradeRequest.completedBy t)
  ∧ (∀ x, x ∈ TradeRequest.completedBy t →
       x = TradeRequest.sender t ∨ x = TradeRequest.receiver t)
  ∧ TradeRequest.status t ∈ ["pending"; "accepted"; "rejected"; "completed"]
  ∧ (TradeRequest.status t = "completed" → length (TradeRequest.completedBy t) = 2).

(** What holds of a stored review and the stored trade it refers to. *)
Definition reviewInvariant (st : State) (r : Review.doc) : Prop :=
  ∃ t, tradeRequests st !! Review.tradeRequest r = Some t
       ∧ paired t (Review.reviewer r) (Review.reviewee r)
       ∧ TradeRequest.sender t ≠ TradeRequest.receiver t
       ∧ Review.skillReviewed r = skillReviewedBy t (Review.reviewer r)
       ∧ (1 <= Review.rating r)%Q ∧ (Review.rating r <= 5)%Q
       ∧ (1 ≤ String.length (Review.review r))%nat
       ∧ (String.length (Review.review r) ≤ 500)%nat
       ∧ trim (Review.review r) = Review.review r.

(** The trade and review handlers touch neither the messages nor the
    presence maps. *)
Definition sameChat (st st' : State) : Prop :=
  messages st' = messages st
  ∧ userSockets st' = userSockets st
  ∧ socketUserId st' = socketUserId st
  ∧ io st' = io st.

(** What a request may do to a stored message: at most mark it read. *)
Definition messageStep (m m' : Message.doc) : Prop :=
  Message._id m' = Message._id m
  ∧ Message.sender m' = Message.sender m
  ∧ Message.receiver m' = Message.receiver m
  ∧ Message.tradeId m' = Message.tradeId m
  ∧ Message.message m' = Message.message m
  ∧ Message.createdAt m' = Message.createdAt m
  ∧ (Message.read m = true → Message.read m' = true).

(** What every stored message satisfies. *)
Definition messageInvariant (m : Message.doc) : Prop :=
  Message.sender m ≠ "" ∧ Message.receiver m ≠ "" ∧ Message.tradeId m ≠ ""
  ∧ Message.message m ≠ "" ∧ trim (Message.message m) = Message.message m.

(** Ann has joined on socket [c1] and written to Bob about the first trade. *)
Definition demoChat : State :=
  run [UserJoin "c1" (Some "u1");
       ChatSend "c1" (Some "u2") (Some " hi ") (Some "t1") "m1" 5] demoCompleted.

Definition demoMessage : Message.doc := Message.mk "m1" "u1" "u2" "t1" "hi" false 5 5.

(** The condition under which [updateTradeStatus] sets [completed]. *)
Definition bothMarked (t : TradeRequest.doc) : bool :=
  bool_decide (length (TradeRequest.completedBy t) = 2)
  && existsb (λ i, bool_decide (i = TradeRequest.sender t)) (TradeRequest.completedBy t)
  && existsb (λ i, bool_decide (i = TradeRequest.receiver t)) (TradeRequest.completedBy t).

(** What a successful [updateTradeStatus] emits before it saves. *)
Definition tradeNotifications (st : State) (u id : ObjectId) (s : option string)
    (t : TradeRequest.doc) (us ur : User.doc) (s1 s2 : Skill.doc) : list effect :=
  if decide (s = Some "accepted") then
    dispatched st (TradeRequest.sender t) NOTIFICATION_EVENTS.TRADE_REQUEST_ACCEPTED
      (tradePayload id "acceptedBy" ur s1 s2)
  else if decide (s = Some "rejected") then
    dispatched st (TradeRequest.sender t) NOTIFICATION_EVENTS.TRADE_REQUEST_REJECTED
      (tradePayload id "rejectedBy" ur s1 s2)
  else if bothMarked (markComplete u t) then
    dispatched st (TradeRequest.sender t) NOTIFICATION_EVENTS.TRADE_REQUEST_COMPLETED
      (tradePayload id "partner" ur s1 s2)
    ++ dispatched st (TradeRequest.receiver t) NOTIFICATION_EVENTS.TRADE_REQUEST_COMPLETED
         (tradePayload id "partner" us s1 s2)
  else
    dispatched st (otherParty t u) NOTIFICATION_EVENTS.TRADE_MARKED_COMPLETE
      (tradePayload id "markedBy" (if decide (u = TradeRequest.sender t) then us else ur)
         s1 s2).

(** The six collections, without the presence maps and the log. *)
Definition sameCollections (st st' : State) : Prop :=
  tradeRequests st' = tradeRequests st
  ∧ reviews st' = reviews st
  ∧ messages st' = messages st
  ∧ users st' = users st
  ∧ skills st' = skills st
  ∧ skillProfiles st' = skillProfiles st.

(** A user whose id has hex letters, and that id as a client may write it. *)
Definition demoHexId : ObjectId := "64b7f0c2a1d3e4f5a6b7c8d9".

Definition demoHexIdUpper : string := "64B7F0C2A1D3E4F5A6B7C8D9".

Definition demoHex : State :=
  initial (<[demoHexId := User.mk "Cy" "cy.png"]> ∅) demoSkills ∅.

(** * Properties *)

(** ** Running handlers *)

Ltac unfold_m :=
  cbv [bind ret throw gets modify record deref try_catch emit getUserSocketId
       TradeRequestModel_findById TradeRequest_save] in *.

Ltac proj_state :=
  cbn [set_log set_tradeRequests set_reviews set_messages set_skillProfiles
       set_userSockets set_socketUserId
       log tradeRequests reviews messages users skills skillProfiles
       userSockets socketUserId io] in *.

Lemma set_log_nil st : set_log (λ l, l ++ []) st = st.
Proof. destruct st; unfold set_log; simpl. by rewrite app_nil_r. Qed.

(** A notification never throws and touches nothing but the log. *)
Lemma sendNotificationToUser_run u e p st :
  ∃ b l, sendNotificationToUser u e p st = (Return b, set_log (λ l0, l0 ++ l) st).
Proof.
  unfold sendNotificationToUser. unfold_m.
  destruct (truthy (userSockets st !! u)) as [sid|]; [destruct (io st)|].
  - by exists true, [Emitted sid e p].
  - exists false, []. by rewrite set_log_nil.
  - exists false, []. by rewrite set_log_nil.
Qed.

Ltac send_step :=
  match goal with
  | |- context [sendNotificationToUser ?u ?e ?p ?st] =>
      let b := fresh "b" in
      let l := fresh "l" in
      let H := fresh "H" in
      destruct (sendNotificationToUser_run u e p st) as (b & l & H);
      rewrite H; clear H; proj_state
  end.

Ltac status_cases :=
  repeat match goal with
         | |- context [decide (Some ?a = Some ?b)] =>
             destruct (decide (Some a = Some b)); try done
         end.

(** ** The transition of one trade *)

(** Every answer of [updateTradeStatus]: a success saved [nextTrade] of
    the stored trade and added to the log; a failure changed nothing. *)
Lemma updateTradeStatus_inv u id s now st :
  match updateTradeStatus u id s now st with
  | (Return resp, st') =>
      ∃ t l, tradeRequests st !! id = Some t
        ∧ u ∈ [TradeRequest.sender t; TradeRequest.receiver t]
        ∧ validStatus s
        ∧ resp = mkApiResponse 200 (id, nextTrade u s now t) "Trade updated successfully"
        ∧ st' = set_log (λ l0, l0 ++ l)
                  (set_tradeRequests (insert id (nextTrade u s now t)) st)
  | (Throw e, st') => st' = st
  end.
Proof.
  unfold updateTradeStatus, validStatus. unfold_m.
  destruct (tradeRequests st !! id) as [t|] eqn:Ht; [|done].
  destruct (users st !! TradeRequest.sender t) as [us|] eqn:Hs; [|done].
  destruct (users st !! TradeRequest.receiver t) as [ur|] eqn:Hr; [|done].
  case_bool_decide as Hu; simpl; [|done].
  case_bool_decide as Hst; simpl; [|done].
  unfold nextTrade, markComplete.
  assert (Hcases := Hst). rewrite !elem_of_cons in Hcases.
  destruct Hcases as [->|[->|[->|Hnil]]]; [| | |by apply elem_of_nil in Hnil].
  - repeat (case_decide; [|done]). repeat (case_decide; [done|]).
    destruct (skills st !! TradeRequest.senderOfferedSkill t) as [s1|]; [|done].
    destruct (skills st !! TradeRequest.receiverOfferedSkill t) as [s2|]; [|done].
    send_step. exists t, (l ++ [Saved "traderequests" id]).
    repeat split; try done. unfold set_log, set_tradeRequests; simpl.
    by rewrite app_assoc.
  - case_decide; [done|]. repeat (case_decide; [|done]). repeat (case_decide; [done|]).
    destruct (skills st !! TradeRequest.senderOfferedSkill t) as [s1|]; [|done].
    destruct (skills st !! TradeRequest.receiverOfferedSkill t) as [s2|]; [|done].
    send_step. exists t, (l ++ [Saved "traderequests" id]).
    repeat split; try done. unfold set_log, set_tradeRequests; simpl.
    by rewrite app_assoc.
  - repeat (case_decide; [done|]). repeat (case_decide; [|done]).
    destruct (skills st !! TradeRequest.senderOfferedSkill t) as [s1|]; [|done].
    destruct (skills st !! TradeRequest.receiverOfferedSkill t) as [s2|]; [|done].
    simpl. destruct (bool_decide (length _ = 2) && _ && _) eqn:Hboth.
    + send_step. send_step. exists t, (l ++ l0 ++ [Saved "traderequests" id]).
      rewrite Hboth. repeat split; try done. unfold set_log, set_tradeRequests; simpl.
      by rewrite !app_assoc.
    + send_step. exists t, (l ++ [Saved "traderequests" id]).
      rewrite Hboth. repeat split; try done. unfold set_log, set_tradeRequests; simpl.
      by rewrite app_assoc.
Qed.

(** A participant asking for a valid status on a trade whose references
    resolve is answered. *)
Lemma updateTradeStatus_ok u id s now st t :
  tradeRequests st !! id = Some t →
  resolves st t →
  u ∈ [TradeRequest.sender t; TradeRequest.receiver t] →
  validStatus s →
  ∃ l, updateTradeStatus u id s now st =
         (Return (mkApiResponse 200 (id, nextTrade u s now t) "Trade updated successfully"),
          set_log (λ l0, l0 ++ l)
            (set_tradeRequests (insert id (nextTrade u s now t)) st)).
Proof.
  intros Ht (Hs & Hr & Hs1 & Hs2) Hu Hst.
  pose proof (updateTradeStatus_inv u id s now st) as Hinv.
  destruct (updateTradeStatus u id s now st) as [[resp|e] st'] eqn:Heq.
  - destruct Hinv as (t' & l & Ht' & _ & _ & -> & ->).
    rewrite Ht in Ht'. injection Ht' as <-. by exists l.
  - exfalso. clear Hinv. revert Heq.
    unfold updateTradeStatus, validStatus in *. unfold_m. rewrite Ht.
    destruct Hs as [us ->], Hr as [ur ->], Hs1 as [s1 Hs1], Hs2 as [s2 Hs2].
    rewrite bool_decide_eq_true_2 by done. rewrite bool_decide_eq_true_2 by done.
    simpl. rewrite !elem_of_cons in Hst.
    destruct Hst as [->|[->|[->|Hnil]]]; [| | |by apply elem_of_nil in Hnil];
      status_cases; rewrite ?Hs1, ?Hs2; simpl;
      try destruct (bool_decide (length _ = 2) && _ && _); repeat send_step; done.
Qed.

(** ** Dual confirmation *)

Lemma nextTrade_completed u now t :
  nextTrade u (Some "completed") now t = TradeRequest.with_updatedAt now (markComplete u t).
Proof. unfold nextTrade. by status_cases. Qed.

Lemma markComplete_participants u t :
  TradeRequest.sender (markComplete u t) = TradeRequest.sender t
  ∧ TradeRequest.receiver (markComplete u t) = TradeRequest.receiver t
  ∧ TradeRequest.senderOfferedSkill (markComplete u t) = TradeRequest.senderOfferedSkill t
  ∧ TradeRequest.receiverOfferedSkill (markComplete u t) = TradeRequest.receiverOfferedSkill t.
Proof. unfold markComplete. simpl. by case_match. Qed.

(** The first mark: the list holds the caller alone and the status stays. *)
Lemma markComplete_first u t :
  TradeRequest.completedBy t = [] →
  markComplete u t = TradeRequest.with_completedBy [u] t.
Proof. intros Hnil. unfold markComplete. rewrite Hnil. simpl. done. Qed.

(** The same caller again: nothing is appended. *)
Lemma markComplete_again u t :
  TradeRequest.completedBy t = [u] →
  markComplete u t = TradeRequest.with_completedBy [u] t.
Proof.
  intros Hu. unfold markComplete. rewrite Hu.
  rewrite (bool_decide_eq_true_2 (u ∈ [u])) by (by apply list_elem_of_singleton). done.
Qed.

(** The other participant: both are in the list and the status becomes
    [completed]. *)
Lemma markComplete_second u v t :
  TradeRequest.completedBy t = [u] →
  (u = TradeRequest.sender t ∧ v = TradeRequest.receiver t)
  ∨ (u = TradeRequest.receiver t ∧ v = TradeRequest.sender t) →
  TradeRequest.sender t ≠ TradeRequest.receiver t →
  markComplete v t =
    TradeRequest.with_status "completed" (TradeRequest.with_completedBy [u; v] t).
Proof.
  intros Hu Huv Hne. unfold markComplete. rewrite Hu.
  assert (v ≠ u) as Hvu by (destruct Huv as [[-> ->]|[-> ->]]; congruence).
  rewrite (bool_decide_eq_false_2 (v ∈ [u])) by (by rewrite list_elem_of_singleton).
  simpl.
  destruct Huv as [[-> ->]|[-> ->]];
    repeat (case_bool_decide; try done); simpl; try congruence.
Qed.

(** Once both are in the list, a further mark of either changes nothing
    and the status is [completed]. *)
Lemma markComplete_done u v w t :
  TradeRequest.completedBy t = [u; v] →
  (u = TradeRequest.sender t ∧ v = TradeRequest.receiver t)
  ∨ (u = TradeRequest.receiver t ∧ v = TradeRequest.sender t) →
  w ∈ [u; v] →
  markComplete w t =
    TradeRequest.with_status "completed" (TradeRequest.with_completedBy [u; v] t).
Proof.
  intros Hcb Huv Hw. unfold markComplete. rewrite Hcb.
  rewrite (bool_decide_eq_true_2 (w ∈ [u; v])) by done. simpl.
  destruct Huv as [[-> ->]|[-> ->]];
    repeat (case_bool_decide; try done); simpl; try congruence.
Qed.

(** One [completed] call of a participant on a stored trade. *)
Lemma updateTradeStatus_completed_step u id n st t :
  tradeRequests st !! id = Some t →
  resolves st t →
  u ∈ [TradeRequest.sender t; TradeRequest.receiver t] →
  ∃ r st',
    updateTradeStatus u id (Some "completed") n st = (Return r, st')
    ∧ (data r).2 = TradeRequest.with_updatedAt n (markComplete u t)
    ∧ tradeRequests st' !! id = Some (data r).2
    ∧ resolves st' (data r).2.
Proof.
  intros Ht Hres Hu.
  destruct (updateTradeStatus_ok u id (Some "completed") n st t) as [l Hcall]; try done.
  { unfold validStatus. rewrite !elem_of_cons. auto. }
  rewrite nextTrade_completed in Hcall.
  eexists _, _. split; [exact Hcall|]. simpl. split; [done|].
  split; [apply lookup_insert_eq|].
  destruct (markComplete_participants u t) as (Hs & Hr & Hs1 & Hs2).
  unfold resolves in *. simpl. by rewrite Hs, Hr, Hs1, Hs2.
Qed.

(** C1. On a stored trade that nobody has marked yet, whose two participants
    differ and whose references resolve: a [completed] call of one
    participant [u] answers with the status as it was and [completedBy]
    equal to [[u]]; a second [completed] call of [u] leaves [completedBy]
    at [[u]] and the status as it was; the [completed] call of the other
    participant [v], whether or not [u] repeated the call, sets the status
    to [completed] with [completedBy] equal to [[u; v]]; and a further
    [completed] call of either leaves both as they are. *)
Theorem dual_confirmation st id t u v n1 n2 n3 :
  tradeRequests st !! id = Some t →
  resolves st t →
  TradeRequest.completedBy t = [] →
  TradeRequest.sender t ≠ TradeRequest.receiver t →
  (u = TradeRequest.sender t ∧ v = TradeRequest.receiver t)
  ∨ (u = TradeRequest.receiver t ∧ v = TradeRequest.sender t) →
  ∃ r1 st1 r2 st2 r3 st3 r3' st3',
    updateTradeStatus u id (Some "completed") n1 st = (Return r1, st1)
    ∧ tradeRequests st1 !! id = Some (data r1).2
    ∧ TradeRequest.status (data r1).2 = TradeRequest.status t
    ∧ TradeRequest.completedBy (data r1).2 = [u]
    ∧ updateTradeStatus u id (Some "completed") n2 st1 = (Return r2, st2)
    ∧ tradeRequests st2 !! id = Some (data r2).2
    ∧ TradeRequest.status (data r2).2 = TradeRequest.status t
    ∧ TradeRequest.completedBy (data r2).2 = [u]
    ∧ updateTradeStatus v id (Some "completed") n3 st2 = (Return r3, st3)
    ∧ tradeRequests st3 !! id = Some (data r3).2
    ∧ TradeRequest.status (data r3).2 = "completed"
    ∧ TradeRequest.completedBy (data r3).2 = [u; v]
    ∧ updateTradeStatus v id (Some "completed") n3 st1 = (Return r3', st3')
    ∧ tradeRequests st3' !! id = Some (data r3').2
    ∧ TradeRequest.status (data r3').2 = "completed"
    ∧ TradeRequest.completedBy (data r3').2 = [u; v]
    ∧ (∀ w n4, w ∈ [u; v] →
         ∃ r4 st4,
           updateTradeStatus w id (Some "completed") n4 st3 = (Return r4, st4)
           ∧ TradeRequest.status (data r4).2 = "completed"
           ∧ TradeRequest.completedBy (data r4).2 = [u; v]).
Proof.
  intros Ht Hres Hnil Hne Huv.
  assert (u ∈ [TradeRequest.sender t; TradeRequest.receiver t]
          ∧ v ∈ [TradeRequest.sender t; TradeRequest.receiver t]) as [Hu Hv].
  { rewrite !elem_of_cons. destruct Huv as [[-> ->]|[-> ->]]; auto. }
  destruct (updateTradeStatus_completed_step u id n1 st t Ht Hres Hu)
    as (r1 & st1 & Hc1 & Hd1 & Ht1 & Hres1).
  rewrite (markComplete_first u t Hnil) in Hd1.
  set (t1 := (data r1).2) in *.
  assert (TradeRequest.sender t1 = TradeRequest.sender t
          ∧ TradeRequest.receiver t1 = TradeRequest.receiver t
          ∧ TradeRequest.completedBy t1 = [u]
          ∧ TradeRequest.status t1 = TradeRequest.status t) as (Hs1 & Hr1 & Hcb1 & Hst1).
  { by rewrite Hd1. }
  assert (u ∈ [TradeRequest.sender t1; TradeRequest.receiver t1]
          ∧ v ∈ [TradeRequest.sender t1; TradeRequest.receiver t1]) as [Hu1 Hv1].
  { by rewrite Hs1, Hr1. }
  destruct (updateTradeStatus_completed_step u id n2 st1 t1 Ht1 Hres1 Hu1)
    as (r2 & st2 & Hc2 & Hd2 & Ht2 & Hres2).
  rewrite (markComplete_again u t1 Hcb1) in Hd2.
  set (t2 := (data r2).2) in *.
  assert (TradeRequest.sender t2 = TradeRequest.sender t
          ∧ TradeRequest.receiver t2 = TradeRequest.receiver t
          ∧ TradeRequest.completedBy t2 = [u]
          ∧ TradeRequest.status t2 = TradeRequest.status t) as (Hs2 & Hr2 & Hcb2 & Hst2).
  { rewrite Hd2. simpl. by rewrite Hs1, Hr1, Hst1. }
  assert (v ∈ [TradeRequest.sender t2; TradeRequest.receiver t2]) as Hv2.
  { by rewrite Hs2, Hr2. }
  destruct (updateTradeStatus_completed_step v id n3 st2 t2 Ht2 Hres2 Hv2)
    as (r3 & st3 & Hc3 & Hd3 & Ht3 & Hres3).
  rewrite (markComplete_second u v t2 Hcb2) in Hd3 by (rewrite ?Hs2, ?Hr2; done).
  destruct (updateTradeStatus_completed_step v id n3 st1 t1 Ht1 Hres1 Hv1)
    as (r3' & st3' & Hc3' & Hd3' & Ht3' & _).
  rewrite (markComplete_second u v t1 Hcb1) in Hd3' by (rewrite ?Hs1, ?Hr1; done).
  exists r1, st1, r2, st2, r3, st3, r3', st3'.
  split; [done|]. split; [done|]. split; [done|]. split; [done|].
  split; [done|]. split; [done|]. split; [done|]. split; [done|].
  split; [done|]. split; [done|]. split; [by rewrite Hd3|]. split; [by rewrite Hd3|].
  split; [done|]. split; [done|]. split; [by rewrite Hd3'|]. split; [by rewrite Hd3'|].
  intros w n4 Hw.
  set (t3 := (data r3).2) in *.
  assert (TradeRequest.sender t3 = TradeRequest.sender t
          ∧ TradeRequest.receiver t3 = TradeRequest.receiver t
          ∧ TradeRequest.completedBy t3 = [u; v]) as (Hs3 & Hr3 & Hcb3).
  { rewrite Hd3. simpl. by rewrite Hs2, Hr2. }
  assert (w ∈ [TradeRequest.sender t3; TradeRequest.receiver t3]) as Hw3.
  { rewrite Hs3, Hr3. rewrite !elem_of_cons in Hw. rewrite !elem_of_cons.
    destruct Huv as [[<- <-]|[<- <-]]; destruct Hw as [->|[->|Hw]]; auto;
      by apply elem_of_nil in Hw. }
  destruct (updateTradeStatus_completed_step w id n4 st3 t3 Ht3 Hres3 Hw3)
    as (r4 & st4 & Hc4 & Hd4 & _ & _).
  rewrite (markComplete_done u v w t3 Hcb3) in Hd4 by (rewrite ?Hs3, ?Hr3; done).
  exists r4, st4. split; [done|]. by rewrite Hd4.
Qed.

(** ** Creation *)

Lemma findOne_None_iff st s r a b :
  List.find (λ kv : string * TradeRequest.doc, pendingDuplicate s r a b kv.2)
    (map_to_list (tradeRequests st)) = None
  ↔ noPendingDuplicate st s r a b.
Proof.
  unfold noPendingDuplicate. split.
  - intros Hnone id t Ht.
    apply (find_none _ _ Hnone (id, t)).
    apply list_elem_of_In, elem_of_map_to_list, Ht.
  - intros Hno. destruct (List.find _ _) as [[id t]|] eqn:Hfind; [|done].
    apply find_some in Hfind as [Hin Hdup].
    apply list_elem_of_In, elem_of_map_to_list in Hin.
    specialize (Hno id t Hin). simpl in Hdup. congruence.
Qed.

(** Every answer of [createTradeRequest]. A success stored a fresh pending
    trade; an [ApiError] has class 400 and changed nothing; a [TypeError]
    comes after the trade has been stored. *)
Lemma createTradeRequest_inv s r a b m i n st :
  match createTradeRequest s r a b m i n st with
  | (Return resp, st') =>
      ∃ r' a' b' l,
        truthy r = Some r' ∧ truthy a = Some a' ∧ truthy b = Some b'
        ∧ r' ≠ s
        ∧ noPendingDuplicate st s (castObjectId r') (castObjectId a') (castObjectId b')
        ∧ tradeRequests st !! i = None
        ∧ resp = mkApiResponse 201
                   (i, freshTrade s (castObjectId r') (castObjectId a') (castObjectId b') m n)
                   "Trade request created successfully"
        ∧ st' = set_log (λ l0, l0 ++ l)
                  (set_tradeRequests
                     (insert i (freshTrade s (castObjectId r') (castObjectId a')
                                  (castObjectId b') m n)) st)
  | (Throw (ApiError c _), st') => c = 400 ∧ st' = st
  | (Throw (MongoError _), st') => st' = st
  | (Throw (TypeError _), st') =>
      ∃ r' a' b',
        truthy r = Some r' ∧ truthy a = Some a' ∧ truthy b = Some b'
        ∧ r' ≠ s
        ∧ tradeRequests st !! i = None
        ∧ st' = set_log (λ l0, l0 ++ [Saved "traderequests" i])
                  (set_tradeRequests
                     (insert i (freshTrade s (castObjectId r') (castObjectId a')
                                  (castObjectId b') m n)) st)
  end.
Proof.
  unfold createTradeRequest.
  destruct (truthy r) as [r'|]; [|done].
  destruct (truthy a) as [a'|]; [|done].
  destruct (truthy b) as [b'|]; [|done].
  case_decide as Hself; [done|].
  unfold TradeRequestModel_findOne, TradeRequestModel_create. unfold_m.
  destruct (List.find _ _) as [dup|] eqn:Hfind; [done|].
  apply findOne_None_iff in Hfind.
  destruct (tradeRequests st !! i) eqn:Hfresh; [done|]. proj_state.
  destruct (users st !! s) as [us|]; proj_state; [|exists r', a', b'; done].
  destruct (skills st !! castObjectId a') as [sa|]; proj_state; [|exists r', a', b'; done].
  destruct (skills st !! castObjectId b') as [sb|]; proj_state; [|exists r', a', b'; done].
  send_step.
  exists r', a', b', (Saved "traderequests" i :: l). repeat split; try done.
  unfold set_log, set_tradeRequests; simpl. by rewrite <- app_assoc.
Qed.

Lemma truthy_Some s : s ≠ "" → truthy (Some s) = Some s.
Proof. intros Hs. unfold truthy. by rewrite decide_False. Qed.

Lemma truthy_Some_inv v s : truthy v = Some s → v = Some s ∧ s ≠ "".
Proof.
  destruct v as [s'|]; simpl; [|done].
  case_decide; [done|]. by intros [= ->].
Qed.

(** A well-formed proposal that no pending trade duplicates is stored. *)
Lemma createTradeRequest_ok s r a b m i n st :
  r ≠ "" → a ≠ "" → b ≠ "" → r ≠ s →
  noPendingDuplicate st s (castObjectId r) (castObjectId a) (castObjectId b) →
  tradeRequests st !! i = None →
  is_Some (users st !! s) →
  is_Some (skills st !! castObjectId a) → is_Some (skills st !! castObjectId b) →
  ∃ l, createTradeRequest s (Some r) (Some a) (Some b) m i n st =
         (Return (mkApiResponse 201
                    (i, freshTrade s (castObjectId r) (castObjectId a) (castObjectId b) m n)
                    "Trade request created successfully"),
          set_log (λ l0, l0 ++ l)
            (set_tradeRequests
               (insert i (freshTrade s (castObjectId r) (castObjectId a) (castObjectId b) m n))
               st)).
Proof.
  intros Hr Ha Hb Hself Hno Hfresh [us Hus] [sa Hsa] [sb Hsb].
  unfold createTradeRequest. rewrite !truthy_Some by done.
  rewrite decide_False by done.
  unfold TradeRequestModel_findOne, TradeRequestModel_create. unfold_m.
  apply findOne_None_iff in Hno. rewrite Hno, Hfresh. proj_state.
  rewrite Hus. proj_state. rewrite Hsa. proj_state. rewrite Hsb. proj_state.
  send_step. exists (Saved "traderequests" i :: l).
  unfold set_log, set_tradeRequests, freshTrade; simpl. by rewrite <- app_assoc.
Qed.

(** A proposal that a stored pending trade duplicates is refused, and
    nothing is stored. *)
Lemma createTradeRequest_conflict s r a b m i n st id t :
  r ≠ "" → a ≠ "" → b ≠ "" → r ≠ s →
  tradeRequests st !! id = Some t →
  pendingDuplicate s (castObjectId r) (castObjectId a) (castObjectId b) t = true →
  createTradeRequest s (Some r) (Some a) (Some b) m i n st =
    (Throw (ApiError 400 "A pending trade already exists"), st).
Proof.
  intros Hr Ha Hb Hself Ht Hdup.
  unfold createTradeRequest. rewrite !truthy_Some by done.
  rewrite decide_False by done.
  unfold TradeRequestModel_findOne. unfold_m.
  destruct (List.find _ _) eqn:Hfind; [done|].
  apply findOne_None_iff in Hfind. specialize (Hfind id t Ht). congruence.
Qed.

(** C3. After a successful [createTradeRequest]: as long as the created
    trade is stored with status [pending], a proposal with the same sender,
    receiver and skill pairing is refused with the [ApiError] of class 400
    and the state is unchanged, whatever its message, new id and time; a
    proposal between the same users with another skill pairing that no
    earlier pending trade duplicates is stored as a new pending trade; and
    once the created trade has another status, a proposal with the same
    pairing is stored again. The stored trade carries the ids of the body
    as Mongoose casts them. *)
Theorem duplicate_suppression s r a b m i n st resp st1 :
  createTradeRequest s r a b m i n st = (Return resp, st1) →
  ∃ r' a' b',
    r = Some r' ∧ a = Some a' ∧ b = Some b'
    ∧ tradeRequests st1 !! i
      = Some (freshTrade s (castObjectId r') (castObjectId a') (castObjectId b') m n)
    ∧ (∀ st2 t m2 i2 n2,
         tradeRequests st2 !! i = Some t →
         pendingDuplicate s (castObjectId r') (castObjectId a') (castObjectId b') t = true →
         createTradeRequest s r a b m2 i2 n2 st2 =
           (Throw (ApiError 400 "A pending trade already exists"), st2)
         ∧ statusCodeOf (ApiError 400 "A pending trade already exists") = 400)
    ∧ (∀ a2 b2 m2 i2 n2,
         a2 ≠ "" → b2 ≠ "" →
         (castObjectId a2, castObjectId b2) ≠ (castObjectId a', castObjectId b') →
         noPendingDuplicate st s (castObjectId r') (castObjectId a2) (castObjectId b2) →
         tradeRequests st1 !! i2 = None →
         is_Some (skills st !! castObjectId a2) → is_Some (skills st !! castObjectId b2) →
         ∃ st2,
           createTradeRequest s r (Some a2) (Some b2) m2 i2 n2 st1 =
             (Return (mkApiResponse 201
                        (i2, freshTrade s (castObjectId r') (castObjectId a2)
                               (castObjectId b2) m2 n2)
                        "Trade request created successfully"), st2)
           ∧ tradeRequests st2 !! i2
             = Some (freshTrade s (castObjectId r') (castObjectId a2) (castObjectId b2) m2 n2)
           ∧ tradeRequests st2 !! i
             = Some (freshTrade s (castObjectId r') (castObjectId a') (castObjectId b') m n))
    ∧ (∀ st2 t m2 i2 n2,
         tradeRequests st2 = <[i := t]> (tradeRequests st1) →
         users st2 = users st1 → skills st2 = skills st1 →
         TradeRequest.status t ≠ "pending" →
         tradeRequests st2 !! i2 = None →
         ∃ st3,
           createTradeRequest s r a b m2 i2 n2 st2 =
             (Return (mkApiResponse 201
                        (i2, freshTrade s (castObjectId r') (castObjectId a')
                               (castObjectId b') m2 n2)
                        "Trade request created successfully"), st3)
           ∧ tradeRequests st3 !! i2
             = Some (freshTrade s (castObjectId r') (castObjectId a') (castObjectId b') m2 n2)).
Proof.
  intros Hcreate.
  pose proof (createTradeRequest_inv s r a b m i n st) as Hinv.
  rewrite Hcreate in Hinv.
  destruct Hinv as (r' & a' & b' & l & Hr & Ha & Hb & Hself & Hno & Hfresh & -> & ->).
  apply truthy_Some_inv in Hr as [-> Hr], Ha as [-> Ha], Hb as [-> Hb].
  assert (is_Some (users st !! s) ∧ is_Some (skills st !! castObjectId a')
          ∧ is_Some (skills st !! castObjectId b'))
    as (Hus & Hsa & Hsb).
  { revert Hcreate. unfold createTradeRequest. rewrite !truthy_Some by done.
    rewrite decide_False by done.
    unfold TradeRequestModel_findOne, TradeRequestModel_create. unfold_m.
    apply findOne_None_iff in Hno. rewrite Hno, Hfresh. proj_state.
    destruct (users st !! s); proj_state; [|done].
    destruct (skills st !! castObjectId a'); proj_state; [|done].
    destruct (skills st !! castObjectId b'); proj_state; [|done]. done. }
  exists r', a', b'. proj_state.
  split; [done|]. split; [done|]. split; [done|].
  split; [apply lookup_insert_eq|].
  split; [|split].
  - intros st2 t m2 i2 n2 Ht Hdup. split; [|done].
    by apply (createTradeRequest_conflict s r' a' b' m2 i2 n2 st2 i t).
  - intros a2 b2 m2 i2 n2 Ha2 Hb2 Hpair Hno2 Hfresh2 Hsa2 Hsb2.
    destruct (createTradeRequest_ok s r' a2 b2 m2 i2 n2
                (set_log (λ l0, l0 ++ l)
                   (set_tradeRequests
                      (insert i (freshTrade s (castObjectId r') (castObjectId a')
                                   (castObjectId b') m n)) st)))
      as [l2 Hok]; try done.
    { intros id t. proj_state. rewrite lookup_insert.
      case_decide as Hid; [|by apply Hno2].
      intros [= <-]. unfold pendingDuplicate, freshTrade. simpl.
      repeat (case_bool_decide; simpl; try done). congruence. }
    eexists. split; [exact Hok|]. proj_state.
    split; [apply lookup_insert_eq|].
    assert (i ≠ i2) as Hne.
    { intros ->. by rewrite lookup_insert_eq in Hfresh2. }
    rewrite lookup_insert_ne by done. apply lookup_insert_eq.
  - intros st2 t m2 i2 n2 Htr Hu Hs Hst Hfresh2.
    destruct (createTradeRequest_ok s r' a' b' m2 i2 n2 st2) as [l2 Hok];
      try done; try (rewrite ?Hu, ?Hs; done).
    { intros id t'. rewrite Htr. proj_state. rewrite lookup_insert.
      case_decide as Hid.
      - intros [= <-]. unfold pendingDuplicate.
        rewrite (bool_decide_eq_false_2 (TradeRequest.status t = "pending")) by done.
        by rewrite andb_false_r.
      - rewrite lookup_insert_ne by done. by apply Hno. }
    eexists. split; [exact Hok|]. proj_state. apply lookup_insert_eq.
Qed.

(** ** Reviews *)

(** The body checks either throw an [ApiError] of class 400 or hand on the
    three values; they never touch the state. *)
Lemma submitReview_validate_cases rating review revieweeId st :
  (∃ msg, submitReview_validate rating review revieweeId st = (Throw (ApiError 400 msg), st))
  ∨ (∃ q txt rid,
        submitReview_validate rating review revieweeId st = (Return (q, txt, rid), st)
        ∧ truthyNumber rating = Some q ∧ truthy review = Some txt
        ∧ truthy revieweeId = Some rid).
Proof.
  unfold submitReview_validate.
  destruct (truthyNumber rating) as [q|]; [|left; by eexists].
  destruct (truthy review) as [txt|]; [|left; by eexists].
  destruct (truthy revieweeId) as [rid|]; [|left; by eexists].
  destruct (Qlt_bool q 1 || Qlt_bool 5 q); [left; by eexists|].
  destruct ((String.length (trim txt) =? 0)%nat || (500 <? String.length txt)%nat);
    [left; by eexists|].
  right. by exists q, txt, rid.
Qed.

Lemma ReviewModel_create_cases i n tid u rid q txt sk st :
  (∃ msg, ReviewModel_create i n tid u rid q txt sk st = (Throw (MongoError msg), st))
  ∨ (ReviewModel_create i n tid u rid q txt sk st =
       (Return (freshReview i n tid u rid q txt sk),
        set_log (λ l, l ++ [Saved "reviews" i])
          (set_reviews (λ l, l ++ [freshReview i n tid u rid q txt sk]) st))
     ∧ existsb (λ r, bool_decide (Review._id r = i) || sameTriple tid u rid r) (reviews st)
       = false).
Proof.
  unfold ReviewModel_create.
  destruct (_ || _ || _ || _); [left; by eexists|]. unfold_m.
  destruct (existsb _ _) eqn:Hex; [left; by eexists|].
  right. done.
Qed.

(** The recomputation of the rating never throws, whatever the write into
    the profile collection does. *)
Lemma updateUserRating_using_swallows (write : ObjectId → Q → M unit) v st :
  ∃ st', updateUserRating_using write v st = (Return tt, st').
Proof.
  unfold updateUserRating_using, try_catch.
  destruct (bind _ _ st) as [[[]|e] st']; eexists; reflexivity.
Qed.

Lemma filter_false {A} (l : list A) : List.filter (λ _, false) l = [].
Proof. by induction l. Qed.

Lemma updateUserRating_run s st :
  ∃ l, updateUserRating (BString s) st =
         (Return tt, set_log (λ l0, l0 ++ l) (set_skillProfiles (zeroRating s) st)).
Proof.
  unfold updateUserRating, updateUserRating_using, ReviewModel_aggregate_ratingStats,
    SkillProfileModel_findOneAndUpdate, zeroRating.
  unfold_m. simpl. rewrite filter_false.
  destruct (skillProfiles st !! s) eqn:Hp.
  - exists [Saved "skillprofiles" s]. unfold set_log, set_skillProfiles; simpl.
    by rewrite Hp.
  - exists []. destruct st; unfold set_log, set_skillProfiles; simpl in *.
    by rewrite Hp, app_nil_r.
Qed.

Ltac create_review_step :=
  match goal with
  | |- context [ReviewModel_create ?i ?n ?tid ?u ?rid ?q ?txt ?sk ?st] =>
      let msg := fresh "msg" in
      let H := fresh "H" in
      let Hfresh := fresh "Hfresh" in
      destruct (ReviewModel_create_cases i n tid u rid q txt sk st)
        as [[msg H]|[H Hfresh]];
      rewrite H; clear H; proj_state
  end.

Ltac rate_step :=
  match goal with
  | |- context [updateUserRating_using SkillProfileModel_findOneAndUpdate (BString ?s) ?st] =>
      let l := fresh "l" in
      let H := fresh "H" in
      destruct (updateUserRating_run s st) as (l & H);
      unfold updateUserRating in H; rewrite H; clear H; proj_state
  end.

(** Every answer of [submitReview]. A success stored one review; an
    [ApiError] or an error of the collection changed nothing; a
    [TypeError] comes after the review has been stored. *)
Lemma submitReview_inv u tid rating review rid i n st :
  match submitReview u tid rating review rid i n st with
  | (Return resp, st') =>
      statusCode resp = 201 ∧ reviewStored u tid rating review rid i n st st' (data resp)
  | (Throw (ApiError c _), st') => st' = st
  | (Throw (MongoError _), st') => st' = st
  | (Throw (TypeError _), st') =>
      ∃ doc, reviewStored u tid rating review rid i n st st' doc
  end.
Proof.
  unfold submitReview, submitReview_using. unfold bind at 1.
  destruct (submitReview_validate_cases rating review rid st)
    as [[msg ->]|(q & txt & rid' & -> & Hq & Htxt & Hrid)]; [done|].
  unfold TradeRequestModel_findById, ReviewModel_findOne. unfold_m.
  destruct (tradeRequests st !! tid) as [t|] eqn:Ht; [|done].
  case_bool_decide as Hstatus; simpl; [|done].
  destruct (negb _ && negb _) eqn:Hpart; [done|].
  destruct (negb (_ || _)) eqn:Hvalid; [done|].
  assert (paired t u rid') as Hpaired.
  { apply negb_false_iff, orb_true_iff in Hvalid.
    unfold paired. rewrite !andb_true_iff, !bool_decide_eq_true in Hvalid.
    destruct Hvalid as [[<- <-]|[<- <-]]; auto. }
  destruct (List.find _ (reviews st)) eqn:Hfind; [done|].
  fold (skillReviewedBy t u).
  create_review_step; [done|]. rate_step.
  destruct (users st !! u) as [us|]; proj_state.
  - send_step. split; [done|]. simpl.
    exists t, q, txt, rid', (Saved "reviews" i :: l ++ l0).
    repeat split; try done.
    unfold set_log, set_skillProfiles, set_reviews; simpl.
    by rewrite <- !app_assoc.
  - eexists. exists t, q, txt, rid', (Saved "reviews" i :: l).
    repeat split; try done.
    unfold set_log, set_skillProfiles, set_reviews; simpl.
    by rewrite <- !app_assoc.
Qed.

(** ** What the chat and socket handlers leave alone *)

Ltac unfold_chat :=
  cbv [getChatHistory on_user_join on_chat_send on_disconnect
       MessageModel_find_sorted MessageModel_updateMany_read
       MessageModel_countDocuments_unread MessageModel_aggregate_unread
       MessageModel_create
       bind ret throw gets modify record deref try_catch emit getUserSocketId] in *.

Lemma getChatHistory_frame u t n st :
  sameTradesAndReviews st (getChatHistory u t n st).2.
Proof. by unfold_chat. Qed.

Lemma on_user_join_frame s u st :
  sameTradesAndReviews st (on_user_join s u st).2.
Proof. unfold_chat. repeat case_match; simplify_eq; done. Qed.

Lemma on_chat_send_frame s r m t i n st :
  sameTradesAndReviews st (on_chat_send s r m t i n st).2.
Proof. unfold_chat. repeat case_match; simplify_eq; done. Qed.

Lemma on_disconnect_frame s st :
  sameTradesAndReviews st (on_disconnect s st).2.
Proof. unfold_chat. repeat case_match; simplify_eq; done. Qed.

(** ** What one request does to the trades and the reviews *)

Lemma reviewStored_effect u tid rating review rid i n st st' doc :
  reviewStored u tid rating review rid i n st st' doc → requestEffect st st'.
Proof.
  intros (t & q & txt & rid' & l & _ & _ & _ & Ht & Hstatus & Hpaired & Hfind & -> & ->).
  by apply (effect_reviewed _ _ (freshReview i n tid u rid' q (trim txt) (skillReviewedBy t u)) t).
Qed.

Lemma handle_effect rq st : requestEffect st (handle rq st).
Proof.
  destruct rq as [s r a b m i n|u id s n|u tid rating review rid i n|u t n|s u|s r m t i n|s];
    simpl.
  - pose proof (createTradeRequest_inv s r a b m i n st) as Hinv.
    destruct (createTradeRequest s r a b m i n st) as [[resp|[c msg|msg|msg]] st']; simpl.
    + destruct Hinv as (r' & a' & b' & l & _ & _ & _ & Hself & _ & Hfresh & _ & ->).
      by apply (effect_created _ _ i s (castObjectId r') (castObjectId a') (castObjectId b')
                  m n).
    + destruct Hinv as [_ ->]. by apply effect_none.
    + destruct Hinv as (r' & a' & b' & _ & _ & _ & Hself & Hfresh & ->).
      by apply (effect_created _ _ i s (castObjectId r') (castObjectId a') (castObjectId b')
                  m n).
    + subst. by apply effect_none.
  - pose proof (updateTradeStatus_inv u id s n st) as Hinv.
    destruct (updateTradeStatus u id s n st) as [[resp|e] st']; simpl.
    + destruct Hinv as (t & l & Ht & Hu & Hs & _ & ->).
      by apply (effect_updated _ _ id t u s n).
    + subst. by apply effect_none.
  - pose proof (submitReview_inv u tid rating review rid i n st) as Hinv.
    destruct (submitReview u tid rating review rid i n st) as [[resp|[c msg|msg|msg]] st'];
      simpl.
    + destruct Hinv as [_ Hstored]. by eapply reviewStored_effect.
    + subst. by apply effect_none.
    + destruct Hinv as [doc Hstored]. by eapply reviewStored_effect.
    + subst. by apply effect_none.
  - destruct (getChatHistory_frame u t n st) as (? & ? & _). by apply effect_none.
  - destruct (on_user_join_frame s u st) as (? & ? & _). by apply effect_none.
  - destruct (on_chat_send_frame s r m t i n st) as (? & ? & _). by apply effect_none.
  - destruct (on_disconnect_frame s st) as (? & ? & _). by apply effect_none.
Qed.

(** ** The life of one trade *)

Lemma tradeStep_refl t : tradeStep t t.
Proof. unfold tradeStep. repeat split; auto. Qed.

Lemma tradeStep_trans t1 t2 t3 : tradeStep t1 t2 → tradeStep t2 t3 → tradeStep t1 t3.
Proof.
  intros (Hs & Hr & Ha & Hb & Hcb & Hst) (Hs' & Hr' & Ha' & Hb' & Hcb' & Hst').
  unfold tradeStep. repeat split; try congruence.
  - by etrans.
  - destruct Hst' as [Heq|[?|[?|(? & Hin1 & Hin2)]]]; auto.
    + rewrite Heq. destruct Hst as [?|[?|[?|(? & Hin1 & Hin2)]]]; auto.
      right; right; right. repeat split; try done.
      * destruct Hcb' as [k ->]. apply elem_of_app. by left.
      * destruct Hcb' as [k ->]. apply elem_of_app. by left.
    + right; right; right. rewrite <- Hs, <- Hr. done.
Qed.

Lemma existsb_bool_decide_elem (x : string) (l : list string) :
  existsb (λ i, bool_decide (i = x)) l = true → x ∈ l.
Proof.
  intros Hex. apply existsb_exists in Hex as (y & Hin & Hy).
  apply bool_decide_eq_true in Hy as ->. by apply list_elem_of_In.
Qed.

Lemma markComplete_tradeStep u t : tradeStep t (markComplete u t).
Proof.
  unfold markComplete, tradeStep.
  set (cb := if bool_decide (u ∈ TradeRequest.completedBy t)
             then TradeRequest.completedBy t else TradeRequest.completedBy t ++ [u]).
  assert (TradeRequest.completedBy t `prefix_of` cb) as Hpre.
  { unfold cb. case_bool_decide; [done|]. by apply prefix_app_r. }
  destruct (bool_decide (length cb = 2) && _ && _) eqn:Hboth; simpl;
    repeat split; auto.
  apply andb_true_iff in Hboth as [Hboth Hr]. apply andb_true_iff in Hboth as [_ Hs].
  right; right; right. split; [done|]. split; by apply existsb_bool_decide_elem.
Qed.

Lemma nextTrade_tradeStep u s n t : tradeStep t (nextTrade u s n t).
Proof.
  unfold nextTrade.
  case_decide; [unfold tradeStep; simpl; repeat split; auto|].
  case_decide; [unfold tradeStep; simpl; repeat split; auto|].
  destruct (markComplete_tradeStep u t) as (? & ? & ? & ? & ? & ?).
  unfold tradeStep. simpl. repeat split; auto.
Qed.

Lemma handle_tradeStep rq st id t :
  tradeRequests st !! id = Some t →
  ∃ t', tradeRequests (handle rq st) !! id = Some t' ∧ tradeStep t t'.
Proof.
  intros Ht.
  destruct (handle_effect rq st) as [Htr _|i s r a b m n Hfresh Htr _
                                    |id' t0 u s n Ht0 _ _ Htr _|doc t0 Htr _ _ _ _ _];
    rewrite Htr.
  - exists t. split; [done|apply tradeStep_refl].
  - exists t. split; [|apply tradeStep_refl].
    rewrite lookup_insert_ne; [done|]. intros ->. congruence.
  - destruct (decide (id' = id)) as [->|Hne].
    + rewrite Ht in Ht0. injection Ht0 as <-.
      exists (nextTrade u s n t). split; [apply lookup_insert_eq|apply nextTrade_tradeStep].
    + exists t. split; [|apply tradeStep_refl]. by rewrite lookup_insert_ne.
  - exists t. split; [done|apply tradeStep_refl].
Qed.

Lemma run_tradeStep rqs st id t :
  tradeRequests st !! id = Some t →
  ∃ t', tradeRequests (run rqs st) !! id = Some t' ∧ tradeStep t t'.
Proof.
  revert st t. induction rqs as [|rq rqs IH]; intros st t Ht.
  - exists t. split; [done|apply tradeStep_refl].
  - destruct (handle_tradeStep rq st id t Ht) as (t1 & Ht1 & Hstep1).
    destruct (IH (handle rq st) t1 Ht1) as (t2 & Ht2 & Hstep2).
    exists t2. split; [exact Ht2|]. by eapply tradeStep_trans.
Qed.

(** ** Invariants of the reachable states *)

Lemma tradeStep_invariant t t' : tradeStep t t' → tradeInvariant t → tradeInvariant t'.
Proof.
  intros (Hs & Hr & _ & _ & Hcb & Hst) Hdone.
  intros Hcompleted. rewrite Hs, Hr.
  destruct Hst as [Heq|[?|[?|(_ & ? & ?)]]]; [|congruence|congruence|done].
  rewrite Heq in Hcompleted. destruct (Hdone Hcompleted) as [Hin1 Hin2].
  destruct Hcb as [k ->]. split; apply elem_of_app; by left.
Qed.

Lemma tradeStep_paired t t' u v : tradeStep t t' → paired t u v → paired t' u v.
Proof. intros (Hs & Hr & _) Hp. unfold paired in *. by rewrite Hs, Hr. Qed.

Lemma find_sameTriple_None tid u v l :
  List.find (sameTriple tid u v) l = None → (tid, u, v) ∉ tripleOf <$> l.
Proof.
  intros Hnone Hin. apply list_elem_of_fmap in Hin as (r & Heq & Hin).
  apply list_elem_of_In in Hin.
  pose proof (find_none _ _ Hnone r Hin) as Hfalse.
  unfold tripleOf in Heq. injection Heq as -> -> ->.
  unfold sameTriple in Hfalse. by rewrite !bool_decide_eq_true_2 in Hfalse.
Qed.

Lemma wellFormed_initial users skills skillProfiles :
  wellFormed (initial users skills skillProfiles).
Proof.
  unfold wellFormed, initial; simpl. split; [|split].
  - intros id t Ht. by rewrite lookup_empty in Ht.
  - intros r Hr. by apply elem_of_nil in Hr.
  - constructor.
Qed.

Lemma wellFormed_handle rq st : wellFormed st → wellFormed (handle rq st).
Proof.
  intros (Htrades & Hreviews & Hnodup).
  destruct (handle_effect rq st) as [Htr Hrv|i s r a b m n Hfresh Htr Hrv
                                    |id t u s n Ht _ _ Htr Hrv
                                    |doc t Htr Hrv Ht _ Hpaired Hfind];
    unfold wellFormed; rewrite Htr, Hrv.
  - done.
  - split; [|split; [|done]].
    + intros id t. rewrite lookup_insert. case_decide; [|by apply Htrades].
      intros [= <-]. unfold tradeInvariant; simpl. done.
    + intros r0 Hr0. destruct (Hreviews r0 Hr0) as (t0 & Ht0 & Hp0).
      exists t0. split; [|done]. rewrite lookup_insert_ne; [done|].
      intros ->. congruence.
  - split; [|split; [|done]].
    + intros id0 t0. rewrite lookup_insert. case_decide; [|by apply Htrades].
      intros [= <-]. eapply tradeStep_invariant; [apply nextTrade_tradeStep|].
      by eapply Htrades.
    + intros r0 Hr0. destruct (Hreviews r0 Hr0) as (t0 & Ht0 & Hp0).
      destruct (decide (id = Review.tradeRequest r0)) as [->|Hne].
      * exists (nextTrade u s n t). split; [apply lookup_insert_eq|].
        rewrite Ht in Ht0. injection Ht0 as <-.
        eapply tradeStep_paired; [apply nextTrade_tradeStep|done].
      * exists t0. by rewrite lookup_insert_ne.
  - split; [done|split].
    + intros r0 Hr0. apply elem_of_app in Hr0 as [Hr0|Hr0]; [by apply Hreviews|].
      apply list_elem_of_singleton in Hr0 as ->. by exists t.
    + rewrite fmap_app. apply NoDup_app. split; [done|]. split.
      * intros x Hx Hx'. apply list_elem_of_singleton in Hx' as ->.
        by apply find_sameTriple_None in Hfind.
      * apply NoDup_singleton.
Qed.

Lemma reachable_wellFormed st : reachable st → wellFormed st.
Proof.
  induction 1 as [users skills skillProfiles|st rq _ IH].
  - apply wellFormed_initial.
  - by apply wellFormed_handle.
Qed.

Lemma run_reachable rqs st : reachable st → reachable (run rqs st).
Proof.
  revert st. induction rqs as [|rq rqs IH]; intros st Hst; [done|].
  simpl. apply IH. by constructor.
Qed.

(** C2, as the code has it. Whatever requests are handled, a stored trade
    stays stored with its participants and skills, its [completedBy] only
    grows, and its status is either what it was, or [accepted], or
    [rejected], or [completed] with both participants in [completedBy]; in
    a reachable state a trade with status [completed] has both participants
    in [completedBy]; and a participant asking for [accepted] or [rejected]
    gets that status whatever the current one is. *)
Theorem trade_transitions rqs st id t :
  tradeRequests st !! id = Some t →
  ∃ t',
    tradeRequests (run rqs st) !! id = Some t'
    ∧ tradeStep t t'
    ∧ (reachable st → TradeRequest.status t' = "completed" →
       TradeRequest.sender t' ∈ TradeRequest.completedBy t'
       ∧ TradeRequest.receiver t' ∈ TradeRequest.completedBy t')
    ∧ (∀ u s n,
         resolves (run rqs st) t' →
         u ∈ [TradeRequest.sender t'; TradeRequest.receiver t'] →
         s ∈ ["accepted"; "rejected"] →
         ∃ resp st',
           updateTradeStatus u id (Some s) n (run rqs st) = (Return resp, st')
           ∧ tradeRequests st' !! id = Some (data resp).2
           ∧ TradeRequest.status (data resp).2 = s).
Proof.
  intros Ht. destruct (run_tradeStep rqs st id t Ht) as (t' & Ht' & Hstep).
  exists t'. split; [done|]. split; [done|]. split.
  - intros Hreach. apply (run_reachable rqs), reachable_wellFormed in Hreach.
    destruct Hreach as (Htrades & _). apply (Htrades id t' Ht').
  - intros u s n Hres Hu Hs.
    destruct (updateTradeStatus_ok u id (Some s) n (run rqs st) t') as [l Hcall]; try done.
    { unfold validStatus. rewrite !elem_of_cons in Hs. rewrite !elem_of_cons.
      destruct Hs as [->|[->|Hnil]]; auto. by apply elem_of_nil in Hnil. }
    eexists _, _. split; [exact Hcall|]. proj_state.
    split; [apply lookup_insert_eq|].
    rewrite !elem_of_cons in Hs. unfold nextTrade.
    destruct Hs as [->|[->|Hnil]]; [| |by apply elem_of_nil in Hnil]; by status_cases.
Qed.

Lemma trade_transitions_witness :
  tradeRequests demoProposed !! "t1" = Some demoTrade
  ∧ ∃ t',
      tradeRequests (run [UpdateTradeStatus "u2" "t1" (Some "accepted") 2] demoProposed) !! "t1"
        = Some t'
      ∧ tradeStep demoTrade t'.
Proof.
  split; [vm_compute; reflexivity|].
  destruct (trade_transitions [UpdateTradeStatus "u2" "t1" (Some "accepted") 2]
              demoProposed "t1" demoTrade) as (t' & Ht' & Hstep & _).
  - vm_compute; reflexivity.
  - exists t'. split; [exact Ht'|exact Hstep].
Defined.

(** C2 as stated fails: in a reachable state a trade with status
    [completed] leaves that status when its sender asks for [accepted]. *)
Lemma completed_trade_reopened :
  ¬ (∀ st rq id t t',
       reachable st →
       tradeRequests st !! id = Some t →
       TradeRequest.status t = "completed" →
       tradeRequests (handle rq st) !! id = Some t' →
       TradeRequest.status t' = "completed").
Proof.
  intros Hclaim.
  assert (reachable demoCompleted) as Hreach.
  { unfold demoCompleted, demoProposed, demoInitial.
    do 2 apply run_reachable. constructor. }
  specialize (Hclaim demoCompleted (UpdateTradeStatus "u1" "t1" (Some "accepted") 4) "t1"
                (TradeRequest.mk "u1" "u2" "s1" "s2" "completed" ["u1"; "u2"] None 1 3)
                (TradeRequest.mk "u1" "u2" "s1" "s2" "accepted" ["u1"; "u2"] None 1 4)
                Hreach).
  assert (tradeRequests demoCompleted !! "t1"
          = Some (TradeRequest.mk "u1" "u2" "s1" "s2" "completed" ["u1"; "u2"] None 1 3)) as H1
    by (vm_compute; reflexivity).
  assert (tradeRequests (handle (UpdateTradeStatus "u1" "t1" (Some "accepted") 4) demoCompleted)
            !! "t1"
          = Some (TradeRequest.mk "u1" "u2" "s1" "s2" "accepted" ["u1"; "u2"] None 1 4)) as H2
    by (vm_compute; reflexivity).
  specialize (Hclaim H1 eq_refl H2). simpl in Hclaim. discriminate Hclaim.
Qed.

(** ** Review exclusivity *)

Lemma find_sameTriple_Some r l :
  r ∈ l →
  is_Some (List.find (sameTriple (Review.tradeRequest r) (Review.reviewer r)
                        (Review.reviewee r)) l).
Proof.
  intros Hin. destruct (List.find _ l) eqn:Hfind; [by eexists|].
  apply list_elem_of_In in Hin. pose proof (find_none _ _ Hfind r Hin) as Hfalse.
  unfold sameTriple in Hfalse. by rewrite !bool_decide_eq_true_2 in Hfalse.
Qed.

Lemma NoDup_fmap_eq {A B} (f : A → B) (l : list A) x y :
  NoDup (f <$> l) → x ∈ l → y ∈ l → f x = f y → x = y.
Proof.
  induction l as [|a l IH]; intros Hnd Hx Hy Hf; [by apply elem_of_nil in Hx|].
  rewrite fmap_cons in Hnd. apply NoDup_cons in Hnd as [Hnotin Hnd].
  apply elem_of_cons in Hx as [->|Hx], Hy as [->|Hy]; auto.
  - exfalso. apply Hnotin. rewrite Hf. by apply list_elem_of_fmap_2.
  - exfalso. apply Hnotin. rewrite <- Hf. by apply list_elem_of_fmap_2.
Qed.

(** C4. In a reachable state, for every stored review, a further
    [submitReview] of its reviewer on its trade for its reviewee throws an
    [ApiError] of class 400 whatever rating, text, new id and time it
    carries, and leaves the whole state, the reviews included, as it was;
    and the stored review is the only one of its triple. *)
Theorem review_exclusivity st r rating review i n :
  reachable st →
  r ∈ reviews st →
  (∃ msg,
     submitReview (Review.reviewer r) (Review.tradeRequest r) rating review
       (Some (Review.reviewee r)) i n st = (Throw (ApiError 400 msg), st))
  ∧ (∀ r', r' ∈ reviews st → tripleOf r' = tripleOf r → r' = r).
Proof.
  intros Hreach Hr. apply reachable_wellFormed in Hreach as (_ & Hreviews & Hnodup).
  split; [|intros r' Hr' Heq; by eapply NoDup_fmap_eq].
  destruct (Hreviews r Hr) as (t & Ht & Hpaired).
  unfold submitReview, submitReview_using. unfold bind at 1.
  destruct (submitReview_validate_cases rating review (Some (Review.reviewee r)) st)
    as [[msg ->]|(q & txt & rid & -> & _ & _ & Hrid)]; [by eexists|].
  apply truthy_Some_inv in Hrid as [[= <-] _].
  unfold TradeRequestModel_findById, ReviewModel_findOne. unfold_m. rewrite Ht.
  case_bool_decide as Hstatus; simpl; [|by eexists].
  assert (negb (bool_decide (TradeRequest.sender t = Review.reviewer r))
          && negb (bool_decide (TradeRequest.receiver t = Review.reviewer r)) = false) as ->.
  { destruct Hpaired as [[-> _]|[-> _]].
    - by rewrite bool_decide_eq_true_2.
    - rewrite (bool_decide_eq_true_2 (TradeRequest.receiver t = _)) by done.
      apply andb_false_r. }
  assert (negb
            (bool_decide (TradeRequest.sender t = Review.reviewer r)
             && bool_decide (TradeRequest.receiver t = Review.reviewee r)
             || bool_decide (TradeRequest.receiver t = Review.reviewer r)
                && bool_decide (TradeRequest.sender t = Review.reviewee r)) = false) as ->.
  { apply negb_false_iff, orb_true_iff.
    destruct Hpaired as [[-> ->]|[-> ->]]; [left|right];
      by rewrite !bool_decide_eq_true_2. }
  destruct (find_sameTriple_Some r (reviews st) Hr) as [r0 ->]. by eexists.
Qed.

(** ** The aggregate rating *)

(** A successful [submitReview] writes [roundToTenth 0] into the profile
    of the reviewee, when there is one, whatever the ratings of the stored
    reviews are. *)
Lemma submitReview_writes_zero u tid rating review rid i n st resp st' :
  submitReview u tid rating review rid i n st = (Return resp, st') →
  skillProfiles st' = zeroRating (Review.reviewee (data resp)) (skillProfiles st).
Proof.
  intros Hcall. pose proof (submitReview_inv u tid rating review rid i n st) as Hinv.
  rewrite Hcall in Hinv.
  destruct Hinv as [_ (t & q & txt & rid' & l & _ & _ & _ & _ & _ & _ & _ & Hdoc & ->)].
  by rewrite Hdoc.
Qed.

(** C6, at the input of the specification. After three successful reviews
    of Bob with the ratings 5, 4 and 3, whose mean rounded to one decimal
    is 4, the rating stored in Bob's profile is 0: [updateUserRating] is
    handed the string of the request body and its [$match] selects nothing.
    Handed the ObjectId, as the [user:join] handler does for its own
    pipeline, the same function stores 4. *)
Theorem rating_543_stored_as_zero :
  map (λ r, (Review.reviewee r, Review.rating r)) (reviews demoThreeReviews)
    = [("u2", 5%Q); ("u2", 4%Q); ("u2", 3%Q)]
  ∧ (roundToTenth (Qsum [5; 4; 3] / 3) == 4)%Q
  ∧ (∃ p, skillProfiles demoThreeReviews !! "u2" = Some p
          ∧ (SkillProfile.rating p == 0)%Q)
  ∧ (∃ p, skillProfiles (updateUserRating (BObjectId "u2") demoThreeReviews).2 !! "u2" = Some p
          ∧ (SkillProfile.rating p == 4)%Q).
Proof.
  split; [vm_compute; reflexivity|]. split; [vm_compute; reflexivity|]. split.
  - eexists. split; [vm_compute; reflexivity|]. vm_compute; reflexivity.
  - eexists. split; [vm_compute; reflexivity|]. vm_compute; reflexivity.
Qed.

(** The failure of the write is swallowed: [submitReview] answers as it
    does with the working write, and stores the same reviews. *)
Lemma submitReview_survives_failed_write u tid rating review rid i n st :
  (submitReview_using failingWrite u tid rating review rid i n st).1
    = (submitReview u tid rating review rid i n st).1
  ∧ reviews (submitReview_using failingWrite u tid rating review rid i n st).2
    = reviews (submitReview u tid rating review rid i n st).2.
Proof.
  unfold submitReview, submitReview_using. cbv [bind].
  destruct (submitReview_validate_cases rating review rid st)
    as [[msg Hv]|(q & txt & rid' & Hv & _)]; rewrite !Hv; [done|].
  unfold TradeRequestModel_findById, ReviewModel_findOne. unfold_m.
  destruct (tradeRequests st !! tid) as [t|]; [|done].
  destruct (negb (bool_decide _)); [done|].
  destruct (negb _ && negb _); [done|].
  destruct (negb (_ || _)); [done|].
  destruct (List.find _ (reviews st)); [done|].
  create_review_step; [done|].
  rate_step.
  unfold updateUserRating_using, failingWrite, ReviewModel_aggregate_ratingStats.
  unfold_m. proj_state.
  destruct (List.filter _ _); proj_state;
    (destruct (users st !! u); proj_state; [|done]); by repeat send_step.
Qed.

(** ** The checks on the body of a review *)

Lemma rev_app_length s1 s2 :
  String.length (String.rev_app s1 s2) = (String.length s1 + String.length s2)%nat.
Proof.
  revert s2. induction s1 as [|c s1 IH]; intros s2; simpl; [done|].
  rewrite IH. simpl. lia.
Qed.

Lemma rev_length s : String.length (String.rev s) = String.length s.
Proof. unfold String.rev. rewrite rev_app_length. simpl. lia. Qed.

Lemma trimStart_length s : (String.length (trimStart s) ≤ String.length s)%nat.
Proof.
  induction s as [|c s IH]; simpl; [done|].
  destruct (is_js_whitespace c); simpl; lia.
Qed.

Lemma trim_length s : (String.length (trim s) ≤ String.length s)%nat.
Proof.
  unfold trim, trimEnd. rewrite rev_length.
  etrans; [apply trimStart_length|]. rewrite rev_length. apply trimStart_length.
Qed.

Lemma Qlt_bool_true x y : (x < y)%Q → Qlt_bool x y = true.
Proof.
  intros Hlt. unfold Qlt_bool. apply negb_true_iff.
  destruct (Qle_bool y x) eqn:Hle; [|done].
  apply Qle_bool_iff in Hle. exfalso. by apply (Qlt_not_le x y).
Qed.

Lemma Qlt_bool_false x y : (y <= x)%Q → Qlt_bool x y = false.
Proof.
  intros Hle. unfold Qlt_bool. apply negb_false_iff. by apply Qle_bool_iff.
Qed.

(** C7, as the code has it. The checks of [submitReview] on its body pass
    when the rating is a number from 1 to 5, whole or not, the text has at
    least one character after trimming and at most 500 before, and the
    reviewee id is a non-empty string; they throw the [ApiError] of class
    400 when the rating is missing, zero or outside 1 to 5, when the text
    is missing, empty after trimming or longer than 500 after trimming, or
    when the reviewee id is missing or empty. *)
Theorem review_body_checks rating review rid st :
  (∀ q txt r,
     rating = Some q → (1 <= q)%Q → (q <= 5)%Q →
     review = Some txt →
     (1 ≤ String.length (trim txt))%nat → (String.length txt ≤ 500)%nat →
     rid = Some r → r ≠ "" →
     submitReview_validate rating review rid st = (Return (q, txt, r), st))
  ∧ ((rating = None ∨ ∃ q, rating = Some q ∧ ((q == 0)%Q ∨ (q < 1)%Q ∨ (5 < q)%Q))
     ∨ (review = None
        ∨ ∃ txt, review = Some txt
                 ∧ (String.length (trim txt) = 0 ∨ (500 < String.length (trim txt))%nat))
     ∨ (rid = None ∨ rid = Some "") →
     ∃ msg, submitReview_validate rating review rid st = (Throw (ApiError 400 msg), st)).
Proof.
  split.
  - intros q txt r -> Hlo Hhi -> Htrim Hlen -> Hr.
    unfold submitReview_validate, truthyNumber.
    assert (Qeq_bool q 0 = false) as ->.
    { destruct (Qeq_bool q 0) eqn:Heq; [|done].
      apply Qeq_bool_iff in Heq. rewrite Heq in Hlo. by apply Qle_bool_iff in Hlo. }
    assert (txt ≠ "") as Htxt by (intros ->; vm_compute in Htrim; lia).
    rewrite !truthy_Some by done.
    rewrite !Qlt_bool_false by done. simpl.
    assert ((String.length (trim txt) =? 0)%nat = false) as ->
      by (apply Nat.eqb_neq; lia).
    assert ((500 <? String.length txt)%nat = false) as -> by (apply Nat.ltb_ge; lia).
    done.
  - intros Hbad.
    destruct (submitReview_validate_cases rating review rid st)
      as [[msg Hv]|(q & txt & r & Hv & Hq & Htxt & Hr)]; [by exists msg|].
    exfalso. revert Hv. unfold submitReview_validate. rewrite Hq, Htxt, Hr.
    apply truthy_Some_inv in Htxt as [-> Htxt], Hr as [-> Hr].
    unfold truthyNumber in Hq. destruct rating as [q'|]; [|done].
    destruct (Qeq_bool q' 0) eqn:Hzero; [done|]. injection Hq as ->.
    destruct Hbad as [[?|(q' & [= <-] & [Hz|[Hlo|Hhi]])]
                     |[[?|(txt' & [= <-] & [Hblank|Hlong])]|[?|[= ->]]]]; try done.
    + apply Qeq_bool_iff in Hz. congruence.
    + by rewrite (Qlt_bool_true q 1).
    + rewrite (Qlt_bool_true 5 q) by done. by rewrite orb_true_r.
    + destruct (_ || _); [done|]. rewrite Hblank. done.
    + destruct (_ || _); [done|].
      assert ((500 <? String.length txt)%nat = true) as ->.
      { apply Nat.ltb_lt. pose proof (trim_length txt). lia. }
      by rewrite orb_true_r.
Qed.

Lemma review_body_checks_witness :
  submitReview_validate (Some 4%Q) (Some " good ") (Some "u2") demoInitial
    = (Return (4%Q, " good ", "u2"), demoInitial).
Proof.
  apply (review_body_checks (Some 4%Q) (Some " good ") (Some "u2") demoInitial).
  - reflexivity.
  - vm_compute. discriminate.
  - vm_compute. discriminate.
  - reflexivity.
  - vm_compute. lia.
  - vm_compute. lia.
  - reflexivity.
  - discriminate.
Defined.

(** C7 as stated fails on two inputs: the rating 4.5 passes the checks and
    is stored, and a text of 501 characters whose trimmed length is 500 is
    refused. *)
Lemma review_body_checks_counterexample :
  submitReview_validate (Some (9 # 2)) (Some "fine") (Some "u2") demoCompleted
    = (Return (9 # 2, "fine", "u2"), demoCompleted)
  ∧ map Review.rating
      (reviews (handle (SubmitReview "u1" "t1" (Some (9 # 2)) (Some "fine") (Some "u2") "r1" 4)
                  demoCompleted)) = [9 # 2]
  ∧ String.length (trim longReview) = 500
  ∧ submitReview_validate (Some 5%Q) (Some longReview) (Some "u2")
      demoCompleted
    = (Throw (ApiError 400 "Review must be between 1 and 500 characters"), demoCompleted).
Proof. repeat split; vm_compute; reflexivity. Qed.

(** ** Chat history *)

Global Instance olderOrEqual_total : Total olderOrEqual.
Proof. intros m1 m2. unfold olderOrEqual. lia. Qed.

Global Instance olderOrEqual_trans : Transitive olderOrEqual.
Proof. intros m1 m2 m3. unfold olderOrEqual. lia. Qed.

Lemma getChatHistory_run u tid n st :
  ∃ l, getChatHistory u tid n st =
         (Return (mkApiResponse 200
                    (merge_sort olderOrEqual
                       (List.filter (λ m, bool_decide (Message.tradeId m = tid)) (messages st)))
                    "Chat history retrieved"),
          set_log (λ l0, l0 ++ l) (set_messages (map (markRead tid u n)) st)).
Proof. unfold_chat. by eexists. Qed.

(** C8. [getChatHistory] for trade [tid] and user [u] answers with the
    stored messages of [tid], each once, in order of creation time; after
    it every stored message is at the position it had, a message of [tid]
    whose receiver is [u] has [read = true] and its id, sender, receiver,
    trade, text and creation time as before, and every other message is
    exactly as it was. *)
Theorem read_marking u tid n st :
  ∃ msgs st',
    getChatHistory u tid n st = (Return (mkApiResponse 200 msgs "Chat history retrieved"), st')
    ∧ msgs ≡ₚ List.filter (λ m, bool_decide (Message.tradeId m = tid)) (messages st)
    ∧ StronglySorted olderOrEqual msgs
    ∧ length (messages st') = length (messages st)
    ∧ ∀ k m, messages st !! k = Some m →
        ∃ m', messages st' !! k = Some m'
          ∧ (Message.tradeId m = tid ∧ Message.receiver m = u →
             Message.read m' = true
             ∧ Message._id m' = Message._id m
             ∧ Message.sender m' = Message.sender m
             ∧ Message.receiver m' = Message.receiver m
             ∧ Message.tradeId m' = Message.tradeId m
             ∧ Message.message m' = Message.message m
             ∧ Message.createdAt m' = Message.createdAt m)
          ∧ (¬ (Message.tradeId m = tid ∧ Message.receiver m = u) → m' = m).
Proof.
  destruct (getChatHistory_run u tid n st) as [l Hrun].
  eexists _, _. split; [exact Hrun|]. proj_state.
  split; [apply merge_sort_Permutation|].
  split; [apply StronglySorted_merge_sort; apply _|].
  split; [apply length_map|].
  intros k m Hk. exists (markRead tid u n m).
  split; [by rewrite list_lookup_fmap, Hk|].
  unfold markRead, unreadInTrade. split.
  - intros [Htid Hu]. rewrite !bool_decide_eq_true_2 by done. simpl.
    destruct (Message.read m) eqn:Hread; simpl; done.
  - intros Hnot.
    destruct (bool_decide (Message.tradeId m = tid)) eqn:H1;
      destruct (bool_decide (Message.receiver m = u)) eqn:H2; simpl; try done.
    apply bool_decide_eq_true in H1, H2. by destruct Hnot.
Qed.

(** ** Trimming twice *)

Lemma string_app_cons c (s1 s2 : string) :
  (String c s1 +:+ s2)%string = String c (s1 +:+ s2)%string.
Proof. reflexivity. Qed.

Lemma string_app_nil_r (s : string) : (s +:+ "")%string = s.
Proof. induction s as [|c s IH]; [done|]. by rewrite string_app_cons, IH. Qed.

Lemma string_app_assoc (s1 s2 s3 : string) :
  (s1 +:+ (s2 +:+ s3))%string = ((s1 +:+ s2) +:+ s3)%string.
Proof. induction s1 as [|c s1 IH]; [done|]. by rewrite !string_app_cons, IH. Qed.

Lemma rev_app_app s1 s2 acc :
  String.rev_app (s1 +:+ s2)%string acc = String.rev_app s2 (String.rev_app s1 acc).
Proof.
  revert acc. induction s1 as [|c s1 IH]; intros acc; [done|].
  rewrite string_app_cons. simpl. apply IH.
Qed.

Lemma rev_app_acc s acc :
  String.rev_app s acc = (String.rev_app s "" +:+ acc)%string.
Proof.
  revert acc. induction s as [|c s IH]; intros acc; simpl; [done|].
  rewrite (IH (String c acc)), (IH (String c "")).
  by rewrite <- string_app_assoc.
Qed.

Lemma rev_app_distr s1 s2 :
  String.rev (s1 +:+ s2)%string = (String.rev s2 +:+ String.rev s1)%string.
Proof. unfold String.rev. rewrite rev_app_app. apply rev_app_acc. Qed.

Lemma rev_involutive s : String.rev (String.rev s) = s.
Proof.
  induction s as [|c s IH]; [done|].
  change (String c s) with ((String c "") +:+ s)%string at 1.
  rewrite rev_app_distr, rev_app_distr, IH. done.
Qed.

Lemma trimStart_noLeadingSpace s : noLeadingSpace (trimStart s).
Proof.
  induction s as [|c s IH]; simpl; [done|].
  destruct (is_js_whitespace c) eqn:Hc; [done|]. simpl. done.
Qed.

Lemma trimStart_id s : noLeadingSpace s → trimStart s = s.
Proof. destruct s as [|c s]; simpl; [done|]. by intros ->. Qed.

Lemma trimStart_suffix s : ∃ w, s = (w +:+ trimStart s)%string.
Proof.
  induction s as [|c s [w IH]]; simpl; [by exists ""|].
  destruct (is_js_whitespace c); [|by exists ""].
  exists (String c w). by rewrite string_app_cons, <- IH.
Qed.

Lemma trimEnd_prefix s : ∃ z, s = (trimEnd s +:+ z)%string.
Proof.
  unfold trimEnd. destruct (trimStart_suffix (String.rev s)) as [w Hw].
  exists (String.rev w).
  rewrite <- rev_app_distr, <- Hw. by rewrite rev_involutive.
Qed.

Lemma trimEnd_noLeadingSpace s : noLeadingSpace s → noLeadingSpace (trimEnd s).
Proof.
  intros Hs. destruct (trimEnd_prefix s) as [z Hz].
  destruct (trimEnd s) as [|c b]; [done|].
  rewrite Hz in Hs. done.
Qed.

Lemma trimEnd_idemp s : trimEnd (trimEnd s) = trimEnd s.
Proof.
  unfold trimEnd at 1. rewrite trimStart_id; [apply rev_involutive|].
  unfold trimEnd. rewrite rev_involutive. apply trimStart_noLeadingSpace.
Qed.

Lemma trim_idemp s : trim (trim s) = trim s.
Proof.
  unfold trim at 1. rewrite trimStart_id.
  - unfold trim. apply trimEnd_idemp.
  - unfold trim. apply trimEnd_noLeadingSpace, trimStart_noLeadingSpace.
Qed.

(** ** Sending a chat message *)

Lemma existsb_id_fresh i (l : list Message.doc) :
  (∀ m, m ∈ l → Message._id m ≠ i) →
  existsb (λ m, bool_decide (Message._id m = i)) l = false.
Proof.
  intros Hfresh. destruct (existsb _ l) eqn:Hex; [|done].
  apply existsb_exists in Hex as (m & Hin & Hid).
  apply bool_decide_eq_true in Hid. apply list_elem_of_In in Hin.
  by destruct (Hfresh m Hin).
Qed.

Lemma trim_nonempty s : trim s ≠ "" → s ≠ "".
Proof. intros Ht ->. by apply Ht. Qed.

(** C9. A [chat:send] on a joined socket with a receiver, a trade and a
    text that is not empty after trimming, the new id being unused: the
    message is appended to the collection with [read = false] and the
    trimmed text; the log grows by the write of the message, then what was
    delivered, then the [chat:sent] echo on the sender's socket; nothing is
    delivered when the receiver has no entry in [userSockets], and one
    [chat:receive] goes to the receiver's socket otherwise; and every later
    [getChatHistory] of the trade answers with the message, unread. *)
Theorem chat_persistence sock senderId receiverId text tid i n st :
  socketUserId st !! sock = Some senderId →
  senderId ≠ "" → receiverId ≠ "" → tid ≠ "" →
  trim text ≠ "" →
  (∀ m, m ∈ messages st → Message._id m ≠ i) →
  ∃ st' delivery,
    on_chat_send sock (Some receiverId) (Some text) (Some tid) i n st = (Return tt, st')
    ∧ messages st' =
        messages st ++ [Message.mk i senderId receiverId tid (trim text) false n n]
    ∧ log st' =
        log st ++ Saved "messages" i :: delivery
          ++ [Emitted sock "chat:sent"
                (messageData (Message.mk i senderId receiverId tid (trim text) false n n))]
    ∧ (userSockets st !! receiverId = None → delivery = [])
    ∧ (∀ rs, userSockets st !! receiverId = Some rs → rs ≠ "" →
         delivery =
           [Emitted rs "chat:receive"
              (messageData (Message.mk i senderId receiverId tid (trim text) false n n))])
    ∧ (∀ u n', ∃ history st'',
         getChatHistory u tid n' st' =
           (Return (mkApiResponse 200 history "Chat history retrieved"), st'')
         ∧ Message.mk i senderId receiverId tid (trim text) false n n ∈ history).
Proof.
  intros Hsock Hs Hr Ht Htext Hfresh.
  pose proof (trim_nonempty text Htext) as Htext'.
  assert (∀ st',
    messages st' = messages st ++ [Message.mk i senderId receiverId tid (trim text) false n n] →
    ∀ u n', ∃ history st'',
      getChatHistory u tid n' st' =
        (Return (mkApiResponse 200 history "Chat history retrieved"), st'')
      ∧ Message.mk i senderId receiverId tid (trim text) false n n ∈ history) as Hhist.
  { intros st' Hmsgs u n'. destruct (getChatHistory_run u tid n' st') as [l Hrun].
    eexists _, _. split; [exact Hrun|].
    rewrite merge_sort_Permutation. apply list_elem_of_In, filter_In. split.
    - apply list_elem_of_In. rewrite Hmsgs. apply elem_of_app. right.
      by apply list_elem_of_singleton.
    - simpl. by apply bool_decide_eq_true_2. }
  unfold on_chat_send. unfold bind at 1. unfold gets at 1. rewrite Hsock.
  rewrite !truthy_Some by done.
  unfold MessageModel_create, messageData. unfold_m. rewrite trim_idemp.
  rewrite bool_decide_eq_false_2 by done.
  rewrite existsb_id_fresh by done. simpl.
  destruct (userSockets st !! receiverId) as [rs|] eqn:Hrs; simpl; rewrite ?Hrs; simpl.
  - destruct (decide (rs = "")) as [->|Hne]; simpl; rewrite ?Hrs; simpl.
    + eexists _, []. split; [reflexivity|]. proj_state.
      split; [done|]. split; [by rewrite <- app_assoc|]. split; [done|].
      split; [by intros rs' [= <-] ?|]. by eapply Hhist.
    + rewrite decide_False by done.
      eexists _, [_]. split; [reflexivity|]. proj_state.
      split; [done|]. split; [by rewrite <- !app_assoc|]. split; [done|].
      split; [by intros rs' [= <-] ?|]. by eapply Hhist.
  - eexists _, []. split; [reflexivity|]. proj_state.
    split; [done|]. split; [by rewrite <- app_assoc|]. split; [done|].
    split; [done|]. by eapply Hhist.
Qed.

(** ** Presence *)

Lemma on_user_join_presence c u st :
  u ≠ "" →
  userSockets (on_user_join c (Some u) st).2 = <[u := c]> (userSockets st)
  ∧ socketUserId (on_user_join c (Some u) st).2 = <[c := u]> (socketUserId st)
  ∧ io (on_user_join c (Some u) st).2 = io st.
Proof.
  intros Hu. unfold on_user_join. rewrite truthy_Some by done.
  unfold_chat. repeat case_match; simplify_eq; done.
Qed.

Lemma on_disconnect_presence c u st :
  u ≠ "" →
  socketUserId st !! c = Some u →
  userSockets (on_disconnect c st).2 = delete u (userSockets st)
  ∧ socketUserId (on_disconnect c st).2 = socketUserId st
  ∧ io (on_disconnect c st).2 = io st.
Proof.
  intros Hu Hc. unfold on_disconnect. unfold_m. rewrite Hc.
  by rewrite truthy_Some.
Qed.

(** C10. After [user:join] of user [u] on socket [c1], [user:join] of [u]
    on socket [c2] and the disconnect of [c1]: after the second join the
    entry of [u] is [c2]; after the disconnect [userSockets] has no entry
    for [u] and [sendNotificationToUser] for [u] answers [false] without
    emitting anything, while socket [c2], if it is another socket, still
    carries the user id [u]. *)
Theorem stale_disconnect_drops_presence st u c1 c2 event payload :
  u ≠ "" →
  userSockets (run [UserJoin c1 (Some u); UserJoin c2 (Some u)] st) !! u = Some c2
  ∧ userSockets (run [UserJoin c1 (Some u); UserJoin c2 (Some u); Disconnect c1] st) !! u
    = None
  ∧ sendNotificationToUser u event payload
      (run [UserJoin c1 (Some u); UserJoin c2 (Some u); Disconnect c1] st)
    = (Return false, run [UserJoin c1 (Some u); UserJoin c2 (Some u); Disconnect c1] st)
  ∧ (c1 ≠ c2 →
     socketUserId (run [UserJoin c1 (Some u); UserJoin c2 (Some u); Disconnect c1] st) !! c2
     = Some u).
Proof.
  intros Hu. simpl.
  set (st1 := (on_user_join c1 (Some u) st).2).
  set (st2 := (on_user_join c2 (Some u) st1).2).
  destruct (on_user_join_presence c1 u st Hu) as (Hus1 & Hsu1 & _). fold st1 in Hus1, Hsu1.
  destruct (on_user_join_presence c2 u st1 Hu) as (Hus2 & Hsu2 & _). fold st2 in Hus2, Hsu2.
  assert (socketUserId st2 !! c1 = Some u) as Hc1.
  { rewrite Hsu2, Hsu1. destruct (decide (c2 = c1)) as [->|Hne].
    - apply lookup_insert_eq.
    - rewrite lookup_insert_ne by done. apply lookup_insert_eq. }
  destruct (on_disconnect_presence c1 u st2 Hu Hc1) as (Hus3 & Hsu3 & _).
  set (st3 := (on_disconnect c1 st2).2) in *.
  assert (userSockets st3 !! u = None) as Hgone.
  { rewrite Hus3. apply lookup_delete_eq. }
  split; [rewrite Hus2; apply lookup_insert_eq|]. split; [exact Hgone|]. split.
  - unfold sendNotificationToUser. unfold_m. by rewrite Hgone.
  - intros Hne. rewrite Hsu3, Hsu2. apply lookup_insert_eq.
Qed.

(** ** Review pairing *)

Lemma truthyNumber_Some q : (1 <= q)%Q → truthyNumber (Some q) = Some q.
Proof.
  intros Hq. unfold truthyNumber. destruct (Qeq_bool q 0) eqn:Hz; [|done].
  apply Qeq_bool_iff in Hz. rewrite Hz in Hq. unfold Qle in Hq. simpl in Hq. lia.
Qed.

(** The body checks pass on a rating from 1 to 5, a text with a character
    left after trimming and at most 500 characters, and a reviewee id. *)
Lemma submitReview_validate_passes q txt v st :
  (1 <= q)%Q → (q <= 5)%Q →
  (1 ≤ String.length (trim txt))%nat → (String.length txt ≤ 500)%nat →
  v ≠ "" →
  submitReview_validate (Some q) (Some txt) (Some v) st = (Return (q, txt, v), st).
Proof.
  intros Hlo Hhi Hlen1 Hlen2 Hv. unfold submitReview_validate.
  assert (txt ≠ "") as Htxt.
  { apply trim_nonempty. intros Hnil. rewrite Hnil in Hlen1. simpl in Hlen1. lia. }
  rewrite truthyNumber_Some by done. rewrite !truthy_Some by done.
  rewrite !Qlt_bool_false by done. simpl.
  rewrite (proj2 (Nat.eqb_neq _ _)) by lia.
  by rewrite (proj2 (Nat.ltb_ge _ _)).
Qed.

(** A review that passes the body checks, on a completed trade, by one
    participant for the other, with no stored review of the triple and a
    reviewer who has a user document, is stored and answered with 201. *)
Lemma submitReview_ok u v tid t q txt us i n st :
  tradeRequests st !! tid = Some t →
  TradeRequest.status t = "completed" →
  paired t u v →
  (1 <= q)%Q → (q <= 5)%Q →
  (1 ≤ String.length (trim txt))%nat → (String.length txt ≤ 500)%nat →
  v ≠ "" →
  (∀ r, r ∈ reviews st → tripleOf r ≠ (tid, u, v)) →
  (∀ r, r ∈ reviews st → Review._id r ≠ i) →
  users st !! u = Some us →
  ∃ l, submitReview u tid (Some q) (Some txt) (Some v) i n st
       = (Return (mkApiResponse 201
                    (freshReview i n tid u v q (trim txt) (skillReviewedBy t u))
                    "Review submitted successfully"),
          set_log (λ l0, l0 ++ l)
            (set_skillProfiles (zeroRating v)
               (set_reviews
                  (λ l0, l0 ++ [freshReview i n tid u v q (trim txt) (skillReviewedBy t u)])
                  st))).
Proof.
  intros Ht Hstatus Hpaired Hlo Hhi Hlen1 Hlen2 Hv Hnone Hfresh Hus.
  assert (∀ r, r ∈ reviews st → sameTriple tid u v r = false) as Hnone'.
  { intros r Hr. destruct (sameTriple tid u v r) eqn:Hsame; [|done].
    exfalso. apply (Hnone r Hr). unfold sameTriple in Hsame.
    rewrite !andb_true_iff, !bool_decide_eq_true in Hsame.
    destruct Hsame as [[H1 H2] H3]. unfold tripleOf. by rewrite H1, H2, H3. }
  unfold submitReview, submitReview_using. unfold bind at 1.
  rewrite submitReview_validate_passes by done.
  unfold TradeRequestModel_findById, ReviewModel_findOne. unfold_m. rewrite Ht.
  rewrite (bool_decide_eq_true_2 _ Hstatus). cbn [negb].
  assert (negb (bool_decide (TradeRequest.sender t = u))
          && negb (bool_decide (TradeRequest.receiver t = u)) = false) as ->.
  { destruct Hpaired as [[-> _]|[-> _]].
    - by rewrite bool_decide_eq_true_2.
    - rewrite (bool_decide_eq_true_2 (TradeRequest.receiver t = _)) by done.
      apply andb_false_r. }
  assert (negb
            (bool_decide (TradeRequest.sender t = u) && bool_decide (TradeRequest.receiver t = v)
             || bool_decide (TradeRequest.receiver t = u)
                && bool_decide (TradeRequest.sender t = v)) = false) as ->.
  { apply negb_false_iff, orb_true_iff.
    destruct Hpaired as [[-> ->]|[-> ->]]; [left|right];
      by rewrite !bool_decide_eq_true_2. }
  assert (List.find (sameTriple tid u v) (reviews st) = None) as ->.
  { destruct (List.find _ _) as [r|] eqn:Hfind; [|done].
    apply find_some in Hfind as [Hin Hsame]. apply list_elem_of_In in Hin.
    by rewrite (Hnone' r Hin) in Hsame. }
  fold (skillReviewedBy t u).
  destruct (ReviewModel_create_cases i n tid u v q (trim txt) (skillReviewedBy t u) st)
    as [[msg H]|[H _]]; [|rewrite H; clear H; proj_state].
  { exfalso. revert H. unfold ReviewModel_create. rewrite trim_idemp.
    rewrite !Qlt_bool_false by done. simpl.
    rewrite (bool_decide_eq_false_2 (trim txt = "")).
    2:{ intros Hnil. rewrite Hnil in Hlen1. simpl in Hlen1. lia. }
    pose proof (trim_length txt) as Hle.
    rewrite (proj2 (Nat.ltb_ge _ _)) by lia.
    assert (existsb (λ r, bool_decide (Review._id r = i) || sameTriple tid u v r) (reviews st)
            = false) as Hex.
    { destruct (existsb _ _) eqn:Hex; [|done].
      apply existsb_exists in Hex as (r & Hin & Hr). apply list_elem_of_In in Hin.
      apply orb_true_iff in Hr as [Hr|Hr].
      - apply bool_decide_eq_true in Hr. by destruct (Hfresh r Hin).
      - by rewrite (Hnone' r Hin) in Hr. }
    unfold_m. cbv beta. simpl. by rewrite Hex. }
  rate_step. rewrite Hus. proj_state. send_step.
  exists (Saved "reviews" i :: l ++ l0).
  unfold set_log, set_skillProfiles, set_reviews; simpl.
  by rewrite <- !app_assoc.
Qed.

(** C5, as the code has it. On a stored trade with status [completed]
    whose two participants differ: a [submitReview] that succeeds was made
    by a participant for the other participant, and the review it stored
    records the receiver's offered skill when the reviewer is the sender
    and the sender's offered skill when the reviewer is the receiver; a
    participant's review of the other participant that passes the body
    checks is accepted with 201 and stored with that skill when no review
    of the triple is stored and the reviewer has a user document; a
    participant naming anybody but the other participant, or nobody, gets
    an [ApiError] of class 400; somebody who is not a participant never
    succeeds, and gets the [ApiError] of class 403 when the body passes the
    checks on rating, text and reviewee id and the one of class 400 that
    these checks throw when it does not. Failures leave the state as it
    was. *)
Theorem review_pairing st tid t u rating review rid i n :
  tradeRequests st !! tid = Some t →
  TradeRequest.status t = "completed" →
  TradeRequest.sender t ≠ TradeRequest.receiver t →
  (∀ resp st',
     submitReview u tid rating review rid i n st = (Return resp, st') →
     u ∈ [TradeRequest.sender t; TradeRequest.receiver t]
     ∧ rid = Some (otherParty t u)
     ∧ Review.reviewer (data resp) = u
     ∧ Review.reviewee (data resp) = otherParty t u
     ∧ (u = TradeRequest.sender t →
        Review.skillReviewed (data resp) = TradeRequest.receiverOfferedSkill t)
     ∧ (u = TradeRequest.receiver t →
        Review.skillReviewed (data resp) = TradeRequest.senderOfferedSkill t)
     ∧ data resp ∈ reviews st')
  ∧ (∀ q txt us,
       u ∈ [TradeRequest.sender t; TradeRequest.receiver t] →
       rating = Some q → review = Some txt → rid = Some (otherParty t u) →
       otherParty t u ≠ "" →
       (1 <= q)%Q → (q <= 5)%Q →
       (1 ≤ String.length (trim txt))%nat → (String.length txt ≤ 500)%nat →
       (∀ r, r ∈ reviews st → tripleOf r ≠ (tid, u, otherParty t u)) →
       (∀ r, r ∈ reviews st → Review._id r ≠ i) →
       users st !! u = Some us →
       ∃ doc st',
         submitReview u tid rating review rid i n st
         = (Return (mkApiResponse 201 doc "Review submitted successfully"), st')
         ∧ reviews st' = reviews st ++ [doc]
         ∧ Review.tradeRequest doc = tid
         ∧ Review.reviewer doc = u
         ∧ Review.reviewee doc = otherParty t u
         ∧ Review.rating doc = q
         ∧ Review.review doc = trim txt
         ∧ Review.skillReviewed doc
           = (if decide (u = TradeRequest.sender t)
              then TradeRequest.receiverOfferedSkill t
              else TradeRequest.senderOfferedSkill t))
  ∧ (u ∈ [TradeRequest.sender t; TradeRequest.receiver t] →
     rid ≠ Some (otherParty t u) →
     ∃ msg, submitReview u tid rating review rid i n st = (Throw (ApiError 400 msg), st))
  ∧ (u ∉ [TradeRequest.sender t; TradeRequest.receiver t] →
     ((∃ v, submitReview_validate rating review rid st = (Return v, st))
      ∧ submitReview u tid rating review rid i n st
        = (Throw (ApiError 403 "You are not authorized to review this trade"), st))
     ∨ (∃ msg, submitReview_validate rating review rid st = (Throw (ApiError 400 msg), st)
               ∧ submitReview u tid rating review rid i n st
                 = (Throw (ApiError 400 msg), st))).
Proof.
  intros Ht Hstatus Hne. split; [|split; [|split]].
  - intros resp st' Hcall.
    pose proof (submitReview_inv u tid rating review rid i n st) as Hinv.
    rewrite Hcall in Hinv.
    destruct Hinv as [_ (t0 & q & txt & rid' & l & _ & _ & Hrid & Ht0 & _ & Hpaired
                         & _ & Hdoc & ->)].
    rewrite Ht in Ht0. injection Ht0 as <-.
    apply truthy_Some_inv in Hrid as [-> _]. rewrite Hdoc. simpl.
    unfold otherParty, skillReviewedBy.
    destruct Hpaired as [[-> ->]|[-> ->]].
    + rewrite decide_True by done. rewrite bool_decide_eq_true_2 by done.
      repeat split; try done; try congruence;
        try (apply elem_of_app; right; by apply list_elem_of_singleton).
      apply elem_of_cons; by left.
    + rewrite decide_False by congruence. rewrite bool_decide_eq_false_2 by done.
      repeat split; try done; try congruence;
        try (apply elem_of_app; right; by apply list_elem_of_singleton).
      apply elem_of_cons; right; apply elem_of_cons; by left.
  - intros q txt us Hu -> -> -> Hv Hlo Hhi Hlen1 Hlen2 Hnone Hfresh Hus.
    assert (paired t u (otherParty t u)) as Hpaired.
    { unfold paired, otherParty. rewrite !elem_of_cons in Hu.
      destruct Hu as [->|[->|Hnil]]; [| |by apply elem_of_nil in Hnil].
      - rewrite decide_True by done. auto.
      - rewrite decide_False by congruence. auto. }
    destruct (submitReview_ok u (otherParty t u) tid t q txt us i n st) as [l Hcall];
      try done.
    eexists _, _. split; [exact Hcall|]. proj_state.
    split; [done|]. unfold freshReview; simpl.
    split; [done|]. split; [done|]. split; [done|]. split; [done|].
    split; [apply trim_idemp|].
    unfold skillReviewedBy. case_decide as Hs.
    + by rewrite bool_decide_eq_true_2.
    + by rewrite bool_decide_eq_false_2.
  - intros Hu Hrid.
    unfold submitReview, submitReview_using. unfold bind at 1.
    destruct (submitReview_validate_cases rating review rid st)
      as [[msg ->]|(q & txt & rid' & -> & _ & _ & Hrid')]; [by eexists|].
    apply truthy_Some_inv in Hrid' as [-> _].
    unfold TradeRequestModel_findById. unfold_m. rewrite Ht.
    rewrite bool_decide_eq_true_2 by done. simpl.
    unfold otherParty in Hrid.
    rewrite !elem_of_cons in Hu. destruct Hu as [->|[->|Hnil]];
      [| |by apply elem_of_nil in Hnil].
    + rewrite decide_True in Hrid by done.
      rewrite (bool_decide_eq_true_2 (TradeRequest.sender t = TradeRequest.sender t)) by done.
      rewrite (bool_decide_eq_false_2 (TradeRequest.receiver t = TradeRequest.sender t))
        by congruence.
      rewrite (bool_decide_eq_false_2 (TradeRequest.receiver t = rid')) by congruence.
      simpl. by eexists.
    + rewrite decide_False in Hrid by congruence.
      rewrite (bool_decide_eq_true_2 (TradeRequest.receiver t = TradeRequest.receiver t))
        by done.
      rewrite (bool_decide_eq_false_2 (TradeRequest.sender t = TradeRequest.receiver t))
        by congruence.
      rewrite (bool_decide_eq_false_2 (TradeRequest.sender t = rid')) by congruence.
      simpl. by eexists.
  - intros Hu.
    assert (TradeRequest.sender t ≠ u ∧ TradeRequest.receiver t ≠ u) as [Hs Hr].
    { split; intros <-; apply Hu; rewrite !elem_of_cons; auto. }
    destruct (submitReview_validate_cases rating review rid st)
      as [[msg Hv]|(q & txt & rid' & Hv & _)].
    + right. exists msg. split; [exact Hv|].
      unfold submitReview, submitReview_using. unfold bind at 1. by rewrite Hv.
    + left. split; [by eexists|].
      unfold submitReview, submitReview_using. unfold bind at 1. rewrite Hv.
      unfold TradeRequestModel_findById. unfold_m. rewrite Ht.
      rewrite bool_decide_eq_true_2 by done.
      by rewrite !bool_decide_eq_false_2 by done.
Qed.

(** C5 as stated fails: on a completed trade, somebody who is not a
    participant and sends no rating is answered with the [ApiError] of
    class 400 that the body checks throw, not with the one of class 403. *)
Lemma review_pairing_counterexample :
  tradeRequests demoCompleted !! "t1"
  = Some (TradeRequest.mk "u1" "u2" "s1" "s2" "completed" ["u1"; "u2"] None 1 3)
  ∧ ("u3" ∉ ["u1"; "u2"])
  ∧ submitReview "u3" "t1" None (Some "great") (Some "u2") "r1" 4 demoCompleted
    = (Throw (ApiError 400 "Rating, review text, and reviewee ID are required"),
       demoCompleted)
  ∧ statusCodeOf (ApiError 400 "Rating, review text, and reviewee ID are required") ≠ 403.
Proof.
  split; [vm_compute; reflexivity|]. split.
  - rewrite !elem_of_cons, elem_of_nil. intros [?|[?|[]]]; discriminate.
  - split; [vm_compute; reflexivity|]. vm_compute. discriminate.
Qed.

(** ** The theorems at the example process *)

Lemma dual_confirmation_witness :
  ∃ r1 st1 r3 st3,
    updateTradeStatus "u1" "t1" (Some "completed") 2 demoProposed = (Return r1, st1)
    ∧ TradeRequest.status (data r1).2 = "pending"
    ∧ TradeRequest.completedBy (data r1).2 = ["u1"]
    ∧ updateTradeStatus "u2" "t1" (Some "completed") 4 st1 = (Return r3, st3)
    ∧ TradeRequest.status (data r3).2 = "completed"
    ∧ TradeRequest.completedBy (data r3).2 = ["u1"; "u2"].
Proof.
  destruct (dual_confirmation demoProposed "t1" demoTrade "u1" "u2" 2 3 4)
    as (r1 & st1 & _ & _ & _ & _ & r3 & st3 & H1 & _ & Hs1 & Hc1 & _ & _ & _ & _
        & _ & _ & _ & _ & H3 & _ & Hs3 & Hc3 & _).
  - vm_compute; reflexivity.
  - vm_compute. repeat split; eexists; reflexivity.
  - reflexivity.
  - vm_compute; discriminate.
  - left. split; reflexivity.
  - exists r1, st1, r3, st3. repeat split; assumption.
Defined.

Lemma duplicate_suppression_witness :
  createTradeRequest "u1" (Some "u2") (Some "s1") (Some "s2") (Some "again") "t9" 2
    demoProposed
  = (Throw (ApiError 400 "A pending trade already exists"), demoProposed).
Proof.
  destruct (duplicate_suppression "u1" (Some "u2") (Some "s1") (Some "s2") None "t1" 1
              demoInitial
              (mkApiResponse 201 ("t1", demoTrade) "Trade request created successfully")
              demoProposed)
    as (r' & a' & b' & Hr & Ha & Hb & Hstored & Hconflict & _).
  - vm_compute; reflexivity.
  - injection Hr as <-. injection Ha as <-. injection Hb as <-.
    apply (Hconflict demoProposed demoTrade (Some "again") "t9" 2).
    + vm_compute; reflexivity.
    + vm_compute; reflexivity.
Defined.

Lemma review_exclusivity_witness :
  ∃ msg,
    submitReview "u1" "t1" (Some 1%Q) (Some "changed my mind") (Some "u2") "r2" 9 demoReviewed
    = (Throw (ApiError 400 msg), demoReviewed).
Proof.
  apply (review_exclusivity demoReviewed demoReview (Some 1%Q) (Some "changed my mind") "r2" 9).
  - unfold demoReviewed, demoCompleted, demoProposed, demoInitial.
    do 3 apply run_reachable. constructor.
  - vm_compute. left.
Defined.

Lemma review_pairing_witness :
  ∃ doc st',
    submitReview "u1" "t1" (Some 5%Q) (Some "great") (Some "u2") "r1" 4 demoCompleted
    = (Return (mkApiResponse 201 doc "Review submitted successfully"), st')
    ∧ reviews st' = reviews demoCompleted ++ [doc]
    ∧ Review.reviewee doc = "u2"
    ∧ Review.skillReviewed doc = "s2".
Proof.
  destruct (review_pairing demoCompleted "t1"
              (TradeRequest.mk "u1" "u2" "s1" "s2" "completed" ["u1"; "u2"] None 1 3)
              "u1" (Some 5%Q) (Some "great") (Some "u2") "r1" 4)
    as (_ & Haccepted & _).
  - vm_compute; reflexivity.
  - reflexivity.
  - discriminate.
  - assert (reviews demoCompleted = []) as Hnil by (vm_compute; reflexivity).
    destruct (Haccepted 5%Q "great" (User.mk "Ann" "ann.png"))
      as (doc & st' & Hcall & Hreviews & _ & _ & Hreviewee & _ & _ & Hskill).
    + apply elem_of_cons. left. reflexivity.
    + reflexivity.
    + reflexivity.
    + reflexivity.
    + discriminate.
    + unfold Qle. simpl. lia.
    + unfold Qle. simpl. lia.
    + vm_compute. lia.
    + vm_compute. lia.
    + intros r Hr. rewrite Hnil in Hr. by apply elem_of_nil in Hr.
    + intros r Hr. rewrite Hnil in Hr. by apply elem_of_nil in Hr.
    + vm_compute; reflexivity.
    + exists doc, st'. split; [exact Hcall|]. split; [exact Hreviews|].
      split; [exact Hreviewee|exact Hskill].
Defined.

Lemma chat_persistence_witness :
  ∃ st' (delivery : list effect),
    on_chat_send "c1" (Some "u2") (Some " hello ") (Some "t1") "m1" 5 demoJoined
      = (Return tt, st')
    ∧ messages st' = [Message.mk "m1" "u1" "u2" "t1" "hello" false 5 5]
    ∧ delivery = [].
Proof.
  destruct (chat_persistence "c1" "u1" "u2" " hello " "t1" "m1" 5 demoJoined)
    as (st' & delivery & Hsend & Hmsgs & _ & Habsent & _).
  - vm_compute; reflexivity.
  - discriminate.
  - discriminate.
  - discriminate.
  - vm_compute; discriminate.
  - intros m Hm. vm_compute in Hm. by apply elem_of_nil in Hm.
  - exists st', delivery. split; [exact Hsend|]. split; [exact Hmsgs|].
    apply Habsent. vm_compute; reflexivity.
Defined.

Lemma stale_disconnect_drops_presence_witness :
  userSockets (run [UserJoin "c1" (Some "u1"); UserJoin "c2" (Some "u1"); Disconnect "c1"]
                 demoInitial) !! "u1" = None.
Proof.
  destruct (stale_disconnect_drops_presence demoInitial "u1" "c1" "c2"
              NOTIFICATION_EVENTS.TRADE_REQUEST_RECEIVED JNull) as (_ & Hgone & _).
  - discriminate.
  - exact Hgone.
Defined.

(** * More properties of the code *)

(** ** More invariants of the reachable states *)

Lemma NoDup_within_two {A} (l : list A) (a b : A) :
  NoDup l → (∀ x, x ∈ l → x = a ∨ x = b) → (length l ≤ 2)%nat.
Proof.
  intros Hnd Hsub.
  destruct l as [|x [|y [|z l]]]; simpl; try lia.
  exfalso.
  apply NoDup_cons in Hnd as [Hx Hnd]. apply NoDup_cons in Hnd as [Hy Hnd].
  apply not_elem_of_cons in Hx as [Hxy Hx]. apply not_elem_of_cons in Hx as [Hxz _].
  apply not_elem_of_cons in Hy as [Hyz _].
  destruct (Hsub x) as [->| ->], (Hsub y) as [->| ->], (Hsub z) as [->| ->];
    rewrite ?elem_of_cons; auto; congruence.
Qed.

Lemma NoDup_within_one {A} (l : list A) (a : A) :
  NoDup l → (∀ x, x ∈ l → x = a) → (length l ≤ 1)%nat.
Proof.
  intros Hnd Hsub.
  destruct l as [|x [|y l]]; simpl; try lia.
  exfalso.
  apply NoDup_cons in Hnd as [Hx _]. apply not_elem_of_cons in Hx as [Hxy _].
  rewrite (Hsub x), (Hsub y) in Hxy; rewrite ?elem_of_cons; auto.
Qed.

Lemma nextTrade_completionInvariant u s n t :
  u ∈ [TradeRequest.sender t; TradeRequest.receiver t] →
  completionInvariant t → completionInvariant (nextTrade u s n t).
Proof.
  intros Hu (Hnd & Hsub & Hst & Hlen). unfold nextTrade.
  case_decide.
  { split; [done|]. split; [done|]. split; [simpl; rewrite !elem_of_cons; auto|].
    simpl. discriminate. }
  case_decide.
  { split; [done|]. split; [done|]. split; [simpl; rewrite !elem_of_cons; auto|].
    simpl. discriminate. }
  unfold markComplete.
  set (cb := if bool_decide (u ∈ TradeRequest.completedBy t)
             then TradeRequest.completedBy t else TradeRequest.completedBy t ++ [u]).
  assert (NoDup cb ∧ ∀ x, x ∈ cb → x = TradeRequest.sender t ∨ x = TradeRequest.receiver t)
    as [Hnd' Hsub'].
  { unfold cb. case_bool_decide as Hin; [done|]. split.
    - apply NoDup_app. split; [done|]. split; [|apply NoDup_singleton].
      intros x Hx Hx'. apply list_elem_of_singleton in Hx' as ->. done.
    - intros x Hx. apply elem_of_app in Hx as [Hx|Hx]; [by apply Hsub|].
      apply list_elem_of_singleton in Hx as ->.
      rewrite !elem_of_cons in Hu. destruct Hu as [->|[->|Hu]]; auto.
      by apply elem_of_nil in Hu. }
  assert (length (TradeRequest.completedBy t) ≤ length cb)%nat as Hgrow.
  { unfold cb. case_bool_decide; [done|]. rewrite length_app. lia. }
  pose proof (NoDup_within_two cb _ _ Hnd' Hsub') as Hle.
  destruct (bool_decide (length cb = 2) && _ && _) eqn:Hboth; simpl.
  - split; [done|]. split; [done|]. split; [simpl; rewrite !elem_of_cons; auto|].
    simpl. intros _. apply andb_true_iff in Hboth as [Hboth _].
    apply andb_true_iff in Hboth as [Hboth _]. by apply bool_decide_eq_true in Hboth.
  - split; [done|]. split; [done|]. split; [done|].
    simpl. intros Hc. specialize (Hlen Hc). lia.
Qed.

Lemma reachable_completionInvariant st :
  reachable st → ∀ id t, tradeRequests st !! id = Some t → completionInvariant t.
Proof.
  induction 1 as [users skills skillProfiles|st rq _ IH]; intros id t.
  - unfold initial; simpl. by rewrite lookup_empty.
  - destruct (handle_effect rq st) as [Htr _|i s r a b m n _ Htr _
                                      |id' t0 u s n Ht0 Hu _ Htr _|doc t0 Htr _ _ _ _ _];
      rewrite Htr.
    + apply IH.
    + rewrite lookup_insert. case_decide; [|apply IH].
      intros [= <-]. split; [constructor|]. split; [|split].
      * intros x Hx. by apply elem_of_nil in Hx.
      * simpl. rewrite !elem_of_cons; auto.
      * simpl. discriminate.
    + rewrite lookup_insert. case_decide; [|apply IH].
      intros [= <-]. apply nextTrade_completionInvariant; [done|]. by eapply IH.
    + apply IH.
Qed.

(** A trade with status [completed] has two different participants. *)
Lemma completionInvariant_distinct t :
  completionInvariant t →
  TradeRequest.status t = "completed" →
  TradeRequest.sender t ≠ TradeRequest.receiver t.
Proof.
  intros (Hnd & Hsub & _ & Hlen) Hc Heq. specialize (Hlen Hc).
  assert (length (TradeRequest.completedBy t) ≤ 1)%nat; [|lia].
  apply (NoDup_within_one _ (TradeRequest.sender t)); [done|].
  intros x Hx. destruct (Hsub x Hx) as [->| ->]; congruence.
Qed.

(** X1. In every reachable state the [completedBy] of a stored trade lists
    each user at most once, lists participants only and so has at most two
    entries, and the status is one of [pending], [accepted], [rejected] and
    [completed]; a trade with status [completed] has two different
    participants, both of them listed; and a trade whose sender is also its
    receiver, which [createTradeRequest] stores when the body names the
    caller's own id in upper case, has at most one entry in [completedBy]
    and never the status [completed]. *)
Theorem stored_trade_shape st id t :
  reachable st →
  tradeRequests st !! id = Some t →
  NoDup (TradeRequest.completedBy t)
  ∧ (∀ x, x ∈ TradeRequest.completedBy t →
       x = TradeRequest.sender t ∨ x = TradeRequest.receiver t)
  ∧ (length (TradeRequest.completedBy t) ≤ 2)%nat
  ∧ TradeRequest.status t ∈ ["pending"; "accepted"; "rejected"; "completed"]
  ∧ (TradeRequest.status t = "completed" →
     TradeRequest.sender t ≠ TradeRequest.receiver t
     ∧ length (TradeRequest.completedBy t) = 2
     ∧ TradeRequest.sender t ∈ TradeRequest.completedBy t
     ∧ TradeRequest.receiver t ∈ TradeRequest.completedBy t)
  ∧ (TradeRequest.sender t = TradeRequest.receiver t →
     (length (TradeRequest.completedBy t) ≤ 1)%nat
     ∧ TradeRequest.status t ≠ "completed").
Proof.
  intros Hreach Ht.
  pose proof (reachable_completionInvariant st Hreach id t Ht) as Hinv.
  pose proof (completionInvariant_distinct t Hinv) as Hdistinct.
  destruct Hinv as (Hnd & Hsub & Hst & Hlen).
  destruct (reachable_wellFormed st Hreach) as (Htrades & _).
  pose proof (Htrades id t Ht) as Hboth. unfold tradeInvariant in Hboth.
  split; [done|]. split; [done|]. split; [by eapply NoDup_within_two|].
  split; [done|]. split.
  - intros Hc. destruct (Hboth Hc). auto.
  - intros Heq. split.
    + apply (NoDup_within_one _ (TradeRequest.sender t)); [done|].
      intros x Hx. destruct (Hsub x Hx) as [->| ->]; congruence.
    + intros Hc. by apply Hdistinct.
Qed.

Lemma demoCompleted_reachable : reachable demoCompleted.
Proof.
  unfold demoCompleted, demoProposed, demoInitial.
  do 2 apply run_reachable. constructor.
Qed.

Lemma stored_trade_shape_witness :
  TradeRequest.sender (TradeRequest.mk "u1" "u2" "s1" "s2" "completed" ["u1"; "u2"] None 1 3)
  ≠ TradeRequest.receiver
      (TradeRequest.mk "u1" "u2" "s1" "s2" "completed" ["u1"; "u2"] None 1 3).
Proof.
  destruct (stored_trade_shape demoCompleted "t1"
              (TradeRequest.mk "u1" "u2" "s1" "s2" "completed" ["u1"; "u2"] None 1 3))
    as (_ & _ & _ & _ & Hcompleted & _).
  - apply demoCompleted_reachable.
  - vm_compute; reflexivity.
  - apply Hcompleted. reflexivity.
Defined.

Lemma Qlt_bool_false_inv x y : Qlt_bool x y = false → (y <= x)%Q.
Proof. unfold Qlt_bool. intros H. apply negb_false_iff in H. by apply Qle_bool_iff. Qed.

(** The body checks, once the three values are present. *)
Lemma submitReview_validate_ranges rating review rid q txt r st :
  truthyNumber rating = Some q → truthy review = Some txt → truthy rid = Some r →
  (∃ msg, submitReview_validate rating review rid st = (Throw (ApiError 400 msg), st))
  ∨ (submitReview_validate rating review rid st = (Return (q, txt, r), st)
     ∧ (1 <= q)%Q ∧ (q <= 5)%Q
     ∧ (1 ≤ String.length (trim txt))%nat ∧ (String.length txt ≤ 500)%nat).
Proof.
  intros Hq Htxt Hr. unfold submitReview_validate. rewrite Hq, Htxt, Hr.
  destruct (Qlt_bool q 1) eqn:Hlo; simpl; [left; by eexists|].
  destruct (Qlt_bool 5 q) eqn:Hhi; simpl; [left; by eexists|].
  destruct (String.length (trim txt) =? 0)%nat eqn:Hblank; simpl; [left; by eexists|].
  destruct (500 <? String.length txt)%nat eqn:Hlong; simpl; [left; by eexists|].
  right. apply Qlt_bool_false_inv in Hlo, Hhi.
  apply Nat.eqb_neq in Hblank. apply Nat.ltb_ge in Hlong.
  repeat split; try done. lia.
Qed.

Lemma submitReview_validate_throws u tid rating review rid i n st msg :
  submitReview_validate rating review rid st = (Throw (ApiError 400 msg), st) →
  submitReview u tid rating review rid i n st = (Throw (ApiError 400 msg), st).
Proof.
  intros Hv. unfold submitReview, submitReview_using. unfold bind at 1. by rewrite Hv.
Qed.

(** What one request does to the reviews: nothing, or it appends one
    review that passed the body checks, on a completed trade between its
    reviewer and its reviewee. *)
Lemma handle_reviews rq st :
  tradeRequests (handle rq st) = tradeRequests st ∧ reviews (handle rq st) = reviews st
  ∨ reviews (handle rq st) = reviews st
  ∨ ∃ t q txt u tid rid i n,
      tradeRequests st !! tid = Some t
      ∧ TradeRequest.status t = "completed"
      ∧ paired t u rid
      ∧ (1 <= q)%Q ∧ (q <= 5)%Q
      ∧ (1 ≤ String.length (trim txt))%nat ∧ (String.length txt ≤ 500)%nat
      ∧ tradeRequests (handle rq st) = tradeRequests st
      ∧ reviews (handle rq st)
        = reviews st ++ [freshReview i n tid u rid q (trim txt) (skillReviewedBy t u)].
Proof.
  destruct rq as [s r a b m i n|u id s n|u tid rating review rid i n|u t n|s u|s r m t i n|s];
    simpl.
  - right; left.
    pose proof (createTradeRequest_inv s r a b m i n st) as Hinv.
    destruct (createTradeRequest s r a b m i n st) as [[resp|[c msg|msg|msg]] st']; simpl.
    + by destruct Hinv as (r' & a' & b' & l & _ & _ & _ & _ & _ & _ & _ & ->).
    + by destruct Hinv as [_ ->].
    + by destruct Hinv as (r' & a' & b' & _ & _ & _ & _ & _ & ->).
    + by subst.
  - right; left.
    pose proof (updateTradeStatus_inv u id s n st) as Hinv.
    destruct (updateTradeStatus u id s n st) as [[resp|e] st']; simpl.
    + by destruct Hinv as (t & l & _ & _ & _ & _ & ->).
    + by subst.
  - pose proof (submitReview_inv u tid rating review rid i n st) as Hinv.
    destruct (submitReview u tid rating review rid i n st) as [[resp|[c msg|msg|msg]] st']
      eqn:Hcall; simpl.
    + destruct Hinv as [_ (t & q & txt & rid' & l & Hq & Htxt & Hrid & Ht & Hst & Hp & _
                           & Hdoc & ->)].
      destruct (submitReview_validate_ranges rating review rid q txt rid' st Hq Htxt Hrid)
        as [[msg Hv]|(_ & ? & ? & ? & ?)].
      { apply (submitReview_validate_throws u tid rating review rid i n) in Hv.
        rewrite Hv in Hcall. discriminate Hcall. }
      right; right. exists t, q, txt, u, tid, rid', i, n. rewrite Hdoc.
      repeat split; done.
    + left. by subst.
    + destruct Hinv as [doc (t & q & txt & rid' & l & Hq & Htxt & Hrid & Ht & Hst & Hp & _
                               & Hdoc & ->)].
      destruct (submitReview_validate_ranges rating review rid q txt rid' st Hq Htxt Hrid)
        as [[msg' Hv]|(_ & ? & ? & ? & ?)].
      { apply (submitReview_validate_throws u tid rating review rid i n) in Hv.
        rewrite Hv in Hcall. discriminate Hcall. }
      right; right. exists t, q, txt, u, tid, rid', i, n. rewrite Hdoc.
      repeat split; done.
    + left. by subst.
  - left. by destruct (getChatHistory_frame u t n st) as (? & ? & _).
  - left. by destruct (on_user_join_frame s u st) as (? & ? & _).
  - left. by destruct (on_chat_send_frame s r m t i n st) as (? & ? & _).
  - left. by destruct (on_disconnect_frame s st) as (? & ? & _).
Qed.

Lemma tradeStep_skillReviewedBy t t' u :
  tradeStep t t' → skillReviewedBy t' u = skillReviewedBy t u.
Proof.
  intros (Hs & _ & Ha & Hb & _). unfold skillReviewedBy. by rewrite Hs, Ha, Hb.
Qed.

Lemma reachable_reviewInvariant st :
  reachable st → ∀ r, r ∈ reviews st → reviewInvariant st r.
Proof.
  induction 1 as [users skills skillProfiles|st rq Hreach IH]; intros r Hr.
  - by apply elem_of_nil in Hr.
  - assert (∀ r, r ∈ reviews st → reviewInvariant (handle rq st) r) as Hold.
    { intros r0 Hr0. destruct (IH r0 Hr0) as (t & Ht & Hp & Hne & Hsk & Hrest).
      destruct (handle_tradeStep rq st _ t Ht) as (t' & Ht' & Hstep).
      exists t'. split; [done|]. split; [by eapply tradeStep_paired|].
      split; [destruct Hstep as (Hs & Hr' & _); by rewrite Hs, Hr'|].
      split; [by rewrite (tradeStep_skillReviewedBy t t')|]. done. }
    destruct (handle_reviews rq st)
      as [[_ Hrv]|[Hrv|(t & q & txt & u & tid & rid & i & n & Ht & Hcompleted & Hp & Hlo & Hhi
                        & Hlen1 & Hlen2 & Htr & Hrv)]];
      rewrite Hrv in Hr; [by apply Hold|by apply Hold|].
    apply elem_of_app in Hr as [Hr|Hr]; [by apply Hold|].
    apply list_elem_of_singleton in Hr as ->.
    pose proof (completionInvariant_distinct t
                  (reachable_completionInvariant st Hreach tid t Ht) Hcompleted) as Hne.
    exists t. unfold freshReview; simpl. rewrite Htr, !trim_idemp.
    repeat split; try done.
    pose proof (trim_length txt). lia.
Qed.

(** X2. In every reachable state a stored review refers to a stored trade
    of which its reviewer and its reviewee are the two participants, so
    nobody has reviewed themself; it records the skill that the reviewee
    offered in that trade; its rating is between 1 and 5; and its text is
    trimmed and has between 1 and 500 characters. *)
Theorem stored_review_shape st r :
  reachable st →
  r ∈ reviews st →
  ∃ t,
    tradeRequests st !! Review.tradeRequest r = Some t
    ∧ paired t (Review.reviewer r) (Review.reviewee r)
    ∧ Review.reviewer r ≠ Review.reviewee r
    ∧ (Review.reviewee r = TradeRequest.receiver t →
       Review.skillReviewed r = TradeRequest.receiverOfferedSkill t)
    ∧ (Review.reviewee r = TradeRequest.sender t →
       Review.skillReviewed r = TradeRequest.senderOfferedSkill t)
    ∧ (1 <= Review.rating r)%Q ∧ (Review.rating r <= 5)%Q
    ∧ (1 ≤ String.length (Review.review r))%nat
    ∧ (String.length (Review.review r) ≤ 500)%nat
    ∧ trim (Review.review r) = Review.review r.
Proof.
  intros Hreach Hr.
  destruct (reachable_reviewInvariant st Hreach r Hr)
    as (t & Ht & Hp & Hne & Hsk & Hlo & Hhi & Hlen1 & Hlen2 & Htrim).
  exists t. split; [done|]. split; [done|].
  unfold skillReviewedBy in Hsk.
  split; [destruct Hp as [[-> ->]|[-> ->]]; congruence|].
  split; [|split].
  - intros Hee. rewrite Hsk.
    destruct Hp as [[Her _]|[_ Hee']]; [|congruence].
    by rewrite bool_decide_eq_true_2.
  - intros Hee. rewrite Hsk.
    destruct Hp as [[_ Hee']|[Her _]]; [congruence|].
    rewrite bool_decide_eq_false_2; [done|]. congruence.
  - done.
Qed.

Lemma demoReviewed_reachable : reachable demoReviewed.
Proof. unfold demoReviewed. apply run_reachable, demoCompleted_reachable. Qed.

Lemma stored_review_shape_witness :
  Review.reviewer demoReview ≠ Review.reviewee demoReview
  ∧ (Review.rating demoReview <= 5)%Q.
Proof.
  destruct (stored_review_shape demoReviewed demoReview)
    as (t & _ & _ & Hne & _ & _ & _ & Hhi & _).
  - apply demoReviewed_reachable.
  - vm_compute. left.
  - split; [exact Hne|exact Hhi].
Defined.

(** ** The reviews of one trade *)

Lemma NoDup_fmap_filter {A B} (f : A → B) (p : A → bool) (l : list A) :
  NoDup (f <$> l) → NoDup (f <$> List.filter p l).
Proof.
  induction l as [|a l IH]; [done|].
  rewrite fmap_cons. intros [Hnotin Hnd]%NoDup_cons. simpl.
  destruct (p a); [|by apply IH].
  rewrite fmap_cons. apply NoDup_cons. split; [|by apply IH].
  intros Hin. apply Hnotin.
  apply list_elem_of_fmap in Hin as (x & -> & Hx).
  apply list_elem_of_fmap_2. apply list_elem_of_In in Hx.
  apply filter_In in Hx as [Hx _]. by apply list_elem_of_In.
Qed.

Lemma NoDup_fmap_coarser {A B C} (f : A → B) (g : A → C) (l : list A) :
  (∀ x y, x ∈ l → y ∈ l → g x = g y → f x = f y) →
  NoDup (f <$> l) → NoDup (g <$> l).
Proof.
  induction l as [|a l IH]; intros Hfg; [constructor|].
  rewrite !fmap_cons. intros [Hnotin Hnd]%NoDup_cons.
  apply NoDup_cons. split.
  - intros Hin. apply Hnotin.
    apply list_elem_of_fmap in Hin as (x & Heq & Hx).
    rewrite (Hfg a x); [by apply list_elem_of_fmap_2| |by right|done]. by left.
  - apply IH; [|done]. intros x y Hx Hy. apply Hfg; by right.
Qed.

(** X3. [getTradeReviews] in a reachable state: an unknown trade is
    answered with the [ApiError] of class 404 and somebody who is not a
    participant with the one of class 403; a participant gets the stored
    reviews of the trade, which are at most two, are written by different
    reviewers and have the two participants as reviewer and reviewee. The
    state is never changed. *)
Theorem trade_reviews st u tid :
  reachable st →
  match tradeRequests st !! tid with
  | None =>
      getTradeReviews u tid st = (Throw (ApiError 404 "Trade request not found"), st)
  | Some t =>
      if bool_decide (u ∈ [TradeRequest.sender t; TradeRequest.receiver t]) then
        ∃ rs,
          getTradeReviews u tid st
            = (Return (mkApiResponse 200 rs "Trade reviews retrieved successfully"), st)
          ∧ (∀ r, r ∈ rs ↔ r ∈ reviews st ∧ Review.tradeRequest r = tid)
          ∧ (length rs ≤ 2)%nat
          ∧ NoDup (Review.reviewer <$> rs)
          ∧ (∀ r, r ∈ rs → paired t (Review.reviewer r) (Review.reviewee r))
      else
        getTradeReviews u tid st
          = (Throw (ApiError 403 "You are not authorized to view reviews for this trade"), st)
  end.
Proof.
  intros Hreach. unfold getTradeReviews, ReviewModel_find. unfold_m.
  destruct (tradeRequests st !! tid) as [t|] eqn:Ht; [|done].
  assert (bool_decide (TradeRequest.sender t = u) || bool_decide (TradeRequest.receiver t = u)
          = bool_decide (u ∈ [TradeRequest.sender t; TradeRequest.receiver t])) as ->.
  { apply eq_true_iff_eq. rewrite orb_true_iff, !bool_decide_eq_true, !elem_of_cons.
    split; [intros [<-|<-]; auto|].
    intros [->|[->|Hnil]]; auto. by apply elem_of_nil in Hnil. }
  case_bool_decide as Hu; simpl; [|done].
  set (rs := List.filter (λ r, bool_decide (Review.tradeRequest r = tid)) (reviews st)).
  assert (∀ r, r ∈ rs ↔ r ∈ reviews st ∧ Review.tradeRequest r = tid) as Hrs.
  { intros r. unfold rs. rewrite !list_elem_of_In, filter_In, bool_decide_eq_true. done. }
  destruct (reachable_wellFormed st Hreach) as (_ & Hreviews & Hnodup).
  assert (∀ r, r ∈ rs → paired t (Review.reviewer r) (Review.reviewee r)) as Hpaired.
  { intros r [Hr Htid]%Hrs. destruct (Hreviews r Hr) as (t' & Ht' & Hp).
    rewrite Htid, Ht in Ht'. by injection Ht' as <-. }
  assert (NoDup (Review.reviewer <$> rs)) as Hnd.
  { apply (NoDup_fmap_coarser tripleOf); [|by apply NoDup_fmap_filter].
    intros x y Hx Hy Heq. unfold tripleOf.
    pose proof (Hpaired x Hx) as Hpx. pose proof (Hpaired y Hy) as Hpy.
    apply Hrs in Hx as [_ ->], Hy as [_ ->].
    destruct Hpx as [[Hx1 Hx2]|[Hx1 Hx2]], Hpy as [[Hy1 Hy2]|[Hy1 Hy2]]; congruence. }
  exists rs. split; [done|]. split; [done|]. split; [|done].
  rewrite <- (length_fmap Review.reviewer).
  apply (NoDup_within_two _ (TradeRequest.sender t) (TradeRequest.receiver t)); [done|].
  intros x (r & -> & Hr)%list_elem_of_fmap.
  destruct (Hpaired r Hr) as [[-> _]|[-> _]]; auto.
Qed.

Lemma trade_reviews_witness :
  ∃ rs, getTradeReviews "u2" "t1" demoReviewed
        = (Return (mkApiResponse 200 rs "Trade reviews retrieved successfully"), demoReviewed)
        ∧ (length rs ≤ 2)%nat.
Proof.
  pose proof (trade_reviews demoReviewed "u2" "t1" demoReviewed_reachable) as H.
  assert (tradeRequests demoReviewed !! "t1"
          = Some (TradeRequest.mk "u1" "u2" "s1" "s2" "completed" ["u1"; "u2"] None 1 3))
    as Heq by (vm_compute; reflexivity).
  rewrite Heq in H. rewrite bool_decide_eq_true_2 in H.
  - destruct H as (rs & Hcall & _ & Hlen & _).
    exists rs. split; [exact Hcall|exact Hlen].
  - apply elem_of_cons. right. apply elem_of_cons. left. reflexivity.
Defined.

(** ** The life of one message *)

(** Every answer of [chat:send]: either nothing is stored and the sender's
    socket gets one [chat:error], or one unread message with a trimmed,
    non-empty text is appended and the sender's socket gets [chat:sent]
    after whatever was delivered. The handler never throws. *)
Lemma on_chat_send_cases sock r m t i n st :
  (∃ err,
     ((err = "Missing required fields"
       ∧ (truthy (socketUserId st !! sock) = None ∨ truthy r = None
          ∨ truthy m = None ∨ truthy t = None))
      ∨ (err = "Failed to send message"
         ∧ ∃ text, m = Some text
             ∧ (trim text = "" ∨ ∃ m', m' ∈ messages st ∧ Message._id m' = i)))
     ∧ on_chat_send sock r m t i n st
       = (Return tt,
          set_log (λ l, l ++ [Emitted sock "chat:error" (JObj [("message", JStr err)])]) st))
  ∨ (∃ senderId receiverId text tid delivery,
       socketUserId st !! sock = Some senderId
       ∧ r = Some receiverId ∧ m = Some text ∧ t = Some tid
       ∧ senderId ≠ "" ∧ receiverId ≠ "" ∧ tid ≠ "" ∧ trim text ≠ ""
       ∧ (∀ m', m' ∈ messages st → Message._id m' ≠ i)
       ∧ delivery
         = match truthy (userSockets st !! receiverId) with
           | Some rs =>
               [Emitted rs "chat:receive"
                  (messageData (Message.mk i senderId receiverId tid (trim text) false n n))]
           | None => []
           end
       ∧ on_chat_send sock r m t i n st
         = (Return tt,
            set_log (λ l, l ++ Saved "messages" i :: delivery
                            ++ [Emitted sock "chat:sent"
                                  (messageData
                                     (Message.mk i senderId receiverId tid (trim text)
                                        false n n))])
              (set_messages
                 (λ l, l ++ [Message.mk i senderId receiverId tid (trim text) false n n])
                 st))).
Proof.
  remember (on_chat_send sock r m t i n st) as res eqn:Hres.
  destruct (socketUserId st !! sock) as [s0|] eqn:Hsock;
    unfold on_chat_send in Hres; unfold bind at 1 in Hres; unfold gets at 1 in Hres;
    rewrite Hsock in Hres;
    [|left; eexists; split; [left; split; [done|by left]|exact Hres]].
  destruct (truthy (Some s0)) as [senderId|] eqn:Hs;
    [|left; eexists; split; [left; split; [done|by left]|exact Hres]].
  destruct (truthy r) as [receiverId|] eqn:Hr;
    [|left; eexists; split; [left; split; [done|by right; left]|exact Hres]].
  destruct (truthy m) as [text|] eqn:Hm;
    [|left; eexists; split; [left; split; [done|by right; right; left]|exact Hres]].
  destruct (truthy t) as [tid|] eqn:Ht;
    [|left; eexists; split; [left; split; [done|by right; right; right]|exact Hres]].
  apply truthy_Some_inv in Hs as [[= ->] Hs'], Hr as [-> Hr'], Hm as [-> Hm'], Ht as [-> Ht'].
  unfold MessageModel_create, messageData in *. unfold_m. rewrite trim_idemp in Hres.
  case_bool_decide as Hblank;
    [left; eexists; split; [right; split; [done|exists text; split; [done|by left]]|exact Hres]|].
  destruct (existsb _ (messages st)) eqn:Hex; simpl in Hres.
  { left; eexists; split; [right; split; [done|exists text; split; [done|right]]|exact Hres].
    apply existsb_exists in Hex as (m' & Hin & Hid).
    exists m'. split; [by apply list_elem_of_In|]. by apply bool_decide_eq_true in Hid. }
  right. exists senderId, receiverId, text, tid. eexists.
  split; [done|]. do 3 (split; [done|]). do 4 (split; [done|]).
  split.
  { intros m' Hm'' Hid. apply list_elem_of_In in Hm''.
    assert (existsb (λ m0, bool_decide (Message._id m0 = i)) (messages st) = true) as Hex'.
    { apply existsb_exists. exists m'. split; [done|]. by apply bool_decide_eq_true_2. }
    congruence. }
  split; [reflexivity|]. subst res.
  destruct (userSockets st !! receiverId) as [rs|] eqn:Hrs; simpl; rewrite ?Hrs; simpl.
  - destruct (decide (rs = "")) as [->|Hne]; simpl; rewrite ?Hrs; simpl.
    + unfold set_log, set_messages; simpl. by rewrite <- ?app_assoc.
    + rewrite ?decide_False by done.
      unfold set_log, set_messages; simpl. by rewrite <- ?app_assoc.
  - unfold set_log, set_messages; simpl. by rewrite <- ?app_assoc.
Qed.

Lemma createTradeRequest_sameChat s r a b m i n st :
  sameChat st (createTradeRequest s r a b m i n st).2.
Proof.
  pose proof (createTradeRequest_inv s r a b m i n st) as Hinv.
  destruct (createTradeRequest s r a b m i n st) as [[resp|[c msg|msg|msg]] st']; simpl.
  - by destruct Hinv as (r' & a' & b' & l & _ & _ & _ & _ & _ & _ & _ & ->).
  - by destruct Hinv as [_ ->].
  - by destruct Hinv as (r' & a' & b' & _ & _ & _ & _ & _ & ->).
  - by subst.
Qed.

Lemma updateTradeStatus_sameChat u id s n st :
  sameChat st (updateTradeStatus u id s n st).2.
Proof.
  pose proof (updateTradeStatus_inv u id s n st) as Hinv.
  destruct (updateTradeStatus u id s n st) as [[resp|e] st']; simpl.
  - by destruct Hinv as (t & l & _ & _ & _ & _ & ->).
  - by subst.
Qed.

Lemma submitReview_sameChat u tid rating review rid i n st :
  sameChat st (submitReview u tid rating review rid i n st).2.
Proof.
  pose proof (submitReview_inv u tid rating review rid i n st) as Hinv.
  destruct (submitReview u tid rating review rid i n st) as [[resp|[c msg|msg|msg]] st']; simpl.
  - by destruct Hinv as [_ (t & q & txt & rid' & l & _ & _ & _ & _ & _ & _ & _ & _ & ->)].
  - by subst.
  - by destruct Hinv as [doc (t & q & txt & rid' & l & _ & _ & _ & _ & _ & _ & _ & _ & ->)].
  - by subst.
Qed.

Lemma on_user_join_messages s u st : messages (on_user_join s u st).2 = messages st.
Proof. unfold_chat. repeat case_match; simplify_eq; done. Qed.

Lemma on_disconnect_messages s st : messages (on_disconnect s st).2 = messages st.
Proof. unfold_chat. repeat case_match; simplify_eq; done. Qed.

Lemma messageStep_refl m : messageStep m m.
Proof. by repeat split. Qed.

Lemma messageStep_trans m1 m2 m3 : messageStep m1 m2 → messageStep m2 m3 → messageStep m1 m3.
Proof.
  intros (? & ? & ? & ? & ? & ? & ?) (? & ? & ? & ? & ? & ? & ?).
  repeat split; try congruence. auto.
Qed.

Lemma markRead_messageStep tid u n m : messageStep m (markRead tid u n m).
Proof.
  unfold markRead. destruct (unreadInTrade tid u m); [|apply messageStep_refl].
  destruct m; by repeat split.
Qed.

(** What one request does to the message collection. *)
Lemma handle_messages rq st :
  messages (handle rq st) = messages st
  ∨ (∃ tid u n, messages (handle rq st) = map (markRead tid u n) (messages st))
  ∨ (∃ m, messages (handle rq st) = messages st ++ [m]
          ∧ Message.read m = false
          ∧ messageInvariant m
          ∧ ∀ m', m' ∈ messages st → Message._id m' ≠ Message._id m).
Proof.
  destruct rq as [s r a b m i n|u id s n|u tid rating review rid i n|u t n|s u|s r m t i n|s];
    cbn [handle].
  - left. apply createTradeRequest_sameChat.
  - left. apply updateTradeStatus_sameChat.
  - left. apply submitReview_sameChat.
  - right; left. exists t, u, n. destruct (getChatHistory_run u t n st) as [l ->]. done.
  - left. apply on_user_join_messages.
  - destruct (on_chat_send_cases s r m t i n st)
      as [(err & _ & ->)
         |(sd & rc & text & tid & dl & _ & _ & _ & _ & ? & ? & ? & ? & Hfresh & _ & ->)].
    + by left.
    + right; right. eexists. split; [reflexivity|]. split; [done|].
      split; [|exact Hfresh]. repeat split; try done. simpl. apply trim_idemp.
  - left. apply on_disconnect_messages.
Qed.

Lemma handle_messageStep rq st k m :
  messages st !! k = Some m →
  ∃ m', messages (handle rq st) !! k = Some m' ∧ messageStep m m'.
Proof.
  intros Hk.
  destruct (handle_messages rq st) as [->|[(tid & u & n & ->)|(m0 & -> & _)]].
  - exists m. split; [done|apply messageStep_refl].
  - exists (markRead tid u n m). split; [|apply markRead_messageStep].
    by rewrite list_lookup_fmap, Hk.
  - exists m. split; [|apply messageStep_refl]. by apply lookup_app_l_Some.
Qed.

(** X4. Whatever requests are handled, a stored message stays stored at
    its position with its id, sender, receiver, trade, text and creation
    time, and once read it stays read; the collection never gets shorter. *)
Theorem message_history rqs st k m :
  messages st !! k = Some m →
  (∃ m', messages (run rqs st) !! k = Some m' ∧ messageStep m m')
  ∧ (length (messages st) ≤ length (messages (run rqs st)))%nat.
Proof.
  revert st m. induction rqs as [|rq rqs IH]; intros st m Hk.
  - split; [|done]. exists m. split; [done|apply messageStep_refl].
  - destruct (handle_messageStep rq st k m Hk) as (m1 & Hk1 & Hstep1).
    destruct (IH (handle rq st) m1 Hk1) as [(m2 & Hk2 & Hstep2) Hlen].
    split.
    + exists m2. split; [exact Hk2|]. by eapply messageStep_trans.
    + simpl. etrans; [|exact Hlen].
      destruct (handle_messages rq st) as [->|[(tid & u & n & ->)|(m0 & -> & _)]].
      * done.
      * by rewrite length_map.
      * rewrite length_app. lia.
Qed.

Lemma message_history_witness :
  ∃ m', messages (run [GetChatHistory "u2" "t1" 6] demoChat) !! 0%nat = Some m'
        ∧ messageStep demoMessage m'.
Proof.
  apply (message_history [GetChatHistory "u2" "t1" 6] demoChat 0 demoMessage).
  vm_compute; reflexivity.
Defined.

Lemma reachable_messageInvariant st :
  reachable st →
  (∀ m, m ∈ messages st → messageInvariant m) ∧ NoDup (Message._id <$> messages st).
Proof.
  induction 1 as [users skills skillProfiles|st rq _ [IHm IHn]].
  - split; [by intros m Hm; apply elem_of_nil in Hm|constructor].
  - destruct (handle_messages rq st)
      as [->|[(tid & u & n & ->)|(m0 & -> & _ & Hinv & Hfresh)]].
    + done.
    + split.
      * intros m Hm. apply list_elem_of_fmap in Hm as (m1 & -> & Hm1).
        specialize (IHm m1 Hm1). unfold markRead.
        destruct (unreadInTrade tid u m1); [|done]. by destruct m1.
      * assert (Message._id <$> map (markRead tid u n) (messages st)
                = Message._id <$> messages st) as ->; [|done].
        rewrite <- list_fmap_compose. apply list_fmap_ext. intros ? m1 _. simpl.
        unfold markRead. destruct (unreadInTrade tid u m1); [|done]. by destruct m1.
    + split.
      * intros m Hm. apply elem_of_app in Hm as [Hm|Hm]; [by apply IHm|].
        apply list_elem_of_singleton in Hm. by subst.
      * rewrite fmap_app. apply NoDup_app. split; [done|]. split; [|apply NoDup_singleton].
        intros i Hi Hi'. apply list_elem_of_singleton in Hi'. subst.
        apply list_elem_of_fmap in Hi as (m1 & Heq & Hm1). by apply (Hfresh m1 Hm1).
Qed.

(** X5. In every reachable state each stored message has a non-empty
    sender, receiver and trade id and a text that is non-empty and carries
    no surrounding white space, and no two stored messages share an id. *)
Theorem stored_message_shape st m :
  reachable st → m ∈ messages st →
  messageInvariant m
  ∧ (∀ k k' m', messages st !! k = Some m → messages st !! k' = Some m' →
       Message._id m' = Message._id m → k' = k).
Proof.
  intros Hst Hm. destruct (reachable_messageInvariant st Hst) as [Hinv Hnodup].
  split; [by apply Hinv|].
  intros k k' m' Hk Hk' Hid.
  eapply NoDup_lookup; [exact Hnodup| |].
  - rewrite list_lookup_fmap, Hk'. simpl. by rewrite Hid.
  - by rewrite list_lookup_fmap, Hk.
Qed.

Lemma demoChat_reachable : reachable demoChat.
Proof. apply run_reachable, demoCompleted_reachable. Qed.

Lemma stored_message_shape_witness : messageInvariant demoMessage.
Proof.
  apply (stored_message_shape demoChat demoMessage).
  - exact demoChat_reachable.
  - apply (list_elem_of_lookup_2 _ 0%nat). vm_compute; reflexivity.
Defined.

(** ** Refused and accepted [chat:send] *)

(** X6. [chat:send] answers [chat:error] "Missing required fields" on the
    sender's socket when the socket has not joined or the receiver, the
    text or the trade id is missing or empty, and "Failed to send message"
    when all are present but the text is white space only; in both cases
    nothing else is logged and the state is otherwise unchanged. *)
Theorem chat_send_refusals sock r m t i n st :
  (truthy (socketUserId st !! sock) = None ∨ truthy r = None
   ∨ truthy m = None ∨ truthy t = None →
   on_chat_send sock r m t i n st
   = (Return tt,
      set_log (λ l, l ++ [Emitted sock "chat:error"
                            (JObj [("message", JStr "Missing required fields")])]) st))
  ∧ (∀ text,
       truthy (socketUserId st !! sock) ≠ None → truthy r ≠ None → truthy t ≠ None →
       m = Some text → text ≠ "" → trim text = "" →
       on_chat_send sock r m t i n st
       = (Return tt,
          set_log (λ l, l ++ [Emitted sock "chat:error"
                                (JObj [("message", JStr "Failed to send message")])]) st)).
Proof.
  split.
  - unfold on_chat_send. unfold bind at 1. unfold gets at 1. cbv beta.
    destruct (truthy (socketUserId st !! sock)), (truthy r), (truthy m), (truthy t);
      try reflexivity.
    by intros [?|[?|[?|?]]].
  - intros text Hs Hr Ht -> Htext Hblank.
    destruct (on_chat_send_cases sock r (Some text) t i n st)
      as [(err & [[-> Hwhy]|[-> _]] & Hcall)
         |(sd & rc & text' & tid & dl & _ & _ & [= <-] & _ & _ & _ & _ & Hne & _)].
    + exfalso. rewrite (truthy_Some text) in Hwhy by done.
      by destruct Hwhy as [?|[?|[?|?]]].
    + exact Hcall.
    + done.
Qed.

Lemma chat_send_refusals_witness :
  on_chat_send "c9" (Some "u2") (Some "hi") (Some "t1") "m2" 7 demoChat
  = (Return tt,
     set_log (λ l, l ++ [Emitted "c9" "chat:error"
                           (JObj [("message", JStr "Missing required fields")])]) demoChat)
  ∧ on_chat_send "c1" (Some "u2") (Some "  ") (Some "t1") "m2" 7 demoChat
    = (Return tt,
       set_log (λ l, l ++ [Emitted "c1" "chat:error"
                             (JObj [("message", JStr "Failed to send message")])]) demoChat).
Proof.
  split.
  - apply (chat_send_refusals "c9" (Some "u2") (Some "hi") (Some "t1") "m2" 7 demoChat).
    left. vm_compute; reflexivity.
  - apply (proj2 (chat_send_refusals "c1" (Some "u2") (Some "  ") (Some "t1") "m2" 7 demoChat)
             "  ").
    + vm_compute; discriminate.
    + vm_compute; discriminate.
    + vm_compute; discriminate.
    + reflexivity.
    + discriminate.
    + vm_compute; reflexivity.
Defined.

(** A complete [chat:send] from a joined socket is stored. *)
Lemma on_chat_send_ok sock senderId receiverId text tid i n st :
  socketUserId st !! sock = Some senderId →
  senderId ≠ "" → receiverId ≠ "" → tid ≠ "" →
  trim text ≠ "" →
  (∀ m, m ∈ messages st → Message._id m ≠ i) →
  ∃ l, on_chat_send sock (Some receiverId) (Some text) (Some tid) i n st
       = (Return tt,
          set_log (λ l0, l0 ++ l)
            (set_messages
               (λ l0, l0 ++ [Message.mk i senderId receiverId tid (trim text) false n n])
               st)).
Proof.
  intros Hsock Hs Hr Ht Htext Hfresh.
  pose proof (trim_nonempty text Htext) as Htext'.
  destruct (on_chat_send_cases sock (Some receiverId) (Some text) (Some tid) i n st)
    as [(err & [[_ Hwhy]|[_ (text' & [= <-] & Hwhy)]] & _)
       |(sd & rc & text' & tid' & dl & Hsd & [= <-] & [= <-] & [= <-] & _ & _ & _ & _ & _
         & _ & ->)].
  - exfalso. rewrite Hsock in Hwhy. rewrite !truthy_Some in Hwhy by done.
    by destruct Hwhy as [?|[?|[?|?]]].
  - exfalso. destruct Hwhy as [?|(m' & Hin & Hid)]; [done|]. by apply (Hfresh m' Hin).
  - rewrite Hsock in Hsd. injection Hsd as <-. by eexists.
Qed.

Lemma getUnreadCount_run u st :
  getUnreadCount u st
  = (Return (mkApiResponse 200 (length (List.filter (unreadFor u) (messages st)))
               "Unread count retrieved"), st).
Proof. reflexivity. Qed.

(** X7. After a stored [chat:send] the unread count that [getUnreadCount]
    reports is one more than before for the receiver and what it was for
    everybody else, the sender included unless they wrote to themselves. *)
Theorem unread_count_after_send sock senderId receiverId text tid i n st u :
  socketUserId st !! sock = Some senderId →
  senderId ≠ "" → receiverId ≠ "" → tid ≠ "" →
  trim text ≠ "" →
  (∀ m, m ∈ messages st → Message._id m ≠ i) →
  ∃ before,
    (getUnreadCount u st).1 = Return (mkApiResponse 200 before "Unread count retrieved")
    ∧ (getUnreadCount u
         (on_chat_send sock (Some receiverId) (Some text) (Some tid) i n st).2).1
      = Return (mkApiResponse 200
                  (if bool_decide (u = receiverId) then S before else before)
                  "Unread count retrieved").
Proof.
  intros Hsock Hs Hr Ht Htext Hfresh.
  destruct (on_chat_send_ok sock senderId receiverId text tid i n st) as [l ->]; try done.
  eexists. split; [by rewrite getUnreadCount_run|].
  rewrite getUnreadCount_run. cbn [fst snd]. proj_state. do 2 f_equal.
  rewrite List.filter_app, length_app. cbn [List.filter]. unfold unreadFor at 2.
  cbn [Message.receiver Message.read negb].
  case_bool_decide as Hu.
  - rewrite bool_decide_eq_true_2 by done. simpl. lia.
  - rewrite bool_decide_eq_false_2 by done. simpl. lia.
Qed.

Lemma unread_count_after_send_witness :
  ∃ before,
    (getUnreadCount "u2" demoChat).1
    = Return (mkApiResponse 200 before "Unread count retrieved")
    ∧ (getUnreadCount "u2"
         (on_chat_send "c1" (Some "u2") (Some "again") (Some "t1") "m2" 6 demoChat).2).1
      = Return (mkApiResponse 200 (S before) "Unread count retrieved").
Proof.
  apply (unread_count_after_send "c1" "u1" "u2" "again" "t1" "m2" 6 demoChat "u2").
  - vm_compute; reflexivity.
  - discriminate.
  - discriminate.
  - discriminate.
  - vm_compute; discriminate.
  - intros m Hm. apply list_elem_of_In in Hm. vm_compute in Hm.
    destruct Hm as [<-|[]]. discriminate.
Defined.

(** ** Reading a conversation *)

Lemma unreadFor_markRead u' tid u n m :
  unreadFor u' (markRead tid u n m) = unreadFor u' m && negb (unreadInTrade tid u m).
Proof.
  unfold markRead. destruct (unreadInTrade tid u m) eqn:Hm.
  - destruct m; unfold unreadFor; simpl. by rewrite !andb_false_r.
  - by rewrite andb_true_r.
Qed.

Lemma filter_unreadFor_markRead u' tid u n l :
  length (List.filter (unreadFor u') (map (markRead tid u n) l))
  = length (List.filter (λ m, unreadFor u' m && negb (unreadInTrade tid u m)) l).
Proof.
  induction l as [|m l IH]; [done|]. cbn [map List.filter].
  rewrite unreadFor_markRead.
  destruct (unreadFor u' m && negb (unreadInTrade tid u m)); simpl; by rewrite IH.
Qed.

Lemma unreadInTrade_with_read tid u n m :
  unreadInTrade tid u (Message.with_read true n m) = false.
Proof. destruct m. unfold unreadInTrade. simpl. apply andb_false_r. Qed.

Lemma unreadInTrade_markRead tid u n m : unreadInTrade tid u (markRead tid u n m) = false.
Proof.
  unfold markRead. destruct (unreadInTrade tid u m) eqn:Hm; [|done].
  apply unreadInTrade_with_read.
Qed.

Lemma markRead_idemp tid u n n' m :
  markRead tid u n' (markRead tid u n m) = markRead tid u n m.
Proof. unfold markRead at 1. by rewrite unreadInTrade_markRead. Qed.

Lemma filter_unreadInTrade_markRead tid u n l :
  List.filter (unreadInTrade tid u) (map (markRead tid u n) l) = [].
Proof.
  induction l as [|m l IH]; [done|]. cbn [map List.filter]. rewrite IH.
  by rewrite unreadInTrade_markRead.
Qed.

Lemma map_markRead_idemp tid u n n' l :
  map (markRead tid u n') (map (markRead tid u n) l) = map (markRead tid u n) l.
Proof.
  induction l as [|m l IH]; [done|]. cbn [map]. by rewrite IH, markRead_idemp.
Qed.

Lemma getChatHistory_state u tid n st :
  (getChatHistory u tid n st).2
  = set_log (λ l, l ++ map (λ m, Saved "messages" (Message._id m))
                         (List.filter (unreadInTrade tid u) (messages st)))
      (set_messages (map (markRead tid u n)) st).
Proof. reflexivity. Qed.

(** X8. After [getChatHistory] of trade [tid] by user [u], the unread
    count of [u] is the number of unread messages to [u] in other trades,
    everybody else's unread count is what it was, and a second
    [getChatHistory] of the same trade by [u] changes nothing at all. *)
Theorem history_then_unread u tid n st :
  (getUnreadCount u (getChatHistory u tid n st).2).1
  = Return (mkApiResponse 200
              (length (List.filter
                         (λ m, unreadFor u m && negb (bool_decide (Message.tradeId m = tid)))
                         (messages st)))
              "Unread count retrieved")
  ∧ (∀ u', u' ≠ u →
       (getUnreadCount u' (getChatHistory u tid n st).2).1 = (getUnreadCount u' st).1)
  ∧ (∀ n', (getChatHistory u tid n' (getChatHistory u tid n st).2).2
           = (getChatHistory u tid n st).2).
Proof.
  destruct (getChatHistory_run u tid n st) as [l Hrun]. rewrite Hrun. cbn [snd].
  split; [|split].
  - rewrite getUnreadCount_run. proj_state. cbn [fst]. do 2 f_equal.
    rewrite filter_unreadFor_markRead. f_equal. apply List.filter_ext. intros m.
    unfold unreadFor, unreadInTrade.
    destruct (bool_decide (Message.receiver m = u)), (Message.read m),
      (bool_decide (Message.tradeId m = tid)); done.
  - intros u' Hne. rewrite !getUnreadCount_run. proj_state. cbn [fst]. do 2 f_equal.
    rewrite filter_unreadFor_markRead. f_equal. apply List.filter_ext. intros m.
    unfold unreadFor, unreadInTrade.
    destruct (decide (Message.receiver m = u')) as [Hr|Hr].
    + rewrite (bool_decide_eq_false_2 (Message.receiver m = u)) by congruence.
      by rewrite andb_false_r, andb_true_r.
    + by rewrite (bool_decide_eq_false_2 (Message.receiver m = u')).
  - intros n'. rewrite getChatHistory_state. proj_state.
    rewrite filter_unreadInTrade_markRead. cbn [map]. rewrite set_log_nil.
    destruct st; unfold set_log, set_messages; cbn. f_equal. apply map_markRead_idemp.
Qed.

(** ** Joining *)

Lemma length_omap_le {A B} (f : A → option B) (l : list A) :
  (length (omap f l) ≤ length l)%nat.
Proof. induction l as [|a l IH]; [done|]. csimpl. destruct (f a); simpl; lia. Qed.

Lemma length_remove_dups_le `{EqDecision A} (l : list A) :
  (length (remove_dups l) ≤ length l)%nat.
Proof.
  induction l as [|a l IH]; [done|]. simpl.
  case_match; simpl; lia.
Qed.

Lemma unread_pipeline_filter u l :
  List.filter (λ m, matchesObjectId (BObjectId u) (Message.receiver m) && negb (Message.read m)) l
  = List.filter (unreadFor u) l.
Proof.
  apply List.filter_ext. intros m. unfold unreadFor, matchesObjectId. f_equal.
  apply bool_decide_ext. split; congruence.
Qed.

(** X9. [user:join] without a user id does nothing. With one it registers
    the socket in both maps and, when [getUnreadCount] would report [k > 0]
    unread messages for the user, emits one [unread:messages] event to the
    joining socket with [totalCount = k] and at most [k] conversations;
    with no unread message it emits nothing. *)
Theorem join_snapshot c userId st :
  match truthy userId with
  | None => on_user_join c userId st = (Return tt, st)
  | Some u =>
      ∃ k conversations,
        (getUnreadCount u st).1 = Return (mkApiResponse 200 k "Unread count retrieved")
        ∧ on_user_join c userId st
          = (Return tt,
             set_log
               (λ l, l ++ if (0 <? k)%nat
                          then [Emitted c "unread:messages"
                                  (JObj [("totalCount", JNum (inject_Z (Z.of_nat k)));
                                         ("conversations", JArr conversations)])]
                          else [])
               (set_socketUserId (insert c u) (set_userSockets (insert u c) st)))
        ∧ (length conversations ≤ k)%nat
  end.
Proof.
  unfold on_user_join. destruct (truthy userId) as [u|] eqn:Hu; [|done].
  unfold_chat. proj_state.
  exists (length (List.filter (unreadFor u) (messages st))).
  destruct (0 <? length (List.filter (unreadFor u) (messages st)))%nat eqn:Hk.
  - eexists. split; [reflexivity|]. split; [reflexivity|].
    etrans; [apply length_omap_le|]. etrans; [apply length_remove_dups_le|].
    by rewrite length_map, unread_pipeline_filter.
  - exists []. split; [reflexivity|]. split; [|apply Nat.le_0_l]. by rewrite set_log_nil.
Qed.

(** ** Presence *)

Lemma sendNotificationToUser_online u c e p st :
  userSockets st !! u = Some c → c ≠ "" → io st = true →
  sendNotificationToUser u e p st
  = (Return true, set_log (λ l, l ++ [Emitted c e p]) st).
Proof.
  intros Hu Hc Hio. unfold sendNotificationToUser. unfold_m.
  by rewrite Hu, truthy_Some, Hio.
Qed.

Lemma sendNotificationToUser_offline u e p st :
  userSockets st !! u = None →
  sendNotificationToUser u e p st = (Return false, st).
Proof. intros Hu. unfold sendNotificationToUser. unfold_m. by rewrite Hu. Qed.

(** X10. After [user:join] of user [u] on socket [c] a notification for
    [u] is emitted to [c] and reported delivered; after the disconnect of
    [c] it is reported undelivered and nothing is emitted; the entries of
    all other users are what they were before the join. *)
Theorem presence_round_trip c u event payload st :
  u ≠ "" → c ≠ "" → io st = true →
  sendNotificationToUser u event payload (run [UserJoin c (Some u)] st)
  = (Return true,
     set_log (λ l, l ++ [Emitted c event payload]) (run [UserJoin c (Some u)] st))
  ∧ sendNotificationToUser u event payload (run [UserJoin c (Some u); Disconnect c] st)
    = (Return false, run [UserJoin c (Some u); Disconnect c] st)
  ∧ (∀ v, v ≠ u →
       userSockets (run [UserJoin c (Some u); Disconnect c] st) !! v = userSockets st !! v).
Proof.
  intros Hu Hc Hio. cbn [run foldl handle].
  set (st1 := (on_user_join c (Some u) st).2).
  destruct (on_user_join_presence c u st Hu) as (Hus1 & Hsu1 & Hio1).
  fold st1 in Hus1, Hsu1, Hio1.
  assert (socketUserId st1 !! c = Some u) as Hc1.
  { rewrite Hsu1. apply lookup_insert_eq. }
  destruct (on_disconnect_presence c u st1 Hu Hc1) as (Hus2 & _ & _).
  split; [|split].
  - apply sendNotificationToUser_online; [|done|congruence].
    rewrite Hus1. apply lookup_insert_eq.
  - apply sendNotificationToUser_offline. rewrite Hus2. apply lookup_delete_eq.
  - intros v Hv. rewrite Hus2, Hus1.
    rewrite lookup_delete_ne by done. by rewrite lookup_insert_ne.
Qed.

Lemma presence_round_trip_witness :
  sendNotificationToUser "u2" "ping" JNull (run [UserJoin "c2" (Some "u2")] demoChat)
  = (Return true,
     set_log (λ l, l ++ [Emitted "c2" "ping" JNull]) (run [UserJoin "c2" (Some "u2")] demoChat))
  ∧ sendNotificationToUser "u2" "ping" JNull
      (run [UserJoin "c2" (Some "u2"); Disconnect "c2"] demoChat)
    = (Return false, run [UserJoin "c2" (Some "u2"); Disconnect "c2"] demoChat).
Proof.
  destruct (presence_round_trip "c2" "u2" "ping" JNull demoChat) as (H1 & H2 & _).
  - discriminate.
  - discriminate.
  - vm_compute; reflexivity.
  - split; [exact H1|exact H2].
Defined.

(** X11. A socket that joins as [u], then as [v], and then disconnects
    removes the entry of [v] only: [userSockets] still maps [u] to the
    closed socket, and a notification for [u] is emitted there and reported
    delivered. *)
Theorem rejoined_socket_leaves_stale_entry c u v event payload st :
  u ≠ "" → v ≠ "" → u ≠ v → c ≠ "" → io st = true →
  userSockets (run [UserJoin c (Some u); UserJoin c (Some v); Disconnect c] st) !! v = None
  ∧ userSockets (run [UserJoin c (Some u); UserJoin c (Some v); Disconnect c] st) !! u
    = Some c
  ∧ sendNotificationToUser u event payload
      (run [UserJoin c (Some u); UserJoin c (Some v); Disconnect c] st)
    = (Return true,
       set_log (λ l, l ++ [Emitted c event payload])
         (run [UserJoin c (Some u); UserJoin c (Some v); Disconnect c] st)).
Proof.
  intros Hu Hv Huv Hc Hio. cbn [run foldl handle].
  set (st1 := (on_user_join c (Some u) st).2).
  destruct (on_user_join_presence c u st Hu) as (Hus1 & Hsu1 & Hio1).
  fold st1 in Hus1, Hsu1, Hio1.
  set (st2 := (on_user_join c (Some v) st1).2).
  destruct (on_user_join_presence c v st1 Hv) as (Hus2 & Hsu2 & Hio2).
  fold st2 in Hus2, Hsu2, Hio2.
  assert (socketUserId st2 !! c = Some v) as Hc2.
  { rewrite Hsu2. apply lookup_insert_eq. }
  destruct (on_disconnect_presence c v st2 Hv Hc2) as (Hus3 & _ & Hio3).
  set (st3 := (on_disconnect c st2).2) in *.
  assert (userSockets st3 !! u = Some c) as Hstale.
  { rewrite Hus3, Hus2, Hus1. rewrite lookup_delete_ne by done.
    rewrite lookup_insert_ne by done. apply lookup_insert_eq. }
  split; [rewrite Hus3; apply lookup_delete_eq|]. split; [exact Hstale|].
  apply sendNotificationToUser_online; [exact Hstale|done|congruence].
Qed.

Lemma rejoined_socket_leaves_stale_entry_witness :
  userSockets (run [UserJoin "c2" (Some "u1"); UserJoin "c2" (Some "u2"); Disconnect "c2"]
                 demoCompleted) !! "u1" = Some "c2".
Proof.
  destruct (rejoined_socket_leaves_stale_entry "c2" "u1" "u2" "ping" JNull demoCompleted)
    as (_ & H & _).
  - discriminate.
  - discriminate.
  - discriminate.
  - discriminate.
  - vm_compute; reflexivity.
  - exact H.
Defined.

(** ** Typing indicators *)

(** X12. The typing handlers do not ask whether the socket has joined: from
    a socket without a user id, [chat:typing] and [chat:stop-typing]
    addressed to a connected user are emitted to that user's socket with no
    sender id, while [chat:send] from the same socket is refused; none of
    the three changes anything but the log. *)
Theorem typing_needs_no_join sock r rs t m i n st :
  socketUserId st !! sock = None →
  userSockets st !! r = Some rs → rs ≠ "" →
  on_chat_typing sock (Some r) t st
  = (Return tt,
     set_log (λ l, l ++ [Emitted rs "chat:typing"
                           (JObj [("senderId", JOpt None); ("tradeId", JOpt t)])]) st)
  ∧ on_chat_stop_typing sock (Some r) t st
    = (Return tt,
       set_log (λ l, l ++ [Emitted rs "chat:stop-typing"
                             (JObj [("senderId", JOpt None); ("tradeId", JOpt t)])]) st)
  ∧ on_chat_send sock (Some r) m t i n st
    = (Return tt,
       set_log (λ l, l ++ [Emitted sock "chat:error"
                             (JObj [("message", JStr "Missing required fields")])]) st).
Proof.
  intros Hsock Hr Hrs. split; [|split].
  - unfold on_chat_typing. unfold_m. by rewrite Hr, truthy_Some, Hsock.
  - unfold on_chat_stop_typing. unfold_m. by rewrite Hr, truthy_Some, Hsock.
  - unfold on_chat_send. unfold bind at 1. unfold gets at 1. by rewrite Hsock.
Qed.

Lemma typing_needs_no_join_witness :
  on_chat_typing "c7" (Some "u1") (Some "t1") demoChat
  = (Return tt,
     set_log (λ l, l ++ [Emitted "c1" "chat:typing"
                           (JObj [("senderId", JOpt None); ("tradeId", JOpt (Some "t1"))])])
       demoChat).
Proof.
  destruct (typing_needs_no_join "c7" "u1" "c1" (Some "t1") (Some "hi") "m9" 9 demoChat)
    as (H & _ & _).
  - vm_compute; reflexivity.
  - vm_compute; reflexivity.
  - discriminate.
  - exact H.
Defined.

(** ** What the trade handlers announce *)

Lemma sendNotificationToUser_dispatched u e p st :
  sendNotificationToUser u e p st
  = (Return (delivered st u), set_log (λ l, l ++ dispatched st u e p) st).
Proof.
  unfold sendNotificationToUser, delivered, dispatched. unfold_m.
  destruct (truthy (userSockets st !! u)) as [sid|]; [destruct (io st)|];
    by rewrite ?set_log_nil.
Qed.

Lemma dispatched_set_log f st u e p : dispatched (set_log f st) u e p = dispatched st u e p.
Proof. reflexivity. Qed.

Lemma dispatched_set_tradeRequests f st u e p :
  dispatched (set_tradeRequests f st) u e p = dispatched st u e p.
Proof. reflexivity. Qed.

Ltac send_exact :=
  match goal with
  | |- context [sendNotificationToUser ?u ?e ?p ?st] =>
      rewrite (sendNotificationToUser_dispatched u e p st);
      rewrite ?dispatched_set_log, ?dispatched_set_tradeRequests; proj_state
  end.

Lemma updateTradeStatus_log u id s now st t us ur s1 s2 :
  tradeRequests st !! id = Some t →
  users st !! TradeRequest.sender t = Some us →
  users st !! TradeRequest.receiver t = Some ur →
  skills st !! TradeRequest.senderOfferedSkill t = Some s1 →
  skills st !! TradeRequest.receiverOfferedSkill t = Some s2 →
  u ∈ [TradeRequest.sender t; TradeRequest.receiver t] →
  validStatus s →
  updateTradeStatus u id s now st
  = (Return (mkApiResponse 200 (id, nextTrade u s now t) "Trade updated successfully"),
     set_log (λ l, l ++ tradeNotifications st u id s t us ur s1 s2
                     ++ [Saved "traderequests" id])
       (set_tradeRequests (insert id (nextTrade u s now t)) st)).
Proof.
  intros Ht Hus Hur Hs1 Hs2 Hu Hst.
  unfold updateTradeStatus, validStatus, tradeNotifications, nextTrade, otherParty in *.
  unfold_m. rewrite Ht, Hus, Hur.
  rewrite bool_decide_eq_true_2 by done. rewrite bool_decide_eq_true_2 by done.
  simpl. rewrite !elem_of_cons in Hst.
  destruct Hst as [->|[->|[->|Hnil]]]; [| | |by apply elem_of_nil in Hnil];
    status_cases; rewrite ?Hs1, ?Hs2; simpl.
  - send_exact. unfold set_log, set_tradeRequests; simpl. by rewrite <- !app_assoc.
  - send_exact. unfold set_log, set_tradeRequests; simpl. by rewrite <- !app_assoc.
  - unfold markComplete, bothMarked.
    destruct (bool_decide (length _ = 2) && _ && _) eqn:Hboth; simpl; rewrite Hboth.
    + do 2 send_exact. unfold set_log, set_tradeRequests; simpl. by rewrite <- !app_assoc.
    + send_exact. unfold set_log, set_tradeRequests; simpl. by rewrite <- !app_assoc.
Qed.

(** X13. The refusals of [updateTradeStatus], in the order of the code: an
    unknown trade id gives 404 whatever else the request holds; on a stored
    trade whose two users resolve, a caller who is not a participant gets
    403 even with a status that would be refused, and a participant with a
    status other than [accepted], [rejected] and [completed] gets 400; the
    state is unchanged in all three cases. *)
Theorem updateTradeStatus_refusals u id s now st :
  match tradeRequests st !! id with
  | None => updateTradeStatus u id s now st = (Throw (ApiError 404 "Trade not found"), st)
  | Some t =>
      is_Some (users st !! TradeRequest.sender t) →
      is_Some (users st !! TradeRequest.receiver t) →
      (u ∉ [TradeRequest.sender t; TradeRequest.receiver t] →
       updateTradeStatus u id s now st = (Throw (ApiError 403 "Not authorized"), st))
      ∧ (u ∈ [TradeRequest.sender t; TradeRequest.receiver t] → ¬ validStatus s →
         updateTradeStatus u id s now st = (Throw (ApiError 400 "Invalid status"), st))
  end.
Proof.
  unfold updateTradeStatus, validStatus. unfold_m.
  destruct (tradeRequests st !! id) as [t|] eqn:Ht; [|done].
  intros [us ->] [ur ->]. split.
  - intros Hu. by rewrite (bool_decide_eq_false_2 _ Hu).
  - intros Hu Hs. rewrite (bool_decide_eq_true_2 _ Hu). by rewrite (bool_decide_eq_false_2 _ Hs).
Qed.

Lemma updateTradeStatus_refusals_witness :
  updateTradeStatus "u3" "t1" (Some "cancelled") 9 demoCompleted
  = (Throw (ApiError 403 "Not authorized"), demoCompleted)
  ∧ updateTradeStatus "u1" "t1" (Some "cancelled") 9 demoCompleted
    = (Throw (ApiError 400 "Invalid status"), demoCompleted).
Proof.
  pose proof (updateTradeStatus_refusals "u3" "t1" (Some "cancelled") 9 demoCompleted) as H3.
  pose proof (updateTradeStatus_refusals "u1" "t1" (Some "cancelled") 9 demoCompleted) as H1.
  change (tradeRequests demoCompleted !! "t1")
    with (Some (TradeRequest.mk "u1" "u2" "s1" "s2" "completed" ["u1"; "u2"] None 1 3))
    in H3, H1.
  cbv beta iota in H3, H1. cbn [TradeRequest.sender TradeRequest.receiver] in H3, H1.
  assert (is_Some (users demoCompleted !! "u1")) as Hu1 by (vm_compute; eauto).
  assert (is_Some (users demoCompleted !! "u2")) as Hu2 by (vm_compute; eauto).
  split.
  - apply (proj1 (H3 Hu1 Hu2)). rewrite !elem_of_cons, elem_of_nil.
    intros [?|[?|[]]]; discriminate.
  - apply (proj2 (H1 Hu1 Hu2)).
    + apply elem_of_cons. by left.
    + unfold validStatus. rewrite !elem_of_cons, elem_of_nil.
      intros [?|[?|[?|[]]]]; discriminate.
Defined.

(** X14. [accepted] and [rejected] announce to the sender of the trade, and
    to nobody else, whoever of the two participants makes the call: the
    payload names the receiver as [acceptedBy] or [rejectedBy] even when
    the sender decides on their own proposal, and the announcement is
    emitted before the trade is saved. *)
Theorem decision_notifies_sender u id now st t us ur s1 s2 :
  tradeRequests st !! id = Some t →
  users st !! TradeRequest.sender t = Some us →
  users st !! TradeRequest.receiver t = Some ur →
  skills st !! TradeRequest.senderOfferedSkill t = Some s1 →
  skills st !! TradeRequest.receiverOfferedSkill t = Some s2 →
  u ∈ [TradeRequest.sender t; TradeRequest.receiver t] →
  log (updateTradeStatus u id (Some "accepted") now st).2
  = log st
    ++ dispatched st (TradeRequest.sender t) "notification:trade_request_accepted"
         (tradePayload id "acceptedBy" ur s1 s2)
    ++ [Saved "traderequests" id]
  ∧ log (updateTradeStatus u id (Some "rejected") now st).2
    = log st
      ++ dispatched st (TradeRequest.sender t) "notification:trade_request_rejected"
           (tradePayload id "rejectedBy" ur s1 s2)
      ++ [Saved "traderequests" id].
Proof.
  intros Ht Hus Hur Hs1 Hs2 Hu. split.
  - rewrite (updateTradeStatus_log u id (Some "accepted") now st t us ur s1 s2); try done.
    unfold validStatus. rewrite !elem_of_cons. auto.
  - rewrite (updateTradeStatus_log u id (Some "rejected") now st t us ur s1 s2); try done.
    unfold validStatus. rewrite !elem_of_cons. auto.
Qed.

Lemma decision_notifies_sender_witness :
  log (updateTradeStatus "u1" "t1" (Some "accepted") 9 demoJoined).2
  = log demoJoined
    ++ dispatched demoJoined "u1" "notification:trade_request_accepted"
         (tradePayload "t1" "acceptedBy" (User.mk "Bob" "bob.png")
            (Skill.mk "Piano") (Skill.mk "Rust"))
    ++ [Saved "traderequests" "t1"].
Proof.
  destruct (decision_notifies_sender "u1" "t1" 9 demoJoined
              (TradeRequest.mk "u1" "u2" "s1" "s2" "completed" ["u1"; "u2"] None 1 3)
              (User.mk "Ann" "ann.png") (User.mk "Bob" "bob.png")
              (Skill.mk "Piano") (Skill.mk "Rust")) as [H _].
  - vm_compute; reflexivity.
  - vm_compute; reflexivity.
  - vm_compute; reflexivity.
  - vm_compute; reflexivity.
  - vm_compute; reflexivity.
  - apply elem_of_cons. left. reflexivity.
  - exact H.
Defined.

Lemma markComplete_completedBy u t :
  TradeRequest.completedBy (markComplete u t)
  = if bool_decide (u ∈ TradeRequest.completedBy t)
    then TradeRequest.completedBy t else TradeRequest.completedBy t ++ [u].
Proof. unfold markComplete. by case_match. Qed.

Lemma bothMarked_markComplete u t :
  bothMarked (markComplete u t)
  = bool_decide (length (TradeRequest.completedBy (markComplete u t)) = 2)
    && existsb (λ i, bool_decide (i = TradeRequest.sender t))
         (TradeRequest.completedBy (markComplete u t))
    && existsb (λ i, bool_decide (i = TradeRequest.receiver t))
         (TradeRequest.completedBy (markComplete u t)).
Proof.
  unfold bothMarked. by destruct (markComplete_participants u t) as (-> & -> & _).
Qed.

(** X15. On a trade nobody has marked, between two different users whose
    references resolve: the first [completed] call announces
    [trade_marked_complete] to the other participant, naming the caller;
    the other participant's call then announces [trade_request_completed]
    to the sender, naming the receiver as partner, and then to the
    receiver, naming the sender; and when instead the first caller calls
    again, the other participant is sent [trade_marked_complete] once
    more. Each time the announcements precede the save. *)
Theorem completion_notifications u id n1 n2 st t us ur s1 s2 :
  tradeRequests st !! id = Some t →
  users st !! TradeRequest.sender t = Some us →
  users st !! TradeRequest.receiver t = Some ur →
  skills st !! TradeRequest.senderOfferedSkill t = Some s1 →
  skills st !! TradeRequest.receiverOfferedSkill t = Some s2 →
  TradeRequest.sender t ≠ TradeRequest.receiver t →
  TradeRequest.completedBy t = [] →
  u ∈ [TradeRequest.sender t; TradeRequest.receiver t] →
  log (updateTradeStatus u id (Some "completed") n1 st).2
  = log st
    ++ dispatched st (otherParty t u) "notification:trade_marked_complete"
         (tradePayload id "markedBy" (if decide (u = TradeRequest.sender t) then us else ur)
            s1 s2)
    ++ [Saved "traderequests" id]
  ∧ log (updateTradeStatus (otherParty t u) id (Some "completed") n2
           (updateTradeStatus u id (Some "completed") n1 st).2).2
    = log (updateTradeStatus u id (Some "completed") n1 st).2
      ++ dispatched st (TradeRequest.sender t) "notification:trade_request_completed"
           (tradePayload id "partner" ur s1 s2)
      ++ dispatched st (TradeRequest.receiver t) "notification:trade_request_completed"
           (tradePayload id "partner" us s1 s2)
      ++ [Saved "traderequests" id]
  ∧ log (updateTradeStatus u id (Some "completed") n2
           (updateTradeStatus u id (Some "completed") n1 st).2).2
    = log (updateTradeStatus u id (Some "completed") n1 st).2
      ++ dispatched st (otherParty t u) "notification:trade_marked_complete"
           (tradePayload id "markedBy" (if decide (u = TradeRequest.sender t) then us else ur)
              s1 s2)
      ++ [Saved "traderequests" id].
Proof.
  intros Ht Hus Hur Hs1 Hs2 Hne Hnil Hu.
  assert (validStatus (Some "completed")) as Hvalid.
  { unfold validStatus. rewrite !elem_of_cons. auto. }
  rewrite (updateTradeStatus_log u id (Some "completed") n1 st t us ur s1 s2) by done.
  cbn [snd]. rewrite nextTrade_completed, markComplete_first by done.
  set (t1 := TradeRequest.with_updatedAt n1 (TradeRequest.with_completedBy [u] t)).
  set (st1 := set_log _ (set_tradeRequests _ st)).
  assert (tradeRequests st1 !! id = Some t1) as Hst1.
  { unfold st1. proj_state. apply lookup_insert_eq. }
  assert (otherParty t u ∈ [TradeRequest.sender t; TradeRequest.receiver t]) as Hv.
  { unfold otherParty. case_decide; rewrite !elem_of_cons; auto. }
  assert (otherParty t u ≠ u) as Hvu.
  { unfold otherParty. rewrite !elem_of_cons in Hu. case_decide; [congruence|].
    destruct Hu as [?|[?|Hu]]; [done|congruence|by apply elem_of_nil in Hu]. }
  assert (otherParty t1 u = otherParty t u) as Hother by done.
  assert (tradeNotifications st u id (Some "completed") t us ur s1 s2
          = dispatched st (otherParty t u) "notification:trade_marked_complete"
              (tradePayload id "markedBy"
                 (if decide (u = TradeRequest.sender t) then us else ur) s1 s2)) as Hfirst.
  { unfold tradeNotifications. status_cases. rewrite bothMarked_markComplete.
    rewrite markComplete_completedBy, Hnil. simpl. done. }
  split; [unfold st1; proj_state; by rewrite Hfirst|].
  split.
  - rewrite (updateTradeStatus_log (otherParty t u) id (Some "completed") n2 st1 t1 us ur s1 s2)
      by done.
    cbn [snd]. proj_state. f_equal.
    unfold tradeNotifications. status_cases. rewrite bothMarked_markComplete.
    rewrite markComplete_completedBy.
    change (TradeRequest.completedBy t1) with [u].
    change (TradeRequest.sender t1) with (TradeRequest.sender t).
    change (TradeRequest.receiver t1) with (TradeRequest.receiver t).
    rewrite (bool_decide_eq_false_2 (otherParty t u ∈ [u]))
      by (intros Hin; apply list_elem_of_singleton in Hin; done).
    cbn [app length existsb]. rewrite (bool_decide_eq_true_2 (2 = 2)) by done.
    assert (bool_decide (u = TradeRequest.sender t)
            || (bool_decide (otherParty t u = TradeRequest.sender t) || false) = true) as ->.
    { unfold otherParty. case_decide; [by rewrite bool_decide_eq_true_2|].
      rewrite (bool_decide_eq_true_2 (TradeRequest.sender t = _)) by done.
      by rewrite orb_true_r. }
    assert (bool_decide (u = TradeRequest.receiver t)
            || (bool_decide (otherParty t u = TradeRequest.receiver t) || false) = true) as ->.
    { unfold otherParty. rewrite !elem_of_cons in Hu. case_decide.
      - rewrite (bool_decide_eq_true_2 (TradeRequest.receiver t = _)) by done.
        by rewrite orb_true_r.
      - destruct Hu as [?|[->|Hu]]; [done| |by apply elem_of_nil in Hu].
        by rewrite bool_decide_eq_true_2. }
    cbn [andb]. by rewrite <- app_assoc.
  - rewrite (updateTradeStatus_log u id (Some "completed") n2 st1 t1 us ur s1 s2) by done.
    cbn [snd]. proj_state. f_equal.
    unfold tradeNotifications. status_cases. rewrite bothMarked_markComplete.
    rewrite markComplete_completedBy.
    change (TradeRequest.completedBy t1) with [u].
    change (TradeRequest.sender t1) with (TradeRequest.sender t).
    rewrite (bool_decide_eq_true_2 (u ∈ [u])) by (by apply list_elem_of_singleton).
    cbn [length]. rewrite (bool_decide_eq_false_2 (1 = 2)) by done.
    cbn [andb]. by rewrite Hother.
Qed.

Lemma completion_notifications_witness :
  log (updateTradeStatus "u1" "t1" (Some "completed") 2 demoProposed).2
  = log demoProposed
    ++ dispatched demoProposed "u2" "notification:trade_marked_complete"
         (tradePayload "t1" "markedBy" (User.mk "Ann" "ann.png")
            (Skill.mk "Piano") (Skill.mk "Rust"))
    ++ [Saved "traderequests" "t1"].
Proof.
  destruct (completion_notifications "u1" "t1" 2 3 demoProposed demoTrade
              (User.mk "Ann" "ann.png") (User.mk "Bob" "bob.png")
              (Skill.mk "Piano") (Skill.mk "Rust")) as (H & _ & _).
  - vm_compute; reflexivity.
  - vm_compute; reflexivity.
  - vm_compute; reflexivity.
  - vm_compute; reflexivity.
  - vm_compute; reflexivity.
  - discriminate.
  - reflexivity.
  - apply elem_of_cons. left. reflexivity.
  - exact H.
Defined.

(** ** Proposals that are refused or fail *)

(** X16. A proposal that passes the checks but names a sender without a
    user document, or a skill without a document, is stored as a pending
    trade and then fails with a [TypeError] when the notification payload
    is read: nothing is announced, and the same proposal sent again is
    refused as a duplicate of the stored trade. *)
Theorem dangling_reference_stores_then_fails s r a b m i n st :
  r ≠ "" → a ≠ "" → b ≠ "" → r ≠ s →
  noPendingDuplicate st s (castObjectId r) (castObjectId a) (castObjectId b) →
  tradeRequests st !! i = None →
  users st !! s = None ∨ skills st !! castObjectId a = None
  ∨ skills st !! castObjectId b = None →
  ∃ what,
    createTradeRequest s (Some r) (Some a) (Some b) m i n st
    = (Throw (TypeError what),
       set_log (λ l, l ++ [Saved "traderequests" i])
         (set_tradeRequests
            (insert i (freshTrade s (castObjectId r) (castObjectId a) (castObjectId b) m n))
            st))
    ∧ ∀ m' i' n',
        createTradeRequest s (Some r) (Some a) (Some b) m' i' n'
          (set_log (λ l, l ++ [Saved "traderequests" i])
             (set_tradeRequests
                (insert i (freshTrade s (castObjectId r) (castObjectId a) (castObjectId b) m n))
                st))
        = (Throw (ApiError 400 "A pending trade already exists"),
           set_log (λ l, l ++ [Saved "traderequests" i])
             (set_tradeRequests
                (insert i (freshTrade s (castObjectId r) (castObjectId a) (castObjectId b) m n))
                st)).
Proof.
  intros Hr Ha Hb Hself Hno Hfresh Hdangling.
  set (st1 := set_log (λ l, l ++ [Saved "traderequests" i])
                (set_tradeRequests
                   (insert i (freshTrade s (castObjectId r) (castObjectId a)
                                (castObjectId b) m n)) st)).
  assert (∀ m' i' n',
    createTradeRequest s (Some r) (Some a) (Some b) m' i' n' st1
    = (Throw (ApiError 400 "A pending trade already exists"), st1)) as Hretry.
  { intros m' i' n'.
    apply (createTradeRequest_conflict s r a b m' i' n' _ i
             (freshTrade s (castObjectId r) (castObjectId a) (castObjectId b) m n));
      try done.
    - unfold st1. proj_state. apply lookup_insert_eq.
    - unfold pendingDuplicate, freshTrade; simpl. by rewrite !bool_decide_eq_true_2. }
  assert (∃ what,
    createTradeRequest s (Some r) (Some a) (Some b) m i n st = (Throw (TypeError what), st1))
    as [what Hcall].
  { unfold st1, createTradeRequest. rewrite !truthy_Some by done.
    rewrite decide_False by done.
    unfold TradeRequestModel_findOne, TradeRequestModel_create. unfold_m.
    apply findOne_None_iff in Hno. rewrite Hno, Hfresh. proj_state.
    destruct (users st !! s) as [us|] eqn:Hus; proj_state; [|by eexists].
    destruct (skills st !! castObjectId a) as [sa|] eqn:Hsa; proj_state; [|by eexists].
    destruct (skills st !! castObjectId b) as [sb|] eqn:Hsb; proj_state; [|by eexists].
    by destruct Hdangling as [?|[?|?]]. }
  exists what. split; [exact Hcall|exact Hretry].
Qed.

Lemma dangling_reference_stores_then_fails_witness :
  ∃ what,
    createTradeRequest "u1" (Some "u2") (Some "s9") (Some "s2") None "t2" 9 demoCompleted
    = (Throw (TypeError what),
       set_log (λ l, l ++ [Saved "traderequests" "t2"])
         (set_tradeRequests (insert "t2" (freshTrade "u1" "u2" "s9" "s2" None 9))
            demoCompleted)).
Proof.
  destruct (dangling_reference_stores_then_fails "u1" "u2" "s9" "s2" None "t2" 9 demoCompleted)
    as (what & H & _).
  - discriminate.
  - discriminate.
  - discriminate.
  - discriminate.
  - apply findOne_None_iff. vm_compute; reflexivity.
  - vm_compute; reflexivity.
  - right; left. vm_compute; reflexivity.
  - exists what. exact H.
Defined.

(** X17. The refusals of [createTradeRequest], in the order of the code: a
    missing or empty receiver or skill id gives "Missing required fields";
    with all three present, a receiver id that is the caller's id, letter
    for letter, gives "You cannot trade with yourself" whatever is stored;
    a proposal that a stored pending trade duplicates, the ids of the body
    being cast, gives "A pending trade already exists"; the state is
    unchanged each time, and a proposal that passes the three checks is
    never answered with an [ApiError]. *)
Theorem createTradeRequest_refusals s r a b m i n st :
  match truthy r, truthy a, truthy b with
  | Some r', Some a', Some b' =>
      if decide (r' = s) then
        createTradeRequest s r a b m i n st
        = (Throw (ApiError 400 "You cannot trade with yourself"), st)
      else
        (∀ id t, tradeRequests st !! id = Some t →
           pendingDuplicate s (castObjectId r') (castObjectId a') (castObjectId b') t = true →
           createTradeRequest s r a b m i n st
           = (Throw (ApiError 400 "A pending trade already exists"), st))
        ∧ (noPendingDuplicate st s (castObjectId r') (castObjectId a') (castObjectId b') →
           ∀ c msg st', createTradeRequest s r a b m i n st ≠ (Throw (ApiError c msg), st'))
  | _, _, _ =>
      createTradeRequest s r a b m i n st
      = (Throw (ApiError 400 "Missing required fields"), st)
  end.
Proof.
  unfold createTradeRequest.
  destruct (truthy r) as [r'|] eqn:Hr; [|done].
  destruct (truthy a) as [a'|] eqn:Ha; [|done].
  destruct (truthy b) as [b'|] eqn:Hb; [|done].
  case_decide as Hself; [done|].
  unfold TradeRequestModel_findOne, TradeRequestModel_create. unfold_m. split.
  - intros id t Ht Hdup.
    destruct (List.find _ _) eqn:Hfind; [done|].
    apply findOne_None_iff in Hfind. specialize (Hfind id t Ht). congruence.
  - intros Hno c msg st'. apply findOne_None_iff in Hno. rewrite Hno.
    destruct (tradeRequests st !! i); [done|]. proj_state.
    destruct (users st !! s); proj_state; [|done].
    destruct (skills st !! castObjectId a'); proj_state; [|done].
    destruct (skills st !! castObjectId b'); proj_state; [|done].
    by send_step.
Qed.

(** ** A reopened trade *)

Lemma existsb_bool_decide_elem_2 (x : string) (l : list string) :
  x ∈ l → existsb (λ i, bool_decide (i = x)) l = true.
Proof.
  intros Hin. apply existsb_exists. exists x. split; [by apply list_elem_of_In|].
  by apply bool_decide_eq_true_2.
Qed.

(** X18. A trade that both participants have marked complete and that a
    participant then moves to [accepted] or [rejected] keeps its
    [completedBy], so a single [completed] call of either participant sets
    the status [completed] again. *)
Theorem reopened_trade_completes_at_once u w id s n1 n2 st t :
  tradeRequests st !! id = Some t →
  resolves st t →
  length (TradeRequest.completedBy t) = 2 →
  TradeRequest.sender t ∈ TradeRequest.completedBy t →
  TradeRequest.receiver t ∈ TradeRequest.completedBy t →
  u ∈ [TradeRequest.sender t; TradeRequest.receiver t] →
  w ∈ [TradeRequest.sender t; TradeRequest.receiver t] →
  s ∈ ["accepted"; "rejected"] →
  ∃ t1 t2,
    tradeRequests (run [UpdateTradeStatus u id (Some s) n1] st) !! id = Some t1
    ∧ TradeRequest.status t1 = s
    ∧ TradeRequest.completedBy t1 = TradeRequest.completedBy t
    ∧ tradeRequests (run [UpdateTradeStatus u id (Some s) n1;
                          UpdateTradeStatus w id (Some "completed") n2] st) !! id = Some t2
    ∧ TradeRequest.status t2 = "completed"
    ∧ TradeRequest.completedBy t2 = TradeRequest.completedBy t.
Proof.
  intros Ht Hres Hlen Hs Hr Hu Hw Hstatus. cbn [run foldl handle].
  assert (validStatus (Some s)) as Hvalid.
  { unfold validStatus. rewrite !elem_of_cons in *.
    destruct Hstatus as [->|[->|Hnil]]; auto. by apply elem_of_nil in Hnil. }
  destruct (updateTradeStatus_ok u id (Some s) n1 st t Ht Hres Hu Hvalid) as [l1 ->].
  cbn [snd].
  set (t1 := nextTrade u (Some s) n1 t).
  set (st1 := set_log _ (set_tradeRequests _ st)).
  assert (t1 = TradeRequest.with_updatedAt n1 (TradeRequest.with_status s t)) as Ht1.
  { unfold t1, nextTrade. rewrite !elem_of_cons in Hstatus.
    destruct Hstatus as [->|[->|Hnil]]; [| |by apply elem_of_nil in Hnil]; by status_cases. }
  assert (tradeRequests st1 !! id = Some t1) as Hst1.
  { unfold st1. proj_state. apply lookup_insert_eq. }
  assert (resolves st1 t1) as Hres1 by (by rewrite Ht1).
  assert (validStatus (Some "completed")) as Hvalid'.
  { unfold validStatus. rewrite !elem_of_cons. auto. }
  assert (w ∈ [TradeRequest.sender t1; TradeRequest.receiver t1]) as Hw1 by (by rewrite Ht1).
  destruct (updateTradeStatus_ok w id (Some "completed") n2 st1 t1 Hst1 Hres1 Hw1 Hvalid')
    as [l2 ->].
  cbn [snd]. proj_state.
  exists t1, (nextTrade w (Some "completed") n2 t1).
  split; [exact Hst1|]. split; [by rewrite Ht1|]. split; [by rewrite Ht1|].
  split; [apply lookup_insert_eq|].
  rewrite nextTrade_completed. unfold markComplete.
  assert (w ∈ TradeRequest.completedBy t1) as Hin.
  { rewrite Ht1. simpl. rewrite !elem_of_cons in Hw.
    destruct Hw as [->|[->|Hnil]]; [done|done|by apply elem_of_nil in Hnil]. }
  rewrite (bool_decide_eq_true_2 _ Hin).
  assert (bool_decide (length (TradeRequest.completedBy t1) = 2)
          && existsb (λ i, bool_decide (i = TradeRequest.sender t1)) (TradeRequest.completedBy t1)
          && existsb (λ i, bool_decide (i = TradeRequest.receiver t1))
               (TradeRequest.completedBy t1) = true) as ->.
  { rewrite Ht1. simpl. rewrite bool_decide_eq_true_2 by done.
    by rewrite !existsb_bool_decide_elem_2. }
  rewrite Ht1. by simpl.
Qed.

Lemma reopened_trade_completes_at_once_witness :
  ∃ t1 t2,
    tradeRequests (run [UpdateTradeStatus "u1" "t1" (Some "accepted") 8] demoCompleted)
      !! "t1" = Some t1
    ∧ TradeRequest.status t1 = "accepted"
    ∧ TradeRequest.completedBy t1 = ["u1"; "u2"]
    ∧ tradeRequests (run [UpdateTradeStatus "u1" "t1" (Some "accepted") 8;
                          UpdateTradeStatus "u2" "t1" (Some "completed") 9] demoCompleted)
        !! "t1" = Some t2
    ∧ TradeRequest.status t2 = "completed"
    ∧ TradeRequest.completedBy t2 = ["u1"; "u2"].
Proof.
  apply (reopened_trade_completes_at_once "u1" "u2" "t1" "accepted" 8 9 demoCompleted
           (TradeRequest.mk "u1" "u2" "s1" "s2" "completed" ["u1"; "u2"] None 1 3)).
  - vm_compute; reflexivity.
  - unfold resolves. repeat split; vm_compute; eauto.
  - reflexivity.
  - apply elem_of_cons. left. reflexivity.
  - apply elem_of_cons. right. apply elem_of_cons. left. reflexivity.
  - apply elem_of_cons. left. reflexivity.
  - apply elem_of_cons. right. apply elem_of_cons. left. reflexivity.
  - apply elem_of_cons. left. reflexivity.
Defined.

(** ** The lists of trades *)

Global Instance newerFirst_total : Total newerFirst.
Proof. intros a b. unfold newerFirst. lia. Qed.

Global Instance newerFirst_trans : Transitive newerFirst.
Proof. intros a b c. unfold newerFirst. lia. Qed.

Lemma find_sorted_elem (f : TradeRequest.doc → bool) st id t :
  (id, t) ∈ merge_sort newerFirst
              (List.filter (λ kv : ObjectId * TradeRequest.doc, f kv.2)
                 (map_to_list (tradeRequests st)))
  ↔ tradeRequests st !! id = Some t ∧ f t = true.
Proof.
  rewrite merge_sort_Permutation, list_elem_of_In, filter_In, <- list_elem_of_In.
  by rewrite elem_of_map_to_list.
Qed.

Lemma find_sorted_NoDup (f : TradeRequest.doc → bool) st :
  NoDup (merge_sort newerFirst
           (List.filter (λ kv : ObjectId * TradeRequest.doc, f kv.2)
              (map_to_list (tradeRequests st)))).*1.
Proof.
  rewrite merge_sort_Permutation.
  pose proof (NoDup_fst_map_to_list (tradeRequests st)) as Hnd.
  induction (map_to_list (tradeRequests st)) as [|kv l IH]; [constructor|].
  rewrite fmap_cons in Hnd. apply NoDup_cons in Hnd as [Hkv Hnd].
  cbn [List.filter]. destruct (f kv.2); [|by apply IH].
  rewrite fmap_cons. apply NoDup_cons. split; [|by apply IH].
  intros Hin. apply Hkv. apply list_elem_of_fmap in Hin as (kv' & -> & Hin).
  apply list_elem_of_fmap. exists kv'. split; [done|].
  apply list_elem_of_In in Hin. apply filter_In in Hin as [Hin _].
  by apply list_elem_of_In.
Qed.

(** X19. [getSentTradeRequests] and [getReceivedTradeRequests] change
    nothing and answer with exactly the stored trades whose sender,
    respectively receiver, is the caller, each once, newest first. *)
Theorem sent_and_received u st :
  ∃ sent received,
    getSentTradeRequests u st
    = (Return (mkApiResponse 200 sent "Sent trades retrieved"), st)
    ∧ getReceivedTradeRequests u st
      = (Return (mkApiResponse 200 received "Received trades retrieved"), st)
    ∧ (∀ id t, (id, t) ∈ sent ↔ tradeRequests st !! id = Some t ∧ TradeRequest.sender t = u)
    ∧ (∀ id t, (id, t) ∈ received
               ↔ tradeRequests st !! id = Some t ∧ TradeRequest.receiver t = u)
    ∧ NoDup sent.*1 ∧ NoDup received.*1
    ∧ StronglySorted newerFirst sent ∧ StronglySorted newerFirst received.
Proof.
  exists (merge_sort newerFirst
            (List.filter (λ kv : ObjectId * TradeRequest.doc,
                            bool_decide (TradeRequest.sender kv.2 = u))
               (map_to_list (tradeRequests st)))),
         (merge_sort newerFirst
            (List.filter (λ kv : ObjectId * TradeRequest.doc,
                            bool_decide (TradeRequest.receiver kv.2 = u))
               (map_to_list (tradeRequests st)))).
  pose proof (find_sorted_elem (λ t, bool_decide (TradeRequest.sender t = u)) st) as Hsent.
  pose proof (find_sorted_elem (λ t, bool_decide (TradeRequest.receiver t = u)) st) as Hrecv.
  pose proof (find_sorted_NoDup (λ t, bool_decide (TradeRequest.sender t = u)) st) as Hnds.
  pose proof (find_sorted_NoDup (λ t, bool_decide (TradeRequest.receiver t = u)) st) as Hndr.
  cbv beta in Hsent, Hrecv, Hnds, Hndr.
  split; [reflexivity|]. split; [reflexivity|].
  split; [|split].
  - intros id t. rewrite Hsent. by rewrite bool_decide_eq_true.
  - intros id t. rewrite Hrecv. by rewrite bool_decide_eq_true.
  - split; [exact Hnds|]. split; [exact Hndr|].
    split; apply StronglySorted_merge_sort; apply _.
Qed.

(** ** The reviews of a user *)

Global Instance newerReviewFirst_total : Total newerReviewFirst.
Proof. intros a b. unfold newerReviewFirst. lia. Qed.

Global Instance newerReviewFirst_trans : Transitive newerReviewFirst.
Proof. intros a b c. unfold newerReviewFirst. lia. Qed.

Lemma Qceiling_div (n : Z) (m : positive) :
  Qceiling (inject_Z n / inject_Z (Z.pos m)) = (- ((- n) / Z.pos m))%Z.
Proof.
  unfold Qceiling. f_equal. rewrite Zdiv_Qdiv. apply Qfloor_comp.
  rewrite inject_Z_opp. field. discriminate.
Qed.

Lemma Qceiling_div_bounds (n : Z) (m : positive) :
  (n ≤ Qceiling (inject_Z n / inject_Z (Z.pos m)) * Z.pos m < n + Z.pos m)%Z.
Proof.
  rewrite Qceiling_div.
  pose proof (Z.div_mod (- n) (Z.pos m)) as Hdm.
  pose proof (Z.mod_pos_bound (- n) (Z.pos m)) as Hb.
  lia.
Qed.

Lemma aggregate_ratingStats_pushed_string userId st :
  ReviewModel_aggregate_ratingStats_pushed (BString userId) st = (Return [], st).
Proof.
  unfold ReviewModel_aggregate_ratingStats_pushed. unfold_m.
  by rewrite filter_false.
Qed.

(** The answer of [getUserReviews], with the outcome of its pipeline put
    in. *)
Lemma getUserReviews_run userId page limit st :
  getUserReviews userId page limit st
  = (Return
       (mkApiResponse 200
          (mkUserReviews
             (take (Pos.to_nat (default 10%positive limit))
                (drop ((Pos.to_nat (default 1%positive page) - 1)
                       * Pos.to_nat (default 10%positive limit))
                   (merge_sort newerReviewFirst
                      (List.filter (λ r, bool_decide (Review.reviewee r = userId))
                         (reviews st)))))
             (roundToTenth 0) 0 (distributionOf [])
             (mkPagination (default 1%positive page) (default 10%positive limit)
                (Qceiling
                   (inject_Z (Z.of_nat
                      (length (List.filter (λ r, bool_decide (Review.reviewee r = userId))
                                 (reviews st))))
                    / inject_Z (Z.pos (default 10%positive limit))))
                (length (List.filter (λ r, bool_decide (Review.reviewee r = userId))
                           (reviews st)))))
          "User reviews retrieved successfully"), st).
Proof.
  unfold getUserReviews. unfold bind at 1. unfold gets at 1. cbv beta iota.
  unfold bind at 1. rewrite aggregate_ratingStats_pushed_string. reflexivity.
Qed.

(** X20. The statistics of [getUserReviews] never see a review: whatever is
    stored, the answer has average rating 0, [stats.totalReviews] 0 and a
    distribution with count 0 for each of the ratings 1 to 5, while
    [pagination.totalReviews] is the number of stored reviews of the user;
    the handler changes nothing. *)
Theorem user_reviews_stats_are_empty userId page limit st :
  ∃ body,
    getUserReviews userId page limit st
    = (Return (mkApiResponse 200 body "User reviews retrieved successfully"), st)
    ∧ (ur_averageRating body == 0)%Q
    ∧ ur_totalReviews body = 0%nat
    ∧ ur_ratingDistribution body
      = [(1%Q, 0%nat); (2%Q, 0%nat); (3%Q, 0%nat); (4%Q, 0%nat); (5%Q, 0%nat)]
    ∧ pg_totalReviews (ur_pagination body)
      = length (List.filter (λ r, bool_decide (Review.reviewee r = userId)) (reviews st)).
Proof.
  eexists. split; [apply getUserReviews_run|]. cbn.
  split; [reflexivity|]. done.
Qed.

(** X21. The page of [getUserReviews], for a page number [p] and a page
    size [l] that are positive whole numbers (1 and 10 when absent): it
    holds [min l (total - (p - 1) * l)] reviews, all of them stored reviews
    of the user, newest first; [totalPages] is the least number of pages of size [l] that hold all
    [total] reviews, and a page beyond it is empty. *)
Theorem user_reviews_page userId page limit st :
  ∃ body,
    getUserReviews userId page limit st
    = (Return (mkApiResponse 200 body "User reviews retrieved successfully"), st)
    ∧ length (ur_reviews body)
      = (Pos.to_nat (default 10%positive limit)
         `min` (length (List.filter (λ r, bool_decide (Review.reviewee r = userId))
                          (reviews st))
                - (Pos.to_nat (default 1%positive page) - 1)
                  * Pos.to_nat (default 10%positive limit)))%nat
    ∧ (∀ r, r ∈ ur_reviews body → r ∈ reviews st ∧ Review.reviewee r = userId)
    ∧ StronglySorted newerReviewFirst (ur_reviews body)
    ∧ (Z.of_nat (length (List.filter (λ r, bool_decide (Review.reviewee r = userId))
                           (reviews st)))
       ≤ pg_totalPages (ur_pagination body) * Z.pos (default 10%positive limit)
       < Z.of_nat (length (List.filter (λ r, bool_decide (Review.reviewee r = userId))
                             (reviews st)))
         + Z.pos (default 10%positive limit))%Z
    ∧ ((pg_totalPages (ur_pagination body) < Z.pos (default 1%positive page))%Z →
       ur_reviews body = []).
Proof.
  eexists. split; [apply getUserReviews_run|].
  cbn [ur_reviews ur_pagination pg_totalPages data].
  set (ofUser := List.filter (λ r, bool_decide (Review.reviewee r = userId)) (reviews st)).
  set (l := default 10%positive limit). set (p := default 1%positive page).
  assert (length (take (Pos.to_nat l)
                    (drop ((Pos.to_nat p - 1) * Pos.to_nat l)
                       (merge_sort newerReviewFirst ofUser)))
          = (Pos.to_nat l `min` (length ofUser - (Pos.to_nat p - 1) * Pos.to_nat l))%nat)
    as Hlen.
  { rewrite length_take, length_drop. by rewrite merge_sort_Permutation. }
  split; [exact Hlen|]. split; [|split; [|split]].
  - intros r Hr. apply subseteq_take, subseteq_drop in Hr.
    rewrite merge_sort_Permutation in Hr.
    apply list_elem_of_In, filter_In in Hr as [Hin Hf].
    split; [by apply list_elem_of_In|]. by apply bool_decide_eq_true in Hf.
  - pose proof (StronglySorted_merge_sort newerReviewFirst ofUser) as Hs.
    rewrite <- (take_drop ((Pos.to_nat p - 1) * Pos.to_nat l)
                  (merge_sort newerReviewFirst ofUser)) in Hs.
    apply StronglySorted_app_1_r in Hs.
    rewrite <- (take_drop (Pos.to_nat l) (drop _ _)) in Hs.
    by apply StronglySorted_app_1_l in Hs.
  - apply Qceiling_div_bounds.
  - intros Hbeyond. apply length_zero_iff_nil. rewrite Hlen.
    pose proof (Qceiling_div_bounds (Z.of_nat (length ofUser)) l) as [Hlo _].
    assert (length ofUser ≤ (Pos.to_nat p - 1) * Pos.to_nat l)%nat; [|lia].
    apply Nat2Z.inj_le. rewrite Nat2Z.inj_mul, Nat2Z.inj_sub by lia.
    rewrite !positive_nat_Z. simpl Z.of_nat. nia.
Qed.

(** ** Reviews that are refused *)

(** X22. The refusals of [submitReview] once the body has passed its
    checks, in the order of the code: an unknown trade gives 404; a trade
    that is not [completed] gives 400 to every caller, a stranger included;
    on a completed trade a caller who is not a participant gets 403, a
    participant naming anybody but the other participant gets 400, and a
    participant who has a stored review of that trade and reviewee gets
    400; the state is unchanged each time. *)
Theorem submitReview_refusals u tid rating review rid i n st q txt r :
  submitReview_validate rating review rid st = (Return (q, txt, r), st) →
  match tradeRequests st !! tid with
  | None =>
      submitReview u tid rating review rid i n st
      = (Throw (ApiError 404 "Trade request not found"), st)
  | Some t =>
      (TradeRequest.status t ≠ "completed" →
       submitReview u tid rating review rid i n st
       = (Throw (ApiError 400 "You can only review completed trades"), st))
      ∧ (TradeRequest.status t = "completed" →
         u ∉ [TradeRequest.sender t; TradeRequest.receiver t] →
         submitReview u tid rating review rid i n st
         = (Throw (ApiError 403 "You are not authorized to review this trade"), st))
      ∧ (TradeRequest.status t = "completed" →
         u ∈ [TradeRequest.sender t; TradeRequest.receiver t] →
         ¬ paired t u r →
         submitReview u tid rating review rid i n st
         = (Throw (ApiError 400 "You can only review the other party in this trade"), st))
      ∧ (TradeRequest.status t = "completed" →
         paired t u r →
         (∃ x, x ∈ reviews st ∧ tripleOf x = (tid, u, r)) →
         submitReview u tid rating review rid i n st
         = (Throw (ApiError 400 "You have already reviewed this trade"), st))
  end.
Proof.
  intros Hv.
  assert (∀ k : Q * string * string → M (ApiResponse Review.doc),
            bind (submitReview_validate rating review rid) k st = k (q, txt, r) st) as Hbind.
  { intros k. unfold bind. by rewrite Hv. }
  unfold submitReview, submitReview_using. rewrite !Hbind. clear Hbind.
  unfold TradeRequestModel_findById, ReviewModel_findOne. unfold_m.
  destruct (tradeRequests st !! tid) as [t|] eqn:Ht; [|done].
  split; [|split; [|split]].
  - intros Hst. by rewrite (bool_decide_eq_false_2 _ Hst).
  - intros Hst Hu. rewrite (bool_decide_eq_true_2 _ Hst). cbn [negb].
    rewrite !elem_of_cons, elem_of_nil in Hu.
    rewrite (bool_decide_eq_false_2 (TradeRequest.sender t = u)) by (intros ?; apply Hu; auto).
    rewrite (bool_decide_eq_false_2 (TradeRequest.receiver t = u)) by (intros ?; apply Hu; auto).
    done.
  - intros Hst Hu Hp. rewrite (bool_decide_eq_true_2 _ Hst). cbn [negb].
    destruct (negb _ && negb _) eqn:Hpart.
    { exfalso. apply andb_true_iff in Hpart as [H1 H2].
      apply negb_true_iff, bool_decide_eq_false in H1, H2.
      rewrite !elem_of_cons, elem_of_nil in Hu. destruct Hu as [?|[?|[]]]; congruence. }
    destruct (negb (_ || _)) eqn:Hvalid; [done|].
    exfalso. apply Hp. apply negb_false_iff, orb_true_iff in Hvalid.
    unfold paired. rewrite !andb_true_iff, !bool_decide_eq_true in Hvalid.
    destruct Hvalid as [[<- <-]|[<- <-]]; auto.
  - intros Hst Hp (x & Hx & Htriple). rewrite (bool_decide_eq_true_2 _ Hst). cbn [negb].
    assert (bool_decide (TradeRequest.sender t = u) && bool_decide (TradeRequest.receiver t = r)
            || bool_decide (TradeRequest.receiver t = u) && bool_decide (TradeRequest.sender t = r)
            = true) as Hvalid.
    { destruct Hp as [[Hu Hr]|[Hu Hr]].
      - rewrite (bool_decide_eq_true_2 (TradeRequest.sender t = u)) by done.
        by rewrite (bool_decide_eq_true_2 (TradeRequest.receiver t = r)).
      - rewrite (bool_decide_eq_true_2 (TradeRequest.receiver t = u)) by done.
        rewrite (bool_decide_eq_true_2 (TradeRequest.sender t = r)) by done.
        by rewrite orb_true_r. }
    destruct (negb _ && negb _) eqn:Hpart.
    { exfalso. apply andb_true_iff in Hpart as [H1 H2].
      apply negb_true_iff in H1, H2. rewrite H1, H2 in Hvalid. done. }
    rewrite Hvalid. cbn [negb].
    unfold tripleOf in Htriple. injection Htriple as <- <- <-.
    by destruct (find_sameTriple_Some x (reviews st) Hx) as [y ->].
Qed.

Lemma submitReview_refusals_witness :
  submitReview "u3" "t1" (Some 5%Q) (Some "great") (Some "u1") "r1" 4 demoProposed
  = (Throw (ApiError 400 "You can only review completed trades"), demoProposed).
Proof.
  pose proof (submitReview_refusals "u3" "t1" (Some 5%Q) (Some "great") (Some "u1") "r1" 4
                demoProposed 5%Q "great" "u1") as H.
  change (tradeRequests demoProposed !! "t1") with (Some demoTrade) in H.
  cbv beta iota in H.
  apply H.
  - vm_compute; reflexivity.
  - discriminate.
Defined.

(** ** Announcements are best effort *)

Ltac sync_collections :=
  cbv beta iota; cbn [fst snd]; proj_state;
  repeat match goal with
         | H : ?f ?st' = ?f ?st |- _ => progress rewrite !H
         end.

Ltac same_answer := intros <- <-; unfold sameCollections; sync_collections; done.

Lemma createTradeRequest_best_effort s r a b m i n st st' r1 r2 :
  sameCollections st st' →
  createTradeRequest s r a b m i n st = r1 →
  createTradeRequest s r a b m i n st' = r2 →
  r2.1 = r1.1 ∧ sameCollections r1.2 r2.2.
Proof.
  intros (Htr & Hrv & Hms & Hus & Hsk & Hsp).
  unfold createTradeRequest.
  destruct (truthy r) as [r'|]; [|same_answer].
  destruct (truthy a) as [a'|]; [|same_answer].
  destruct (truthy b) as [b'|]; [|same_answer].
  case_decide; [same_answer|].
  unfold TradeRequestModel_findOne, TradeRequestModel_create. unfold_m. sync_collections.
  destruct (List.find _ _); [same_answer|]. sync_collections.
  destruct (tradeRequests st !! i); [same_answer|]. sync_collections.
  destruct (users st !! s); sync_collections; [|same_answer].
  destruct (skills st !! castObjectId a'); sync_collections; [|same_answer].
  destruct (skills st !! castObjectId b'); sync_collections; [|same_answer].
  do 2 send_step. same_answer.
Qed.

Lemma updateTradeStatus_best_effort u id s n st st' r1 r2 :
  sameCollections st st' →
  updateTradeStatus u id s n st = r1 →
  updateTradeStatus u id s n st' = r2 →
  r2.1 = r1.1 ∧ sameCollections r1.2 r2.2.
Proof.
  intros (Htr & Hrv & Hms & Hus & Hsk & Hsp).
  unfold updateTradeStatus. unfold_m. sync_collections.
  destruct (tradeRequests st !! id) as [t|]; [|same_answer]. sync_collections.
  destruct (users st !! TradeRequest.sender t); [|same_answer]. sync_collections.
  destruct (users st !! TradeRequest.receiver t); [|same_answer]. sync_collections.
  case_bool_decide; simpl; [|same_answer].
  case_bool_decide as Hst; simpl; [|same_answer].
  rewrite !elem_of_cons in Hst.
  destruct Hst as [->|[->|[->|Hnil]]]; [| | |by apply elem_of_nil in Hnil];
    status_cases; sync_collections;
    (destruct (skills st !! TradeRequest.senderOfferedSkill t); [|same_answer]);
    sync_collections;
    (destruct (skills st !! TradeRequest.receiverOfferedSkill t); [|same_answer]);
    simpl; try destruct (bool_decide (length _ = 2) && _ && _);
    repeat send_step; same_answer.
Qed.

Lemma submitReview_best_effort u tid rating review rid i n st st' r1 r2 :
  sameCollections st st' →
  submitReview u tid rating review rid i n st = r1 →
  submitReview u tid rating review rid i n st' = r2 →
  r2.1 = r1.1 ∧ sameCollections r1.2 r2.2.
Proof.
  intros (Htr & Hrv & Hms & Hus & Hsk & Hsp).
  unfold submitReview, submitReview_using, submitReview_validate.
  destruct (truthyNumber rating) as [q|]; [|same_answer].
  destruct (truthy review) as [txt|]; [|same_answer].
  destruct (truthy rid) as [rid'|]; [|same_answer].
  destruct (Qlt_bool q 1 || Qlt_bool 5 q); [same_answer|].
  destruct ((String.length (trim txt) =? 0)%nat || (500 <? String.length txt)%nat);
    [same_answer|].
  unfold TradeRequestModel_findById, ReviewModel_findOne, ReviewModel_create,
    updateUserRating_using, ReviewModel_aggregate_ratingStats,
    SkillProfileModel_findOneAndUpdate.
  unfold_m. sync_collections.
  destruct (tradeRequests st !! tid) as [t|]; [|same_answer]. sync_collections.
  case_bool_decide; simpl; [|same_answer].
  destruct (negb _ && negb _); [same_answer|].
  destruct (negb (_ || _)); [same_answer|]. sync_collections.
  destruct (List.find _ _); [same_answer|]. sync_collections.
  destruct (_ || _ || _ || _); [same_answer|]. sync_collections.
  destruct (existsb _ _); [same_answer|]. sync_collections.
  rewrite !filter_false. sync_collections.
  destruct (skillProfiles st !! rid'); sync_collections;
    (destruct (users st !! u); sync_collections; [|same_answer]);
    do 2 send_step; same_answer.
Qed.

(** X23. Who is connected never changes what the three writing handlers
    answer or store: in two states with the same collections,
    [createTradeRequest], [updateTradeStatus] and [submitReview] give the
    same answer or the same error and leave the same collections, whatever
    the presence maps, the dispatcher and the log are. *)
Theorem notifications_are_best_effort st st' :
  sameCollections st st' →
  (∀ s r a b m i n,
     (createTradeRequest s r a b m i n st').1 = (createTradeRequest s r a b m i n st).1
     ∧ sameCollections (createTradeRequest s r a b m i n st).2
         (createTradeRequest s r a b m i n st').2)
  ∧ (∀ u id s n,
       (updateTradeStatus u id s n st').1 = (updateTradeStatus u id s n st).1
       ∧ sameCollections (updateTradeStatus u id s n st).2 (updateTradeStatus u id s n st').2)
  ∧ (∀ u tid rating review rid i n,
       (submitReview u tid rating review rid i n st').1
       = (submitReview u tid rating review rid i n st).1
       ∧ sameCollections (submitReview u tid rating review rid i n st).2
           (submitReview u tid rating review rid i n st').2).
Proof.
  intros Hc. split; [|split].
  - intros. by eapply createTradeRequest_best_effort.
  - intros. by eapply updateTradeStatus_best_effort.
  - intros. by eapply submitReview_best_effort.
Qed.

Lemma notifications_are_best_effort_witness :
  (updateTradeStatus "u2" "t1" (Some "accepted") 9 demoJoined).1
  = (updateTradeStatus "u2" "t1" (Some "accepted") 9 demoCompleted).1.
Proof.
  destruct (notifications_are_best_effort demoCompleted demoJoined) as (_ & H & _).
  - unfold sameCollections. repeat split; vm_compute; reflexivity.
  - apply (H "u2" "t1" (Some "accepted") 9).
Defined.

(** ** A proposal to oneself *)

(** X24. The refusal of a proposal to oneself compares the receiver id of
    the body with the caller's id letter for letter, while the trade is
    stored with the id as Mongoose casts it: a body that names the caller's
    own id with a hex letter in upper case passes the check and, when no
    pending trade duplicates it and the references resolve, is answered
    with 201 and stored as a pending trade whose receiver is its sender. *)
Theorem self_trade_by_case s r a b m i n st :
  r ≠ s → castObjectId r = s →
  a ≠ "" → b ≠ "" →
  noPendingDuplicate st s s (castObjectId a) (castObjectId b) →
  tradeRequests st !! i = None →
  is_Some (users st !! s) →
  is_Some (skills st !! castObjectId a) → is_Some (skills st !! castObjectId b) →
  (∃ st',
     createTradeRequest s (Some r) (Some a) (Some b) m i n st
     = (Return (mkApiResponse 201
                  (i, freshTrade s s (castObjectId a) (castObjectId b) m n)
                  "Trade request created successfully"), st'))
  ∧ ∃ t,
      tradeRequests (handle (CreateTradeRequest s (Some r) (Some a) (Some b) m i n) st) !! i
      = Some t
      ∧ TradeRequest.sender t = s ∧ TradeRequest.receiver t = s
      ∧ TradeRequest.status t = "pending".
Proof.
  intros Hself Hcast Ha Hb Hno Hfresh Hus Hsa Hsb.
  assert (r ≠ "") as Hr.
  { intros ->. apply Hself. by rewrite <- Hcast. }
  destruct (createTradeRequest_ok s r a b m i n st) as [l Hcall]; try done.
  { by rewrite Hcast. }
  rewrite Hcast in Hcall. split; [by eexists|].
  cbn [handle]. rewrite Hcall. cbn [snd]. proj_state.
  eexists. split; [apply lookup_insert_eq|]. done.
Qed.

Lemma self_trade_by_case_witness :
  ∃ t,
    tradeRequests
      (handle (CreateTradeRequest demoHexId (Some demoHexIdUpper) (Some "s1") (Some "s2")
                 None "t1" 1) demoHex) !! "t1" = Some t
    ∧ TradeRequest.sender t = demoHexId ∧ TradeRequest.receiver t = demoHexId
    ∧ TradeRequest.status t = "pending".
Proof.
  apply (self_trade_by_case demoHexId demoHexIdUpper "s1" "s2" None "t1" 1 demoHex).
  - discriminate.
  - vm_compute; reflexivity.
  - discriminate.
  - discriminate.
  - apply findOne_None_iff. vm_compute; reflexivity.
  - vm_compute; reflexivity.
  - vm_compute; eauto.
  - vm_compute; eauto.
  - vm_compute; eauto.
Defined.
